(** * Tag generation engine of the bookmark bot

    A shallow embedding of [SophisticatedBedrockTagGenerator]
    (keyword extraction, lexical scoring of the team's tag corpus, the two
    calls to the text-generation service, hybrid reconciliation and the
    public [generateTags]) together with the properties its specification
    states about it.

    Conventions of the model:
    - a string is a Rocq [string]; a character is a code unit below 256
      (the Latin-1 range), on which [toLowerCase], [trim] and the regular
      expression classes are written out in full;
    - a score is an integer number of tenths: the source divides a fuzzy
      similarity (an integer percentage) by 10 and adds whole boosts, so
      every score it can build is a multiple of 0.1 and [tenths 15] is the
      source's 15;
    - the libraries and services the class calls (wink-lemmatizer, fuzzball,
      JSON.parse, the Bedrock client, the bookmark repository) are fields of
      a record of collaborators, over which every definition is
      parameterised. *)

From Stdlib Require Import String Ascii List ZArith Lia Bool Arith.
From Stdlib Require Import Permutation Sorted.
Import ListNotations.
Open Scope string_scope.

(* ================================================================== *)
(** ** Characters and strings *)

Module Chars.

Definition code (c : ascii) : nat := nat_of_ascii c.

Definition in_range (lo hi : nat) (c : ascii) : bool :=
  (lo <=? code c)%nat && (code c <=? hi)%nat.

Definition is_code (n : nat) (c : ascii) : bool := (code c =? n)%nat.

(** [\s] : tab, line feed, vertical tab, form feed, carriage return,
    space and no-break space. *)
Definition is_space (c : ascii) : bool :=
  in_range 9 13 c || is_code 32 c || is_code 160 c.

(** [\d] *)
Definition is_digit (c : ascii) : bool := in_range 48 57 c.

(** [String.prototype.toLowerCase] on one code unit: A-Z and the
    Latin-1 capitals U+00C0..U+00DE (without the multiplication sign)
    move up by 32. Code units above this range, some of which JavaScript
    lowers to more than one code unit, are outside the model. *)
Definition is_upper (c : ascii) : bool :=
  in_range 65 90 c || (in_range 192 222 c && negb (is_code 215 c)).

Definition toLowerCase (c : ascii) : ascii :=
  if is_upper c then ascii_of_nat (code c + 32) else c.

End Chars.

Fixpoint string_map (f : ascii -> ascii) (s : string) : string :=
  match s with
  | EmptyString => EmptyString
  | String c r => String (f c) (string_map f r)
  end.

Fixpoint string_forallb (p : ascii -> bool) (s : string) : bool :=
  match s with
  | EmptyString => true
  | String c r => p c && string_forallb p r
  end.

Fixpoint string_rev_onto (s acc : string) : string :=
  match s with
  | EmptyString => acc
  | String c r => string_rev_onto r (String c acc)
  end.

Definition string_rev (s : string) : string := string_rev_onto s EmptyString.

Definition toLowerCase (s : string) : string := string_map Chars.toLowerCase s.

Fixpoint trimStart (s : string) : string :=
  match s with
  | EmptyString => EmptyString
  | String c r => if Chars.is_space c then trimStart r else s
  end.

(** [String.prototype.trim] *)
Definition trim (s : string) : string :=
  string_rev (trimStart (string_rev (trimStart s))).

(** [String.prototype.includes] *)
Fixpoint str_includes (s sub : string) : bool :=
  String.prefix sub s ||
  match s with
  | EmptyString => false
  | String _ r => str_includes r sub
  end.

(** [Array.prototype.includes] on an array of strings *)
Definition includes (l : list string) (x : string) : bool :=
  existsb (String.eqb x) l.

(** [Array.prototype.slice(0, e)]: a negative end counts from the end of
    the array. *)
Definition slice0 {A : Type} (l : list A) (e : Z) : list A :=
  let len := Z.of_nat (length l) in
  let k := if (e <? 0)%Z then Z.max (len + e) 0 else Z.min e len in
  firstn (Z.to_nat k) l.

(** [String.prototype.split] with a separator of the shape [[class]+]:
    the pieces between the maximal runs of separator characters; a run at
    the start or at the end leaves an empty piece there. [cur] holds the
    piece being read, reversed; [inrun] tells that the previous character
    was a separator. *)
Fixpoint split_runs (sep : ascii -> bool) (cur : string) (inrun : bool)
    (s : string) : list string :=
  match s with
  | EmptyString => [string_rev cur]
  | String c r =>
      if sep c then
        if inrun then split_runs sep EmptyString true r
        else string_rev cur :: split_runs sep EmptyString true r
      else split_runs sep (String c cur) false r
  end.

Definition split (sep : ascii -> bool) (s : string) : list string :=
  split_runs sep EmptyString false s.

(* ================================================================== *)
(** ** Keyword extraction *)

Definition stopWords : list string :=
  ["the"; "and"; "for"; "are"; "but"; "not"; "you"; "all"; "can"; "had";
   "her"; "was"; "one"; "our"; "out"; "day"; "get"; "has"; "him"; "his";
   "how"; "its"; "may"; "new"; "now"; "old"; "see"; "two"; "who"; "boy";
   "did"; "does"; "let"; "put"; "say"; "she"; "too"; "use"].

(** The class [[\s/-_.,!?():]]. Inside the brackets [/-_] is a range, from
    the slash (47) to the underscore (95): it holds the digits, the
    capitals and [: ; < = > ? @ [ \ ] ^], and it does not hold the dash
    (45). *)
Definition keyword_separator (c : ascii) : bool :=
  Chars.is_space c || Chars.in_range 47 95 c ||
  Chars.is_code 46 c || Chars.is_code 44 c || Chars.is_code 33 c || Chars.is_code 63 c ||
  Chars.is_code 40 c || Chars.is_code 41 c || Chars.is_code 58 c.

(** [/^\d+$/] *)
Definition is_number (w : string) : bool :=
  negb (String.eqb w "") && string_forallb Chars.is_digit w.

Definition keep_keywords (words : list string) : list string :=
  filter (fun word => negb (is_number word))
    (filter (fun word => negb (includes stopWords word))
       (filter (fun word => (2 <? String.length word)%nat) words)).

Definition extractKeywords (text : string) : list string :=
  keep_keywords (split keyword_separator (toLowerCase text)).

(** The extractor as the specification words it: the same pipeline with
    the separators it lists, namely white space, slash, dash, underscore,
    period, comma, [!], [?], [(] and [)]. *)
Definition listed_separator (c : ascii) : bool :=
  Chars.is_space c || Chars.is_code 47 c || Chars.is_code 45 c || Chars.is_code 95 c ||
  Chars.is_code 46 c || Chars.is_code 44 c || Chars.is_code 33 c || Chars.is_code 63 c ||
  Chars.is_code 40 c || Chars.is_code 41 c.

Definition extractKeywords_as_specified (text : string) : list string :=
  keep_keywords (split listed_separator (toLowerCase text)).

(** The listed separators together with the colon, which the source's
    class names as well. *)
Definition listed_separator_or_colon (c : ascii) : bool :=
  listed_separator c || Chars.is_code 58 c.

Definition extractKeywords_with_colon (text : string) : list string :=
  keep_keywords (split listed_separator_or_colon (toLowerCase text)).

(** The characters on which the range [/-_] and the listed set disagree
    once the text is in lower case: the dash, the digits and
    [; < = > @ [ \ ] ^]. *)
Definition range_only (c : ascii) : bool :=
  Chars.is_code 45 c || Chars.is_digit c || Chars.in_range 59 62 c ||
  Chars.is_code 64 c || Chars.in_range 91 94 c.

(* ================================================================== *)
(** ** Collaborators *)

(** A decoded JSON value, as [JSON.parse] returns it. *)
#[warnings="-register-all"]
Inductive json : Type :=
| JNull
| JBool (b : bool)
| JNumber (n : Z)
| JString (s : string)
| JArray (items : list json)
| JObject (fields : list (string * json)).

(** What one [InvokeModelCommand] is built from: the values the prompt
    template interpolates and the user message. The wording of the two
    prompts is fixed text around them. *)
Inductive request : Type :=
| DraftRequest (content url title description : string)
    (existingMatches : list string)
| FilterRequest (url title description : string)
    (candidateTags : list string).

(** What comes back from [client.send] and the decoding of its body, up to
    [responseBody.content[0]?.text]. *)
Inductive response : Type :=
| Rejected                      (* [client.send] throws *)
| NoBody                        (* [response.body] is missing *)
| Malformed                     (* the body is not the JSON text of an
                                   object with a [content] array *)
| Content (text : option string).

Record collaborators : Type := {
  lemmatizer_noun : string -> string;
  lemmatizer_verb : string -> string;
  lemmatizer_adjective : string -> string;
  (** fuzzball's [ratio], an integer percentage *)
  fuzz_ratio : string -> string -> Z;
  (** [None] when [JSON.parse] throws *)
  JSON_parse : string -> option json;
  client_send : request -> response;
  (** [None] when the repository call throws *)
  getExistingTags : string -> option (list string)
}.

(** The [options] argument; a call without it is the record of absent
    fields. *)
Record options : Type := {
  url : option string;
  title : option string;
  description : option string;
  teamId : option string;
  manualTags : option (list string)
}.

(** [x || d] on an optional string: absent and empty are both falsy. *)
Definition or_else (x : option string) (d : string) : string :=
  match x with
  | Some s => if String.eqb s "" then d else s
  | None => d
  end.

(** What the class throws. *)
Inductive BedrockError : Type :=
| EmptyResponseBody             (* Empty response body from Bedrock *)
| NoTextContent                 (* No text content in Bedrock response *)
| FailedToGenerateTags.         (* Failed to generate tags: <cause> *)

Inductive result (A : Type) : Type :=
| Ok (a : A)
| Throw (e : BedrockError).

Arguments Ok {A} a.
Arguments Throw {A} e.

Definition bind {A B : Type} (r : result A) (k : A -> result B) : result B :=
  match r with
  | Ok a => k a
  | Throw e => Throw e
  end.

(* ================================================================== *)
(** ** Lexical scoring of the corpus *)

Definition tenths (n : Z) : Z := (10 * n)%Z.

(** A [Map<string, number>]: the entries in insertion order, one per key. *)
Definition score_map : Type := list (string * Z).

Fixpoint map_get (m : score_map) (k : string) : option Z :=
  match m with
  | [] => None
  | (k', v) :: r => if String.eqb k k' then Some v else map_get r k
  end.

Definition map_has (m : score_map) (k : string) : bool :=
  match map_get m k with Some _ => true | None => false end.

(** [Map.prototype.set]: a present key keeps its place, a new key goes to
    the end. *)
Fixpoint map_set (m : score_map) (k : string) (v : Z) : score_map :=
  match m with
  | [] => [(k, v)]
  | (k', v') :: r =>
      if String.eqb k k' then (k', v) :: r else (k', v') :: map_set r k v
  end.

Inductive matchType : Type :=
| unmatched
| perfect
| grammatical_variation
| keyword_in_tag
| tag_in_keyword.

(** The two [logger.debug] records of the scoring loops. *)
Inductive event : Type :=
| TagMatch (mt : matchType) (keyword tag : string) (oldScore newScore : Z)
| FuzzyMatch (keyword tag : string) (similarity score : Z).

(** The score map together with the debug log, most recent record first. *)
Record matcher : Type := {
  tagScores : score_map;
  debug_log : list event
}.

Definition new_matcher : matcher := {| tagScores := []; debug_log := [] |}.

Section Engine.

Variable E : collaborators.

Definition isGrammaticalVariation (word1 word2 : string) : bool :=
  if String.eqb word1 word2 then true
  else
    let w1 := toLowerCase word1 in
    let w2 := toLowerCase word2 in
    let lemmas1 :=
      [lemmatizer_noun E w1; lemmatizer_verb E w1; lemmatizer_adjective E w1] in
    let lemmas2 :=
      [lemmatizer_noun E w2; lemmatizer_verb E w2; lemmatizer_adjective E w2] in
    existsb (fun lemma1 => includes lemmas2 lemma1) lemmas1.

(** The [if] chain of the first inner loop: [(scoreBoost, matchType)]. *)
Definition classify (keyword tag : string) : Z * matchType :=
  if String.eqb keyword tag then (tenths 15, perfect)
  else if isGrammaticalVariation keyword tag then
    (tenths 12, grammatical_variation)
  else if (2 <? String.length keyword)%nat && str_includes tag keyword then
    (tenths 8, keyword_in_tag)
  else if (2 <? String.length tag)%nat && str_includes keyword tag then
    (tenths 5, tag_in_keyword)
  else (0%Z, unmatched).

(** One turn of the first inner loop. *)
Definition score_tag (keyword : string) (st : matcher) (tag : string)
    : matcher :=
  let oldScore :=
    match map_get (tagScores st) tag with Some s => s | None => 0%Z end in
  let '(scoreBoost, mt) := classify keyword tag in
  if (0 <? scoreBoost)%Z then
    let newScore := (oldScore + scoreBoost)%Z in
    {| tagScores := map_set (tagScores st) tag newScore;
       debug_log := TagMatch mt keyword tag oldScore newScore :: debug_log st |}
  else st.

(** One turn of the second inner loop. [similarity / 10], counted in
    tenths, is [similarity]. *)
Definition fuzzy_tag (keyword : string) (st : matcher) (tag : string)
    : matcher :=
  if map_has (tagScores st) tag then st
  else
    let similarity := fuzz_ratio E keyword tag in
    if (80 <=? similarity)%Z then
      let score := similarity in
      {| tagScores := map_set (tagScores st) tag score;
         debug_log := FuzzyMatch keyword tag similarity score :: debug_log st |}
    else st.

(** The body of the loop over the keywords. *)
Definition score_keyword (existingTags : list string) (st : matcher)
    (keyword : string) : matcher :=
  fold_left (fuzzy_tag keyword) existingTags
    (fold_left (score_tag keyword) existingTags st).

Definition score_keywords (keywords existingTags : list string) : matcher :=
  fold_left (score_keyword existingTags) keywords new_matcher.

End Engine.

(** [Array.prototype.sort] with the comparator [(a, b) => b - a] on the
    scores: the stable sort by falling score. An entry goes in front of the
    first entry whose score is not above its own. *)
Fixpoint insert_desc (x : string * Z) (l : list (string * Z))
    : list (string * Z) :=
  match l with
  | [] => [x]
  | y :: r => if (snd y <=? snd x)%Z then x :: y :: r else y :: insert_desc x r
  end.

Fixpoint sort_desc (l : list (string * Z)) : list (string * Z) :=
  match l with
  | [] => []
  | x :: r => insert_desc x (sort_desc r)
  end.

Section Pipeline.

Variable E : collaborators.

(** [existingTags] after the guarded repository call. *)
Definition fetch_existing_tags (team : option string) : list string :=
  match team with
  | Some t =>
      if String.eqb t "" then []
      else match getExistingTags E t with
           | Some tags => tags
           | None => []
           end
  | None => []
  end.

(** The scoring loops of one request. *)
Definition scoring_run (title description : string) (team : option string)
    : matcher :=
  let content := title ++ " " ++ description in
  let keywords := extractKeywords content in
  let existingTags := fetch_existing_tags team in
  score_keywords E keywords existingTags.

Definition findTagsByKeywordsWithScores (title description : string)
    (team : option string) : list (string * Z) :=
  let tagScores := tagScores (scoring_run title description team) in
  slice0 (sort_desc tagScores) 6.

End Pipeline.

(* ================================================================== *)
(** ** The two calls to the text-generation service *)

(** [text.match(/\[.*\]/s)]: the match starts at the first opening bracket
    and, the star being greedy and the dot matching every character, ends
    at the last closing bracket after it. *)
Fixpoint from_first_open (s : string) : option string :=
  match s with
  | EmptyString => None
  | String c r => if Chars.is_code 91 c then Some r else from_first_open r
  end.

Fixpoint upto_last_close (s : string) : option string :=
  match s with
  | EmptyString => None
  | String c r =>
      match upto_last_close r with
      | Some p => Some (String c p)
      | None => if Chars.is_code 93 c then Some (String c EmptyString) else None
      end
  end.

Definition json_match (text : string) : option string :=
  match from_first_open text with
  | Some rest =>
      match upto_last_close rest with
      | Some inner => Some (String "[" inner)
      | None => None
      end
  | None => None
  end.

(** [.filter(tag => typeof tag === 'string')] *)
Fixpoint strings_of (items : list json) : list string :=
  match items with
  | [] => []
  | JString s :: r => s :: strings_of r
  | _ :: r => strings_of r
  end.

(** Validate and clean the drafted tags. *)
Definition cleanTags (tags : list json) : list string :=
  slice0
    (filter (fun tag => (0 <? String.length tag)%nat
                        && (String.length tag <=? 50)%nat)
       (map (fun tag => trim (toLowerCase tag)) (strings_of tags)))
    10.

(** [addHighScoringExistingTags] *)
Definition HIGH_SCORE_THRESHOLD : Z := tenths 15.
Definition MAX_TOTAL_TAGS : Z := 6.

Definition highScoringMissingWithScores (currentTags : list string)
    (existingMatchesWithScores : list (string * Z)) : list (string * Z) :=
  sort_desc
    (filter (fun e => negb (includes currentTags (fst e)))
       (filter (fun e => (HIGH_SCORE_THRESHOLD <=? snd e)%Z)
          existingMatchesWithScores)).

Definition additionalTags (currentTags : list string)
    (existingMatchesWithScores : list (string * Z)) : list string :=
  let highScoringMissing :=
    map fst (highScoringMissingWithScores currentTags existingMatchesWithScores) in
  slice0 highScoringMissing
    (MAX_TOTAL_TAGS - Z.of_nat (length currentTags)).

Definition addHighScoringExistingTags (currentTags : list string)
    (existingMatchesWithScores : list (string * Z)) : list string :=
  (currentTags ++ additionalTags currentTags existingMatchesWithScores)%list.

Section Stages.

Variable E : collaborators.

(** The command of the first call. *)
Definition draft_request (content : string) (opts : options)
    (existingMatches : list string) : request :=
  DraftRequest content
    (or_else (url opts) "Unknown") (or_else (title opts) "Unknown")
    (or_else (description opts) "No description available")
    existingMatches.

(** The command of the second call. *)
Definition filter_request (candidateTags : list string) (opts : options)
    : request :=
  FilterRequest
    (or_else (url opts) "Unknown") (or_else (title opts) "Unknown")
    (or_else (description opts) "No description available")
    candidateTags.

Definition generateWithLLM (content : string) (opts : options)
    (existingMatches : list string) : result (list string) :=
  match client_send E (draft_request content opts existingMatches) with
  | Rejected => Throw FailedToGenerateTags
  | NoBody => Throw EmptyResponseBody
  | Malformed => Throw FailedToGenerateTags
  | Content None => Throw NoTextContent
  | Content (Some generatedText) =>
      if String.eqb generatedText "" then Throw NoTextContent
      else
        match json_match generatedText with
        | None => Ok []
        | Some jsonMatch =>
            match JSON_parse E jsonMatch with
            | Some (JArray tags) => Ok (cleanTags tags)
            | Some _ => Throw FailedToGenerateTags
            | None => Throw FailedToGenerateTags
            end
        end
  end.

Definition protectedTags (tags existingMatches : list string) : list string :=
  filter (fun tag => includes existingMatches tag) tags.

Definition candidateTags (tags existingMatches : list string) : list string :=
  filter (fun tag => negb (includes existingMatches tag)) tags.

Definition filterTagsBySpecificity (tags : list string) (opts : options)
    (existingMatches : list string) : list string :=
  if (length tags =? 0)%nat then tags
  else
    let protectedTags := protectedTags tags existingMatches in
    let candidateTags := candidateTags tags existingMatches in
    if (length candidateTags =? 0)%nat then tags
    else
      match client_send E (filter_request candidateTags opts) with
      | Rejected => tags
      | NoBody => tags
      | Malformed => tags
      | Content None => tags
      | Content (Some generatedText) =>
          if String.eqb generatedText "" then tags
          else
            match json_match generatedText with
            | None => tags
            | Some jsonMatch =>
                match JSON_parse E jsonMatch with
                | Some (JArray filteredCandidateTags) =>
                    let finalTags :=
                      (protectedTags ++ strings_of filteredCandidateTags)%list in
                    if (length finalTags =? 0)%nat then tags else finalTags
                | Some _ => tags
                | None => tags
                end
            end
      end.

Definition generateTagsInternal (content : string)
    (_existingTags : option (list string)) (opts : options)
    : result (list string) :=
  let existingMatchesWithScores :=
    findTagsByKeywordsWithScores E
      (or_else (title opts) "") (or_else (description opts) "")
      (teamId opts) in
  let existingMatches := map fst existingMatchesWithScores in
  bind (generateWithLLM content opts existingMatches) (fun initialTags =>
  let filteredTags :=
    filterTagsBySpecificity initialTags opts existingMatches in
  let hybridTags :=
    addHighScoringExistingTags filteredTags existingMatchesWithScores in
  Ok hybridTags).

Definition generateTags (content : string)
    (existingTags : option (list string)) (opts : options)
    : result (list string) :=
  match manualTags opts with
  | Some manual =>
      if (0 <? length manual)%nat then
        bind (generateTagsInternal content existingTags opts)
          (fun generatedTags => Ok (slice0 (manual ++ generatedTags)%list 8))
      else generateTagsInternal content existingTags opts
  | None => generateTagsInternal content existingTags opts
  end.

End Stages.

(* ================================================================== *)
(** ** Reading the debug log *)

Definition event_tag (e : event) : string :=
  match e with
  | TagMatch _ _ tag _ _ => tag
  | FuzzyMatch _ tag _ _ => tag
  end.

Definition is_fuzzy (e : event) : bool :=
  match e with
  | FuzzyMatch _ _ _ _ => true
  | TagMatch _ _ _ _ _ => false
  end.

Definition is_perfect (e : event) : bool :=
  match e with
  | TagMatch perfect _ _ _ _ => true
  | _ => false
  end.

(** The boost each match type stands for. *)
Definition boost_of (mt : matchType) : Z :=
  match mt with
  | perfect => tenths 15
  | grammatical_variation => tenths 12
  | keyword_in_tag => tenths 8
  | tag_in_keyword => tenths 5
  | unmatched => 0
  end.

(** What one record adds to its tag's score. *)
Definition contribution (e : event) : Z :=
  match e with
  | TagMatch mt _ _ _ _ => boost_of mt
  | FuzzyMatch _ _ _ score => score
  end.

Definition events_for (tag : string) (log : list event) : list event :=
  filter (fun e => String.eqb (event_tag e) tag) log.

Definition fuzzy_events_for (tag : string) (log : list event) : list event :=
  filter is_fuzzy (events_for tag log).

Definition perfect_events_for (tag : string) (log : list event)
    : list event :=
  filter is_perfect (events_for tag log).

Definition total (evs : list event) : Z :=
  fold_right (fun e acc => (contribution e + acc)%Z) 0%Z evs.

(** The score a log gives a tag: none without a record, else the sum of
    what its records add. *)
Definition score_from_log (log : list event) (tag : string) : option Z :=
  match events_for tag log with
  | [] => None
  | evs => Some (total evs)
  end.

(** A tag scored by fuzzy matching and by nothing else. *)
Definition fuzzy_only (log : list event) (tag : string) : bool :=
  match events_for tag log with
  | [] => false
  | evs => forallb is_fuzzy evs
  end.

(** Each record of a log against the records before it ([older]): a match
    of the first four kinds adds its boost to the score accumulated so far,
    a fuzzy match needs a similarity of 80 at least and a tag that no
    record has scored yet. *)
Fixpoint well_formed_log (log : list event) : Prop :=
  match log with
  | [] => True
  | e :: older =>
      match e with
      | TagMatch mt _ tag oldScore newScore =>
          mt <> unmatched
          /\ oldScore = match score_from_log older tag with
                        | Some s => s
                        | None => 0%Z
                        end
          /\ newScore = (oldScore + boost_of mt)%Z
      | FuzzyMatch _ tag similarity score =>
          events_for tag older = []
          /\ (80 <= similarity)%Z
          /\ score = similarity
      end
      /\ well_formed_log older
  end.

(** Every fuzzy record holds what fuzzball returned for its pair. *)
Definition fuzzy_from_ratio (E : collaborators) (log : list event) : Prop :=
  Forall (fun e =>
            match e with
            | FuzzyMatch keyword tag similarity _ =>
                similarity = fuzz_ratio E keyword tag
            | TagMatch _ _ _ _ _ => True
            end) log.

(** What the scoring loops keep true of the map and the log. *)
Definition scoring_invariant (E : collaborators) (st : matcher) : Prop :=
  NoDup (map fst (tagScores st))
  /\ (forall tag,
        map_get (tagScores st) tag = score_from_log (debug_log st) tag)
  /\ well_formed_log (debug_log st)
  /\ fuzzy_from_ratio E (debug_log st).

Definition perfect_count (log : list event) (tag : string) : nat :=
  length (perfect_events_for tag log).

(** How often a string occurs in an array. *)
Definition occurrences (l : list string) (x : string) : nat :=
  length (filter (String.eqb x) l).

(** The tags of a log in the order of their first record. *)
Fixpoint encounter_order (log : list event) : list string :=
  match log with
  | [] => []
  | e :: older =>
      let seen := encounter_order older in
      if includes seen (event_tag e) then seen
      else (seen ++ [event_tag e])%list
  end.

(** A record of a perfect match carries a keyword equal to its tag. *)
Definition perfect_is_equal (e : event) : Prop :=
  match e with
  | TagMatch perfect keyword tag _ _ => keyword = tag
  | _ => True
  end.

(** The score of one tag as the specification words it. The boost of a
    keyword for a tag is 15 for [keyword === tag], else 12 for a
    grammatical variation, else 8 when the keyword (longer than 2) is in
    the tag, else 5 when the tag (longer than 2) is in the keyword, else
    nothing. *)
Definition boost_as_specified (E : collaborators) (keyword tag : string)
    : Z :=
  if String.eqb keyword tag then tenths 15
  else if isGrammaticalVariation E keyword tag then tenths 12
  else if (2 <? String.length keyword)%nat && str_includes tag keyword then
    tenths 8
  else if (2 <? String.length tag)%nat && str_includes keyword tag then
    tenths 5
  else 0%Z.

(** One keyword more: a boost is added to the score the tag has so far
    (none counts as 0), once per occurrence of the tag in the corpus; a tag
    of the corpus that still has no score gets the fuzzy similarity, when
    it is 80 at least, divided by 10 (its value in tenths). *)
Definition score_after_keyword (E : collaborators)
    (existingTags : list string) (tag : string) (score : option Z)
    (keyword : string) : option Z :=
  let n := Z.of_nat (occurrences existingTags tag) in
  let boost := boost_as_specified E keyword tag in
  let accumulated :=
    if (0 <? n)%Z && (0 <? boost)%Z then
      Some ((match score with Some s => s | None => 0 end) + n * boost)%Z
    else score in
  match accumulated with
  | Some s => Some s
  | None =>
      if (0 <? n)%Z && (80 <=? fuzz_ratio E keyword tag)%Z then
        Some (fuzz_ratio E keyword tag)
      else None
  end.

Definition score_as_specified (E : collaborators)
    (keywords existingTags : list string) (tag : string) : option Z :=
  fold_left (score_after_keyword E existingTags tag) keywords None.

(** Falling scores, the order of the answer. *)
Definition score_ge (a b : string * Z) : Prop := (snd b <= snd a)%Z.

Definition with_score (s : Z) (l : list (string * Z)) : list (string * Z) :=
  filter (fun e => (snd e =? s)%Z) l.

(** The specification's notion of a deduplicated tag list: no two entries
    with the same normalized (lowercase, trimmed) form. *)
Definition normalize (tag : string) : string := trim (toLowerCase tag).

Definition deduplicated (tags : list string) : Prop :=
  NoDup (map normalize tags).

(* ================================================================== *)
(** ** Concrete collaborators for the worked examples *)

Module Fixture.

Definition dq : string := String (ascii_of_nat 34) EmptyString.

Definition quoted (s : string) : string := dq ++ s ++ dq.

(** The JSON text of an array of plain strings. *)
Definition array_text (l : list string) : string :=
  "[" ++ String.concat "," (map quoted l) ++ "]".

(** [JSON.parse] on the fragment the examples use: an array of string
    literals without escapes, with JSON white space between the tokens.
    Every other text is refused. *)
Inductive parser : Type :=
| AtStart
| AfterOpen
| InString (done : list string) (cur : string)
| AfterValue (done : list string)
| AfterComma (done : list string)
| AtEnd (done : list string).

Definition json_space (c : ascii) : bool :=
  Chars.is_code 32 c || Chars.is_code 9 c || Chars.is_code 10 c
  || Chars.is_code 13 c.

Definition parser_step (p : parser) (c : ascii) : option parser :=
  match p with
  | AtStart =>
      if json_space c then Some AtStart
      else if Chars.is_code 91 c then Some AfterOpen else None
  | AfterOpen =>
      if json_space c then Some AfterOpen
      else if Chars.is_code 93 c then Some (AtEnd [])
      else if Chars.is_code 34 c then Some (InString [] EmptyString)
      else None
  | InString done cur =>
      if Chars.is_code 34 c then Some (AfterValue (string_rev cur :: done))
      else if Chars.is_code 92 c || Chars.in_range 0 31 c then None
      else Some (InString done (String c cur))
  | AfterValue done =>
      if json_space c then Some (AfterValue done)
      else if Chars.is_code 44 c then Some (AfterComma done)
      else if Chars.is_code 93 c then Some (AtEnd done)
      else None
  | AfterComma done =>
      if json_space c then Some (AfterComma done)
      else if Chars.is_code 34 c then Some (InString done EmptyString)
      else None
  | AtEnd done => if json_space c then Some (AtEnd done) else None
  end.

Fixpoint parser_run (p : parser) (s : string) : option json :=
  match s with
  | EmptyString =>
      match p with
      | AtEnd done => Some (JArray (map JString (rev done)))
      | _ => None
      end
  | String c r =>
      match parser_step p c with
      | Some p' => parser_run p' r
      | None => None
      end
  end.

Definition parse (s : string) : option json := parser_run AtStart s.

(** A lemmatizer that knows no inflection. *)
Definition lemma (w : string) : string := w.

(** fuzzball's [ratio] on the pairs the examples meet: equal strings are
    100 apart from nothing, one listed near miss is 90, the rest is 0. *)
Definition ratio (a b : string) : Z :=
  if String.eqb a b then 100%Z
  else if String.eqb a "kubernetes" && String.eqb b "kubernates" then 90%Z
  else 0%Z.

(** The collaborators of one request: the reply to the draft call, the
    reply to the filter call and the repository. *)
Definition make (draft filter : response)
    (store : string -> option (list string)) : collaborators :=
  {| lemmatizer_noun := lemma;
     lemmatizer_verb := lemma;
     lemmatizer_adjective := lemma;
     fuzz_ratio := ratio;
     JSON_parse := parse;
     client_send := fun req =>
       match req with
       | DraftRequest _ _ _ _ _ => draft
       | FilterRequest _ _ _ _ => filter
       end;
     getExistingTags := store |}.

Definition no_store (_ : string) : option (list string) := None.

Definition with_manual (manual : list string) : options :=
  {| url := None; title := None; description := None; teamId := None;
     manualTags := Some manual |}.

Definition seven_tags : list string := ["a"; "b"; "c"; "d"; "e"; "f"; "g"].

Definition no_options : options :=
  {| url := None; title := None; description := None; teamId := None;
     manualTags := None |}.

End Fixture.

(* ================================================================== *)
(** ** The plain generator *)

(** [BedrockTagGenerator.generateTags]: one call, whose prompt interpolates
    the joined [existingTags] (or [none]) and the content. [send] takes
    those two strings; [parse] is [JSON.parse]. *)
Definition plain_generateTags (send : string -> string -> response)
    (parse : string -> option json) (content : string)
    (existingTags : option (list string)) : result (list string) :=
  let hint := or_else (option_map (String.concat ", ") existingTags) "none" in
  match send hint content with
  | Rejected => Throw FailedToGenerateTags
  | NoBody => Throw EmptyResponseBody
  | Malformed => Throw FailedToGenerateTags
  | Content None => Throw NoTextContent
  | Content (Some generatedText) =>
      if String.eqb generatedText "" then Throw NoTextContent
      else
        match json_match generatedText with
        | None => Ok []
        | Some jsonMatch =>
            match parse jsonMatch with
            | Some (JArray tags) => Ok (cleanTags tags)
            | Some _ => Throw FailedToGenerateTags
            | None => Throw FailedToGenerateTags
            end
        end
  end.

(* ================================================================== *)
(** ** The callers: validation, sanitizing, the bookmark services *)

(** [[...new Set(l)]]: the elements in the order of their first
    occurrence. [seen] is the set built so far. *)
Fixpoint set_add_all (seen l : list string) : list string :=
  match l with
  | [] => seen
  | x :: r => set_add_all (if includes seen x then seen else seen ++ [x]) r
  end.

Definition unique (l : list string) : list string := set_add_all [] l.

(** [tag.trim().toLowerCase()] *)
Definition sanitize_tag (tag : string) : string := toLowerCase (trim tag).

(** [.map(tag => tag.trim().toLowerCase()).filter(Boolean)] *)
Definition sanitize_tags (tags : list string) : list string :=
  filter (fun tag => negb (String.eqb tag "")) (map sanitize_tag tags).

Module Bookmark.

(** [Partial<Bookmark>]; the dates are time stamps. *)
Record t : Type := {
  id : option Z;
  url : option string;
  title : option string;
  description : option string;
  tags : option (list string);
  manualTags : option (list string);
  userId : option string;
  teamId : option string;
  channelId : option string;
  isPrivate : option bool;
  createdAt : option Z;
  updatedAt : option Z
}.

End Bookmark.

Definition sanitizeBookmark (bookmark : Bookmark.t) : Bookmark.t :=
  {| Bookmark.id := Bookmark.id bookmark;
     Bookmark.url := Bookmark.url bookmark;
     Bookmark.title := option_map trim (Bookmark.title bookmark);
     Bookmark.description := option_map trim (Bookmark.description bookmark);
     Bookmark.tags :=
       Some (match Bookmark.tags bookmark with
             | Some tags => sanitize_tags tags
             | None => []
             end);
     Bookmark.manualTags :=
       option_map sanitize_tags (Bookmark.manualTags bookmark);
     Bookmark.userId := option_map trim (Bookmark.userId bookmark);
     Bookmark.teamId := option_map trim (Bookmark.teamId bookmark);
     Bookmark.channelId := option_map trim (Bookmark.channelId bookmark);
     Bookmark.isPrivate := Bookmark.isPrivate bookmark;
     Bookmark.createdAt := Bookmark.createdAt bookmark;
     Bookmark.updatedAt := Bookmark.updatedAt bookmark |}.

Module Request.

(** [BookmarkCreateRequest] *)
Record t : Type := {
  url : string;
  title : option string;
  description : option string;
  manualTags : option (list string);
  userId : string;
  teamId : option string;
  channelId : string
}.

End Request.

Inductive ValidationError : Type :=
| Invalid (message field : string).

(** [!s || s.trim().length === 0] *)
Definition blank (s : string) : bool :=
  String.eqb s "" || (String.length (trim s) =? 0)%nat.

(** [validateUrl]; [URL_parses] tells whether [new URL(url)] returns. *)
Definition validateUrl (URL_parses : string -> bool) (url : string) : bool :=
  if URL_parses url then
    String.prefix "http://" url || String.prefix "https://" url
  else false.

(** The loop over the manual tags. *)
Fixpoint validate_tags (tags : list string) : option ValidationError :=
  match tags with
  | [] => None
  | tag :: r =>
      if blank tag then Some (Invalid "Empty tags are not allowed" "manualTags")
      else if (50 <? String.length tag)%nat then
        Some (Invalid "Tag too long (max 50 characters)" "manualTags")
      else validate_tags r
  end.

(** [validateBookmarkCreateRequest]: the error thrown, [None] when the
    request passes. *)
Definition validateBookmarkCreateRequest (URL_parses : string -> bool)
    (request : Request.t) : option ValidationError :=
  if String.eqb (Request.url request) "" then
    Some (Invalid "URL is required" "url")
  else if negb (validateUrl URL_parses (Request.url request)) then
    Some (Invalid "Invalid URL format" "url")
  else if blank (Request.userId request) then
    Some (Invalid "User ID is required" "userId")
  else if blank (Request.channelId request) then
    Some (Invalid "Channel ID is required" "channelId")
  else
    match Request.manualTags request with
    | Some manual =>
        if (10 <? length manual)%nat then
          Some (Invalid "Too many manual tags (max 10)" "manualTags")
        else validate_tags manual
    | None => None
    end.

(** The request [processBookmarkAsync] builds from the text of a
    [/bookmark] command. *)
Definition command_parts (text : string) : list string :=
  split Chars.is_space text.

Definition command_url (text : string) : string :=
  hd "" (command_parts text).

Definition command_manualTags (text : string) : list string :=
  filter (fun tag => (0 <? String.length tag)%nat)
    (skipn 1 (command_parts text)).

Definition command_request (text user_id team_id channel_id : string)
    : Request.t :=
  {| Request.url := command_url text;
     Request.title := None;
     Request.description := None;
     Request.manualTags := Some (command_manualTags text);
     Request.userId := user_id;
     Request.teamId := Some team_id;
     Request.channelId := channel_id |}.

(** The collaborators of [BookmarkService]; [None] is a call that
    throws. *)
Inductive collaborator : Type :=
| FindByUrl
| ExtractMetadata
| GetSeedTags
| Save.

Record services : Type := {
  URL_parses : string -> bool;
  findByUrl : string -> string -> option (option Bookmark.t);
  (** the title and the description of the page *)
  extractMetadata : string -> option (string * string);
  getSeedTags : string -> string -> Z -> option (list string);
  tagGenerator :
    string -> option (list string) -> options -> result (list string);
  save : Bookmark.t -> option Bookmark.t
}.

Inductive failure : Type :=
| ValidationFailed (e : ValidationError)
| GenerationFailed (e : BedrockError)
| CollaboratorFailed (c : collaborator).

Inductive outcome (A : Type) : Type :=
| Returned (a : A)
| Raised (f : failure).

Arguments Returned {A} a.
Arguments Raised {A} f.

(** [allTags] and [uniqueTags] *)
Definition uniqueTags (manual : option (list string))
    (generatedTags : list string) : list string :=
  let allTags :=
    ((match manual with Some m => m | None => [] end) ++ generatedTags)%list in
  unique allTags.

(** [bookmarkData]: the sanitized record handed to [save]. *)
Definition bookmarkData (url title description : string)
    (manual : option (list string)) (userId teamId channelId : string)
    (generatedTags : list string) : Bookmark.t :=
  sanitizeBookmark
    {| Bookmark.id := None;
       Bookmark.url := Some url;
       Bookmark.title := Some (or_else (Some title) "Untitled");
       Bookmark.description := Some description;
       Bookmark.tags := Some (uniqueTags manual generatedTags);
       Bookmark.manualTags := manual;
       Bookmark.userId := Some userId;
       Bookmark.teamId := Some teamId;
       Bookmark.channelId := Some channelId;
       Bookmark.isPrivate := None;
       Bookmark.createdAt := None;
       Bookmark.updatedAt := None |}.

(** [BookmarkService.createBookmark] *)
Definition createBookmark (S : services) (request : Request.t)
    : outcome Bookmark.t :=
  match validateBookmarkCreateRequest (URL_parses S) request with
  | Some e => Raised (ValidationFailed e)
  | None =>
  match findByUrl S (Request.url request) (Request.userId request) with
  | None => Raised (CollaboratorFailed FindByUrl)
  | Some (Some existing) => Returned existing
  | Some None =>
  match extractMetadata S (Request.url request) with
  | None => Raised (CollaboratorFailed ExtractMetadata)
  | Some (metadata_title, metadata_description) =>
  let contentForTagGeneration :=
    trim (metadata_title ++ " " ++ metadata_description) in
  let teamId := or_else (Request.teamId request) (Request.userId request) in
  match getSeedTags S (Request.userId request) teamId 20 with
  | None => Raised (CollaboratorFailed GetSeedTags)
  | Some existingTags =>
  match
    tagGenerator S contentForTagGeneration (Some existingTags)
      {| url := Some (Request.url request);
         title := Some metadata_title;
         description := Some metadata_description;
         teamId := Some teamId;
         manualTags := Request.manualTags request |}
  with
  | Throw e => Raised (GenerationFailed e)
  | Ok generatedTags =>
  match
    save S
      (bookmarkData (Request.url request) metadata_title
         metadata_description (Request.manualTags request)
         (Request.userId request) teamId (Request.channelId request)
         generatedTags)
  with
  | None => Raised (CollaboratorFailed Save)
  | Some savedBookmark => Returned savedBookmark
  end end end end end end.

(* ================================================================== *)
(** ** The repository of the private lambda *)

Definition seedTags : list string :=
  ["javascript"; "typescript"; "python"; "java"; "go"; "rust";
   "react"; "vue"; "angular"; "nodejs"; "express";
   "programming"; "coding"; "development"; "software"; "web development";
   "frontend"; "backend"; "fullstack"; "api"; "database";
   "tutorial"; "documentation"; "guide"; "reference";
   "github"; "open source"; "repository"; "code";
   "framework"; "library"; "tool"; "utility";
   "ai"; "machine learning"; "ml"; "llm"; "openai";
   "design"; "ui"; "ux"; "css"; "html";
   "devops"; "docker"; "kubernetes"; "aws"; "cloud"; "container"].

(** [PostgresBookmarkRepository.getExistingTags]; [team_tags] is the
    [tag_name] column of the query for the team, [None] when the query
    fails. *)
Definition postgres_getExistingTags
    (team_tags : string -> option (list string)) (teamId : string)
    : option (list string) :=
  match team_tags teamId with
  | Some databaseTags => Some (unique (databaseTags ++ seedTags))
  | None => None
  end.

(** [PostgresBookmarkRepository.getSeedTags]; [user_tags] is the [tag]
    column of the query for the user and the limit. *)
Definition postgres_getSeedTags
    (team_tags : string -> option (list string))
    (user_tags : string -> Z -> option (list string))
    (userId : string) (teamId : option string) (limit : Z)
    : option (list string) :=
  match teamId with
  | Some team =>
      if String.eqb team "" then user_tags userId limit
      else option_map (fun tags => slice0 tags limit)
             (postgres_getExistingTags team_tags team)
  | None => user_tags userId limit
  end.

(** A word the extractor can return: lower case, free of separators,
    longer than 2 and no stop word. *)
Definition is_keyword (w : string) : bool :=
  string_forallb
    (fun c => negb (keyword_separator c) && negb (Chars.is_upper c)) w
  && (2 <? String.length w)%nat
  && negb (includes stopWords w).

(* ================================================================== *)
(** * Properties *)

(** ** Keyword extraction *)

Ltac all_chars c :=
  destruct c as [b0 b1 b2 b3 b4 b5 b6 b7];
  destruct b0, b1, b2, b3, b4, b5, b6, b7;
  vm_compute; try reflexivity; try discriminate; auto.

Lemma lower_not_range_only (c : ascii) :
  range_only (Chars.toLowerCase c) = range_only c.
Proof. all_chars c. Qed.

Lemma separators_agree (c : ascii) :
  range_only c = false ->
  keyword_separator (Chars.toLowerCase c)
  = listed_separator_or_colon (Chars.toLowerCase c).
Proof. all_chars c. Qed.

Lemma split_runs_ext (p q : ascii -> bool) (s : string) :
  string_forallb (fun c => Bool.eqb (p c) (q c)) s = true ->
  forall cur inrun, split_runs p cur inrun s = split_runs q cur inrun s.
Proof.
  induction s as [|c r IH]; simpl; intros H cur inrun; [reflexivity|].
  apply andb_prop in H as [Hc Hr].
  apply Bool.eqb_prop in Hc. rewrite <- Hc.
  destruct (p c); [destruct inrun|]; rewrite ?IH; auto.
Qed.

Lemma forallb_lower_agree (text : string) :
  string_forallb (fun c => negb (range_only c)) text = true ->
  string_forallb
    (fun c => Bool.eqb (keyword_separator c) (listed_separator_or_colon c))
    (toLowerCase text) = true.
Proof.
  induction text as [|c r IH]; simpl; intros H; [reflexivity|].
  apply andb_prop in H as [Hc Hr].
  apply negb_true_iff in Hc.
  rewrite (separators_agree c Hc), Bool.eqb_reflx. simpl. auto.
Qed.

Example extractKeywords_scenario_E :
  extractKeywords "Node.js & Express: A Guide" = ["node"; "express"; "guide"].
Proof. reflexivity. Qed.

(** The dash does not split and the digits do: the range of the class. *)
Example extractKeywords_range :
  extractKeywords "real-time web3 apps" = ["real-time"; "web"; "apps"]
  /\ extractKeywords_as_specified "real-time web3 apps"
     = ["real"; "time"; "web3"; "apps"].
Proof. split; reflexivity. Qed.

(** C6, as stated, fails: the colon is a separator of the source and is
    not in the listed set, so the source cuts [foo:bar] in two where the
    listed set keeps it whole. *)
Lemma extractKeywords_colon_counterexample :
  extractKeywords "foo:bar" = ["foo"; "bar"]
  /\ extractKeywords_as_specified "foo:bar" = ["foo:bar"]
  /\ extractKeywords "foo:bar" <> extractKeywords_as_specified "foo:bar".
Proof. repeat split; try reflexivity. discriminate. Qed.

(** C6, amended: on a text without dash, digit and [; < = > @ [ \ ] ^],
    [extractKeywords] returns the tokens obtained by lowercasing and
    splitting on white space, slash, dash, underscore, period, comma, [!],
    [?], [(], [)] and the colon, then dropping the tokens of length at most
    2, the stop words and the numbers; the empty text gives no keyword. *)
Theorem extractKeywords_listed_separators (text : string) :
  string_forallb (fun c => negb (range_only c)) text = true ->
  extractKeywords text = extractKeywords_with_colon text
  /\ extractKeywords "" = [].
Proof.
  intros H. split; [|reflexivity].
  unfold extractKeywords, extractKeywords_with_colon, split.
  now rewrite (split_runs_ext _ _ _ (forallb_lower_agree text H)).
Qed.

Lemma extractKeywords_listed_separators_witness :
  extractKeywords "Node.js & Express: A Guide"
  = extractKeywords_with_colon "Node.js & Express: A Guide"
  /\ extractKeywords "" = [].
Proof.
  apply (extractKeywords_listed_separators "Node.js & Express: A Guide").
  reflexivity.
Defined.

(* ================================================================== *)
(** ** Arrays: [includes], [slice] and the stable sort *)

Lemma includes_In (l : list string) (x : string) :
  includes l x = true <-> In x l.
Proof.
  unfold includes. rewrite existsb_exists. split.
  - intros [y [Hy Hxy]]. apply String.eqb_eq in Hxy. now subst.
  - intros H. exists x. split; [assumption | apply String.eqb_refl].
Qed.

Lemma slice0_firstn {A : Type} (l : list A) (e : Z) :
  (0 <= e)%Z -> slice0 l e = firstn (Z.to_nat e) l.
Proof.
  intros He. unfold slice0.
  destruct (e <? 0)%Z eqn:Hneg; [apply Z.ltb_lt in Hneg; lia|].
  destruct (Z.min_spec e (Z.of_nat (length l))) as [[Hlt ->]|[Hge ->]].
  - reflexivity.
  - rewrite Nat2Z.id, firstn_all. symmetry. apply firstn_all2. lia.
Qed.

Lemma slice0_length {A : Type} (l : list A) (e : Z) :
  (0 <= e)%Z -> (length (slice0 l e) <= Z.to_nat e)%nat.
Proof.
  intros He. rewrite slice0_firstn by assumption. apply firstn_le_length.
Qed.

Lemma firstn_subset {A : Type} (n : nat) (l : list A) (x : A) :
  In x (firstn n l) -> In x l.
Proof.
  revert l. induction n as [|n IH]; intros [|y r]; simpl; try tauto.
  intros [->|H]; [now left | right; now apply IH].
Qed.

Lemma slice0_incl {A : Type} (l : list A) (e : Z) (x : A) :
  In x (slice0 l e) -> In x l.
Proof. unfold slice0. apply firstn_subset. Qed.

Lemma insert_desc_perm (x : string * Z) (l : list (string * Z)) :
  Permutation (insert_desc x l) (x :: l).
Proof.
  induction l as [|y r IH]; simpl; [reflexivity|].
  destruct (snd y <=? snd x)%Z; [reflexivity|].
  rewrite IH. apply perm_swap.
Qed.

Lemma sort_desc_perm (l : list (string * Z)) : Permutation (sort_desc l) l.
Proof.
  induction l as [|x r IH]; simpl; [reflexivity|].
  rewrite insert_desc_perm. now constructor.
Qed.

Lemma insert_desc_sorted (x : string * Z) (l : list (string * Z)) :
  StronglySorted score_ge l -> StronglySorted score_ge (insert_desc x l).
Proof.
  induction 1 as [|y r Hr IH Hy]; simpl.
  - repeat constructor.
  - destruct (snd y <=? snd x)%Z eqn:Hc.
    + apply Z.leb_le in Hc. constructor; [now constructor|].
      constructor; [exact Hc|].
      rewrite Forall_forall in *. intros z Hz. specialize (Hy z Hz).
      unfold score_ge in *. lia.
    + apply Z.leb_gt in Hc. constructor; [exact IH|].
      rewrite Forall_forall in *. intros z Hz.
      apply (Permutation_in _ (insert_desc_perm x r)) in Hz.
      destruct Hz as [<-|Hz]; [unfold score_ge; lia | now apply Hy].
Qed.

Lemma sort_desc_sorted (l : list (string * Z)) :
  StronglySorted score_ge (sort_desc l).
Proof.
  induction l as [|x r IH]; simpl; [constructor | now apply insert_desc_sorted].
Qed.

(** Stability: entries of equal score keep the order they came in. *)
Lemma insert_desc_stable (s : Z) (x : string * Z) (l : list (string * Z)) :
  with_score s (insert_desc x l) = with_score s (x :: l).
Proof.
  unfold with_score.
  induction l as [|y r IH]; [reflexivity|].
  cbn [insert_desc].
  destruct (snd y <=? snd x)%Z eqn:Hc; [reflexivity|].
  apply Z.leb_gt in Hc.
  cbn [filter] in *. rewrite IH.
  destruct (snd x =? s)%Z eqn:Hx; [|reflexivity].
  apply Z.eqb_eq in Hx.
  destruct (snd y =? s)%Z eqn:Hy; [apply Z.eqb_eq in Hy; lia | reflexivity].
Qed.

Lemma sort_desc_stable (s : Z) (l : list (string * Z)) :
  with_score s (sort_desc l) = with_score s l.
Proof.
  induction l as [|x r IH]; [reflexivity|].
  cbn [sort_desc]. rewrite insert_desc_stable.
  unfold with_score in *. cbn [filter]. now rewrite IH.
Qed.

(* ================================================================== *)
(** ** Hybrid reconciliation *)

Lemma addHigh_length_le (currentTags : list string)
    (scored : list (string * Z)) :
  (length currentTags <= 6)%nat ->
  (length (addHighScoringExistingTags currentTags scored) <= 6)%nat.
Proof.
  intros Hlen. unfold addHighScoringExistingTags, additionalTags, MAX_TOTAL_TAGS.
  rewrite length_app.
  match goal with |- (_ + length (slice0 ?l ?e) <= _)%nat =>
    pose proof (slice0_length l e ltac:(lia)) end.
  lia.
Qed.

(** C2, as stated, fails: the reconciler never shortens [currentTags], so
    seven current tags come back as seven. *)
Lemma addHighScoringExistingTags_counterexample :
  addHighScoringExistingTags Fixture.seven_tags [] = Fixture.seven_tags
  /\ ~ (length (addHighScoringExistingTags Fixture.seven_tags []) <= 6)%nat.
Proof. split; [reflexivity | vm_compute; lia]. Qed.

(** Past the cap the end of the slice is negative and counts from the end
    of the array: one of two missing tags is still appended. *)
Example addHighScoringExistingTags_negative_slice :
  addHighScoringExistingTags Fixture.seven_tags [("x", tenths 15); ("y", tenths 20)]
  = (Fixture.seven_tags ++ ["y"])%list.
Proof. reflexivity. Qed.

(** C2, amended: when [currentTags] holds at most 6 tags, the reconciler
    returns at most 6 tags; it keeps [currentTags] and appends the tags of
    the scored list with score at least 15 that are not in [currentTags],
    by falling score (equal scores in the order of the list), as many as
    fit under the total of 6. *)
Theorem addHighScoringExistingTags_cap
    (currentTags : list string) (scored : list (string * Z)) :
  (length currentTags <= 6)%nat ->
  (length (addHighScoringExistingTags currentTags scored) <= 6)%nat
  /\ exists missing : list (string * Z),
       let high :=
         filter (fun e => negb (includes currentTags (fst e)))
           (filter (fun e => (tenths 15 <=? snd e)%Z) scored) in
       Permutation missing high
       /\ StronglySorted score_ge missing
       /\ (forall s, with_score s missing = with_score s high)
       /\ addHighScoringExistingTags currentTags scored
          = (currentTags
             ++ map fst (firstn (6 - length currentTags) missing))%list.
Proof.
  intros Hlen.
  assert (Hadd : additionalTags currentTags scored
                 = map fst (firstn (6 - length currentTags)
                              (highScoringMissingWithScores currentTags scored))).
  { unfold additionalTags, MAX_TOTAL_TAGS.
    rewrite slice0_firstn by lia.
    replace (Z.to_nat (6 - Z.of_nat (length currentTags)))
      with (6 - length currentTags)%nat by lia.
    apply firstn_map. }
  split.
  - unfold addHighScoringExistingTags. rewrite Hadd, length_app, length_map.
    pose proof (firstn_le_length (6 - length currentTags)
                  (highScoringMissingWithScores currentTags scored)). lia.
  - exists (highScoringMissingWithScores currentTags scored). cbv zeta.
    unfold highScoringMissingWithScores at 1 2 3, HIGH_SCORE_THRESHOLD.
    repeat split.
    + apply sort_desc_perm.
    + apply sort_desc_sorted.
    + intros s. apply sort_desc_stable.
    + unfold addHighScoringExistingTags. now rewrite Hadd.
Qed.

Lemma addHighScoringExistingTags_cap_witness :
  (length (addHighScoringExistingTags ["api"; "react"]
             [("react", tenths 27); ("hooks", tenths 15);
              ("guide", tenths 8); ("docker", tenths 20)]) <= 6)%nat
  /\ addHighScoringExistingTags ["api"; "react"]
       [("react", tenths 27); ("hooks", tenths 15);
        ("guide", tenths 8); ("docker", tenths 20)]
     = ["api"; "react"; "docker"; "hooks"].
Proof.
  split; [|reflexivity].
  apply (addHighScoringExistingTags_cap ["api"; "react"]
           [("react", tenths 27); ("hooks", tenths 15);
            ("guide", tenths 8); ("docker", tenths 20)]).
  simpl. lia.
Defined.

(* ================================================================== *)
(** ** The score map *)

Lemma map_get_set (m : score_map) (k k' : string) (v : Z) :
  map_get (map_set m k v) k'
  = if String.eqb k' k then Some v else map_get m k'.
Proof.
  induction m as [|[k0 v0] r IH]; simpl.
  - reflexivity.
  - destruct (String.eqb k k0) eqn:Hk; simpl.
    + apply String.eqb_eq in Hk. subst k0.
      destruct (String.eqb k' k); reflexivity.
    + destruct (String.eqb k' k0) eqn:Hk'; [|exact IH].
      apply String.eqb_eq in Hk'. subst k0.
      now rewrite String.eqb_sym, Hk.
Qed.

Lemma map_get_None (m : score_map) (k : string) :
  map_get m k = None <-> ~ In k (map fst m).
Proof.
  induction m as [|[k0 v0] r IH]; simpl; [tauto|].
  destruct (String.eqb k k0) eqn:Hk.
  - apply String.eqb_eq in Hk. subst. split; [discriminate | tauto].
  - apply String.eqb_neq in Hk. rewrite IH. split; [|tauto].
    intros H [Heq|Hin]; [now subst | tauto].
Qed.

Lemma map_get_In (m : score_map) (k : string) (v : Z) :
  NoDup (map fst m) -> In (k, v) m -> map_get m k = Some v.
Proof.
  induction m as [|[k0 v0] r IH]; simpl; [tauto|].
  intros Hnd [Heq|Hin].
  - inversion Heq; subst. now rewrite String.eqb_refl.
  - inversion Hnd as [|? ? Hnot Hnd']; subst.
    destruct (String.eqb k k0) eqn:Hk; [|now apply IH].
    apply String.eqb_eq in Hk. subst. exfalso. apply Hnot.
    now apply (in_map fst) in Hin.
Qed.

Lemma map_set_keys (m : score_map) (k : string) (v : Z) :
  map fst (map_set m k v)
  = if map_has m k then map fst m else (map fst m ++ [k])%list.
Proof.
  unfold map_has.
  induction m as [|[k0 v0] r IH]; simpl; [reflexivity|].
  destruct (String.eqb k k0) eqn:Hk; simpl; [reflexivity|].
  rewrite IH. now destruct (map_get r k).
Qed.

Lemma map_set_NoDup (m : score_map) (k : string) (v : Z) :
  NoDup (map fst m) -> NoDup (map fst (map_set m k v)).
Proof.
  intros Hnd. rewrite map_set_keys. unfold map_has.
  destruct (map_get m k) eqn:Hg; [assumption|].
  apply map_get_None in Hg.
  apply NoDup_rev in Hnd. rewrite <- (rev_involutive (_ ++ _)).
  apply NoDup_rev. rewrite rev_app_distr. simpl.
  constructor; [|assumption]. now rewrite <- in_rev.
Qed.

(* ================================================================== *)
(** ** The scoring loops keep their invariant *)

Lemma total_score (log : list event) (tag : string) :
  match score_from_log log tag with Some s => s | None => 0%Z end
  = total (events_for tag log).
Proof.
  unfold score_from_log. now destruct (events_for tag log).
Qed.

Lemma score_from_log_cons (e : event) (older : list event) (tag : string) :
  score_from_log (e :: older) tag
  = if String.eqb (event_tag e) tag
    then Some (contribution e + total (events_for tag older))%Z
    else score_from_log older tag.
Proof.
  unfold score_from_log, events_for. cbn [filter].
  now destruct (String.eqb (event_tag e) tag).
Qed.

Lemma score_from_log_None (log : list event) (tag : string) :
  score_from_log log tag = None <-> events_for tag log = [].
Proof.
  unfold score_from_log. destruct (events_for tag log); split; congruence.
Qed.

Lemma classify_boost (E : collaborators) (keyword tag : string) :
  fst (classify E keyword tag) = boost_of (snd (classify E keyword tag)).
Proof.
  unfold classify.
  repeat match goal with |- context [if ?b then _ else _] => destruct b end;
    reflexivity.
Qed.

Lemma score_tag_invariant (E : collaborators) (keyword tag : string)
    (st : matcher) :
  scoring_invariant E st -> scoring_invariant E (score_tag E keyword st tag).
Proof.
  intros (Hnd & Hget & Hwf & Hfz). unfold score_tag.
  pose proof (classify_boost E keyword tag) as Hb.
  destruct (classify E keyword tag) as [scoreBoost mt]. simpl in Hb.
  destruct (0 <? scoreBoost)%Z eqn:Hpos; [|now repeat split].
  apply Z.ltb_lt in Hpos.
  rewrite Hget, total_score.
  repeat split; cbn [tagScores debug_log].
  - now apply map_set_NoDup.
  - intros t. rewrite map_get_set, score_from_log_cons. cbn [event_tag contribution].
    rewrite (String.eqb_sym t tag).
    destruct (String.eqb tag t) eqn:Ht.
    + apply String.eqb_eq in Ht. subst t. f_equal. lia.
    + apply Hget.
  - intros ->. simpl in Hb. lia.
  - now rewrite total_score.
  - lia.
  - exact Hwf.
  - constructor; [exact I | exact Hfz].
Qed.

Lemma fuzzy_tag_invariant (E : collaborators) (keyword tag : string)
    (st : matcher) :
  scoring_invariant E st -> scoring_invariant E (fuzzy_tag E keyword st tag).
Proof.
  intros (Hnd & Hget & Hwf & Hfz). unfold fuzzy_tag, map_has.
  destruct (map_get (tagScores st) tag) eqn:Hg; [now repeat split|].
  destruct (80 <=? fuzz_ratio E keyword tag)%Z eqn:Hsim; [|now repeat split].
  apply Z.leb_le in Hsim.
  rewrite Hget in Hg. apply score_from_log_None in Hg.
  repeat split; cbn [tagScores debug_log].
  - now apply map_set_NoDup.
  - intros t. rewrite map_get_set, score_from_log_cons. cbn [event_tag contribution].
    rewrite (String.eqb_sym t tag).
    destruct (String.eqb tag t) eqn:Ht.
    + apply String.eqb_eq in Ht. subst t. rewrite Hg. simpl. f_equal. lia.
    + apply Hget.
  - exact Hg.
  - exact Hsim.
  - exact Hwf.
  - constructor; [reflexivity | exact Hfz].
Qed.

Lemma fold_left_invariant {A : Type} (P : matcher -> Prop)
    (f : matcher -> A -> matcher) (l : list A) :
  (forall st a, P st -> P (f st a)) ->
  forall st, P st -> P (fold_left f l st).
Proof.
  intros Hf. induction l as [|a r IH]; simpl; intros st Hst; auto.
Qed.

Lemma score_keywords_invariant (E : collaborators)
    (keywords existingTags : list string) :
  scoring_invariant E (score_keywords E keywords existingTags).
Proof.
  unfold score_keywords. apply fold_left_invariant.
  - intros st keyword Hst. unfold score_keyword.
    apply fold_left_invariant; [intros; now apply fuzzy_tag_invariant|].
    apply fold_left_invariant; [intros; now apply score_tag_invariant|].
    exact Hst.
  - repeat split; simpl; constructor.
Qed.

(* ================================================================== *)
(** ** Reading the invariant off the log *)

Lemma well_formed_log_suffix (newer log : list event) :
  well_formed_log (newer ++ log) -> well_formed_log log.
Proof.
  induction newer as [|e r IH]; simpl; [tauto|]. intros [_ H]. now apply IH.
Qed.

Lemma fuzzy_from_ratio_suffix (E : collaborators) (newer log : list event) :
  fuzzy_from_ratio E (newer ++ log) -> fuzzy_from_ratio E log.
Proof.
  unfold fuzzy_from_ratio. rewrite Forall_app. tauto.
Qed.

Lemma fuzzy_events_nil (tag : string) (log : list event) :
  events_for tag log = [] -> fuzzy_events_for tag log = [].
Proof. unfold fuzzy_events_for. now intros ->. Qed.

Lemma fuzzy_once (log : list event) (tag : string) :
  well_formed_log log -> (length (fuzzy_events_for tag log) <= 1)%nat.
Proof.
  induction log as [|e older IH]; simpl; [lia|].
  intros [He Hwf]. specialize (IH Hwf).
  unfold fuzzy_events_for, events_for in *. cbn [filter].
  destruct (String.eqb (event_tag e) tag) eqn:Ht; [|exact IH].
  cbn [filter]. destruct e as [mt k t o n|k t sim sc]; cbn [is_fuzzy]; [exact IH|].
  cbn [event_tag] in Ht. apply String.eqb_eq in Ht. subst t.
  destruct He as (Hnone & _). unfold events_for in Hnone.
  rewrite Hnone. simpl. lia.
Qed.

Lemma NoDup_firstn {A : Type} (n : nat) (l : list A) :
  NoDup l -> NoDup (firstn n l).
Proof.
  revert l. induction n as [|n IH]; intros [|x r] H; simpl; try constructor.
  - inversion H; subst. intros Hin. now apply firstn_subset in Hin.
  - inversion H; subst. now apply IH.
Qed.

Lemma slice0_map {A B : Type} (f : A -> B) (l : list A) (e : Z) :
  map f (slice0 l e) = slice0 (map f l) e.
Proof. unfold slice0. now rewrite length_map, firstn_map. Qed.

Lemma findTags_NoDup (E : collaborators) (title description : string)
    (team : option string) :
  NoDup (map fst (findTagsByKeywordsWithScores E title description team)).
Proof.
  unfold findTagsByKeywordsWithScores. cbv zeta.
  rewrite slice0_map. unfold slice0. apply NoDup_firstn.
  destruct (score_keywords_invariant E
              (extractKeywords (title ++ " " ++ description))
              (fetch_existing_tags E team)) as (Hnd & _).
  eapply Permutation_NoDup; [|exact Hnd].
  apply Permutation_map. symmetry. apply sort_desc_perm.
Qed.

(** Two occurrences of a keyword add the boost twice. *)
Example scores_accumulate :
  tagScores
    (score_keywords (Fixture.make Rejected Rejected Fixture.no_store)
       ["react"; "react"; "reactive"] ["react"])
  = [("react", (tenths 15 + tenths 15 + tenths 5)%Z)].
Proof. reflexivity. Qed.

Lemma classify_as_specified (E : collaborators) (keyword tag : string) :
  fst (classify E keyword tag) = boost_as_specified E keyword tag.
Proof.
  unfold classify, boost_as_specified.
  repeat match goal with |- context [if ?b then _ else _] => destruct b end;
    reflexivity.
Qed.

Lemma boost_as_specified_nonneg (E : collaborators) (keyword tag : string) :
  (0 <= boost_as_specified E keyword tag)%Z.
Proof.
  unfold boost_as_specified, tenths.
  repeat match goal with |- context [if ?b then _ else _] => destruct b end;
    lia.
Qed.

Lemma score_tag_get (E : collaborators) (keyword tag t : string)
    (st : matcher) :
  map_get (tagScores (score_tag E keyword st tag)) t
  = if String.eqb t tag && (0 <? boost_as_specified E keyword tag)%Z then
      Some ((match map_get (tagScores st) tag with
             | Some s => s
             | None => 0
             end) + boost_as_specified E keyword tag)%Z
    else map_get (tagScores st) t.
Proof.
  unfold score_tag. rewrite <- classify_as_specified.
  destruct (classify E keyword tag) as [scoreBoost mt]. cbn [fst].
  destruct (0 <? scoreBoost)%Z; [|now rewrite andb_false_r].
  cbn [tagScores]. rewrite map_get_set, andb_true_r.
  now destruct (String.eqb t tag).
Qed.

Lemma fuzzy_tag_get (E : collaborators) (keyword tag t : string)
    (st : matcher) :
  map_get (tagScores (fuzzy_tag E keyword st tag)) t
  = match map_get (tagScores st) t with
    | Some s => Some s
    | None =>
        if String.eqb t tag && (80 <=? fuzz_ratio E keyword tag)%Z then
          Some (fuzz_ratio E keyword tag)
        else None
    end.
Proof.
  unfold fuzzy_tag, map_has.
  destruct (String.eqb t tag) eqn:Ht.
  - apply String.eqb_eq in Ht. subst t. cbn [andb].
    destruct (map_get (tagScores st) tag) eqn:Hg; [now rewrite Hg|].
    destruct (80 <=? fuzz_ratio E keyword tag)%Z; [|now rewrite Hg].
    cbn [tagScores]. now rewrite map_get_set, String.eqb_refl.
  - cbn [andb].
    destruct (map_get (tagScores st) tag) eqn:Hg;
      [now destruct (map_get (tagScores st) t)|].
    destruct (80 <=? fuzz_ratio E keyword tag)%Z;
      [|now destruct (map_get (tagScores st) t)].
    cbn [tagScores]. rewrite map_get_set, Ht.
    now destruct (map_get (tagScores st) t).
Qed.

Lemma occurrences_cons (tag t : string) (r : list string) :
  occurrences (tag :: r) t
  = ((if String.eqb t tag then 1 else 0) + occurrences r t)%nat.
Proof.
  unfold occurrences. cbn [filter]. now destruct (String.eqb t tag).
Qed.

(** The first inner loop, seen from one tag. *)
Lemma first_loop_get (E : collaborators) (keyword t : string)
    (tags : list string) (st : matcher) :
  map_get (tagScores (fold_left (score_tag E keyword) tags st)) t
  = if (0 <? Z.of_nat (occurrences tags t))%Z
       && (0 <? boost_as_specified E keyword t)%Z
    then Some ((match map_get (tagScores st) t with
                | Some s => s
                | None => 0
                end)
               + Z.of_nat (occurrences tags t)
                 * boost_as_specified E keyword t)%Z
    else map_get (tagScores st) t.
Proof.
  revert st. induction tags as [|tag r IH]; intros st; [reflexivity|].
  cbn [fold_left]. rewrite IH, score_tag_get, occurrences_cons.
  destruct (String.eqb t tag) eqn:Ht.
  - apply String.eqb_eq in Ht. subst tag. cbn [andb].
    set (b := boost_as_specified E keyword t).
    set (n := occurrences r t).
    destruct (0 <? b)%Z eqn:Hb.
    + replace (0 <? Z.of_nat (1 + n))%Z with true
        by (symmetry; apply Z.ltb_lt; lia).
      rewrite andb_true_r. cbn [andb].
      destruct (0 <? Z.of_nat n)%Z eqn:Hn.
      * f_equal. lia.
      * apply Z.ltb_ge in Hn. replace n with 0%nat by lia.
        f_equal. change (Z.of_nat (1 + 0)) with 1%Z. lia.
    + now rewrite !andb_false_r.
  - cbn [andb Nat.add]. reflexivity.
Qed.

(** The second inner loop, seen from one tag. *)
Lemma second_loop_get (E : collaborators) (keyword t : string)
    (tags : list string) (st : matcher) :
  map_get (tagScores (fold_left (fuzzy_tag E keyword) tags st)) t
  = match map_get (tagScores st) t with
    | Some s => Some s
    | None =>
        if (0 <? Z.of_nat (occurrences tags t))%Z
           && (80 <=? fuzz_ratio E keyword t)%Z
        then Some (fuzz_ratio E keyword t)
        else None
    end.
Proof.
  revert st. induction tags as [|tag r IH]; intros st.
  - cbn [fold_left]. now destruct (map_get (tagScores st) t).
  - cbn [fold_left]. rewrite IH, fuzzy_tag_get, occurrences_cons.
    destruct (map_get (tagScores st) t) as [s|]; [reflexivity|].
    destruct (String.eqb t tag) eqn:Ht.
    + apply String.eqb_eq in Ht. subst tag. cbn [andb].
      replace (0 <? Z.of_nat (1 + occurrences r t))%Z with true
        by (symmetry; apply Z.ltb_lt; lia).
      cbn [andb].
      destruct (80 <=? fuzz_ratio E keyword t)%Z; [reflexivity|].
      now rewrite andb_false_r.
    + cbn [andb Nat.add]. reflexivity.
Qed.

Lemma score_keyword_get (E : collaborators) (existingTags : list string)
    (keyword t : string) (st : matcher) :
  map_get (tagScores (score_keyword E existingTags st keyword)) t
  = score_after_keyword E existingTags t (map_get (tagScores st) t) keyword.
Proof.
  unfold score_keyword, score_after_keyword. cbv zeta.
  now rewrite second_loop_get, first_loop_get.
Qed.

(** The score map agrees, tag by tag, with the score as specified. *)
Lemma score_keywords_as_specified (E : collaborators)
    (keywords existingTags : list string) (t : string) :
  map_get (tagScores (score_keywords E keywords existingTags)) t
  = score_as_specified E keywords existingTags t.
Proof.
  unfold score_keywords, score_as_specified.
  change (@None Z) with (map_get (tagScores new_matcher) t).
  generalize new_matcher.
  induction keywords as [|k r IH]; intros st; [reflexivity|].
  cbn [fold_left]. now rewrite IH, score_keyword_get.
Qed.

(** C7: in every run of the scoring loops a tag gets a fuzzy score at most
    once, and only while no record of any kind has scored it; the fuzzy
    score is the similarity, at least 80, divided by 10; a match of the
    first four kinds adds its boost to the score accumulated so far, so
    that the score of a tag is the sum of what its records add. The score
    the map holds for a tag is the one obtained keyword after keyword by
    adding the boost of each matching keyword (15, 12, 8 or 5) to the score
    so far, and by giving a corpus tag without score the fuzzy score of
    the first keyword that is similar enough. A tag has one entry in the
    score map and in the answer. *)
Theorem lexical_scorer_fuzzy_at_most_once
    (E : collaborators) (keywords existingTags : list string) :
  let st := score_keywords E keywords existingTags in
  (forall tag, (length (fuzzy_events_for tag (debug_log st)) <= 1)%nat)
  /\ (forall newer keyword tag similarity score older,
        debug_log st
        = (newer ++ FuzzyMatch keyword tag similarity score :: older)%list ->
        events_for tag older = []
        /\ similarity = fuzz_ratio E keyword tag
        /\ (80 <= similarity)%Z
        /\ score = similarity)
  /\ (forall newer mt keyword tag oldScore newScore older,
        debug_log st
        = (newer ++ TagMatch mt keyword tag oldScore newScore :: older)%list ->
        mt <> unmatched
        /\ oldScore = total (events_for tag older)
        /\ newScore = (oldScore + boost_of mt)%Z)
  /\ (forall tag,
        map_get (tagScores st) tag = score_from_log (debug_log st) tag)
  /\ (forall tag,
        map_get (tagScores st) tag
        = score_as_specified E keywords existingTags tag)
  /\ NoDup (map fst (tagScores st))
  /\ (forall title description team,
        NoDup (map fst
                 (findTagsByKeywordsWithScores E title description team))).
Proof.
  intros st.
  destruct (score_keywords_invariant E keywords existingTags)
    as (Hnd & Hget & Hwf & Hfz).
  fold st in Hnd, Hget, Hwf, Hfz.
  repeat apply conj.
  - intros tag. now apply fuzzy_once.
  - intros newer keyword tag similarity score older Hlog.
    rewrite Hlog in Hwf, Hfz.
    apply well_formed_log_suffix in Hwf. apply fuzzy_from_ratio_suffix in Hfz.
    destruct Hwf as [(Hnone & Hsim & Hsc) _].
    inversion Hfz; subst. tauto.
  - intros newer mt keyword tag oldScore newScore older Hlog.
    rewrite Hlog in Hwf. apply well_formed_log_suffix in Hwf.
    destruct Hwf as [(Hmt & Hold & Hnew) _].
    rewrite total_score in Hold. tauto.
  - exact Hget.
  - intros tag. apply score_keywords_as_specified.
  - exact Hnd.
  - intros. apply findTags_NoDup.
Qed.

Lemma lexical_scorer_fuzzy_at_most_once_witness :
  debug_log
    (score_keywords (Fixture.make Rejected Rejected Fixture.no_store)
       ["react"; "kubernetes"] ["react"; "kubernates"])
  = [FuzzyMatch "kubernetes" "kubernates" 90 90;
     TagMatch perfect "react" "react" 0 (tenths 15)]
  /\ events_for "kubernates" [TagMatch perfect "react" "react" 0 (tenths 15)]
     = []
  /\ 90%Z = Fixture.ratio "kubernetes" "kubernates"
  /\ (80 <= 90)%Z
  /\ 90%Z = 90%Z.
Proof.
  split; [reflexivity|].
  destruct (lexical_scorer_fuzzy_at_most_once
              (Fixture.make Rejected Rejected Fixture.no_store)
              ["react"; "kubernetes"] ["react"; "kubernates"])
    as (_ & Hfuzzy & _).
  apply (Hfuzzy [] "kubernetes" "kubernates" 90%Z 90%Z
           [TagMatch perfect "react" "react" 0 (tenths 15)]).
  reflexivity.
Defined.

(* ================================================================== *)
(** ** Perfect matches *)

Lemma perfect_count_cons (e : event) (log : list event) (tag : string) :
  perfect_count (e :: log) tag
  = ((if String.eqb (event_tag e) tag && is_perfect e then 1 else 0)
     + perfect_count log tag)%nat.
Proof.
  unfold perfect_count, perfect_events_for, events_for. cbn [filter].
  destruct (String.eqb (event_tag e) tag); [|reflexivity].
  cbn [filter andb]. now destruct (is_perfect e).
Qed.

Lemma classify_perfect (E : collaborators) (keyword tag : string) :
  classify E keyword tag
  = (if String.eqb keyword tag then (tenths 15, perfect)
     else classify E keyword tag)
  /\ (String.eqb keyword tag = false ->
      snd (classify E keyword tag) <> perfect).
Proof.
  unfold classify. destruct (String.eqb keyword tag); split; try reflexivity;
    try discriminate.
  intros _.
  repeat match goal with |- context [if ?b then _ else _] => destruct b end;
    discriminate.
Qed.

Lemma score_tag_perfect (E : collaborators) (keyword tag t : string)
    (st : matcher) :
  perfect_count (debug_log (score_tag E keyword st tag)) t
  = (perfect_count (debug_log st) t
     + (if String.eqb keyword tag && String.eqb tag t then 1 else 0))%nat.
Proof.
  unfold score_tag.
  destruct (classify_perfect E keyword tag) as [Hyes Hno].
  destruct (String.eqb keyword tag) eqn:Hk.
  - rewrite Hyes. cbn [Z.ltb tenths Z.mul Z.compare Pos.mul debug_log].
    rewrite perfect_count_cons. cbn [event_tag is_perfect].
    rewrite andb_true_r. cbn [andb]. lia.
  - specialize (Hno eq_refl).
    destruct (classify E keyword tag) as [scoreBoost mt]. cbn [snd] in Hno.
    destruct (0 <? scoreBoost)%Z; cbn [andb]; [|lia].
    cbn [debug_log]. rewrite perfect_count_cons. cbn [event_tag is_perfect].
    destruct mt; try congruence; rewrite andb_false_r; lia.
Qed.

Lemma fuzzy_tag_perfect (E : collaborators) (keyword tag t : string)
    (st : matcher) :
  perfect_count (debug_log (fuzzy_tag E keyword st tag)) t
  = perfect_count (debug_log st) t.
Proof.
  unfold fuzzy_tag.
  destruct (map_has (tagScores st) tag); [reflexivity|].
  destruct (80 <=? fuzz_ratio E keyword tag)%Z; [|reflexivity].
  cbn [debug_log]. rewrite perfect_count_cons. cbn [is_perfect].
  now rewrite andb_false_r.
Qed.

Lemma score_keyword_perfect (E : collaborators) (keyword t : string)
    (existingTags : list string) (st : matcher) :
  perfect_count (debug_log (score_keyword E existingTags st keyword)) t
  = (perfect_count (debug_log st) t
     + (if String.eqb keyword t then occurrences existingTags t else 0))%nat.
Proof.
  unfold score_keyword.
  assert (Hfz : forall tags st',
             perfect_count
               (debug_log (fold_left (fuzzy_tag E keyword) tags st')) t
             = perfect_count (debug_log st') t).
  { induction tags as [|tag r IH]; intros st'; simpl; [reflexivity|].
    now rewrite IH, fuzzy_tag_perfect. }
  rewrite Hfz. clear Hfz. revert st.
  induction existingTags as [|tag r IH]; intros st; simpl.
  - destruct (String.eqb keyword t); cbn; lia.
  - rewrite IH, score_tag_perfect. unfold occurrences. cbn [filter].
    rewrite (String.eqb_sym t tag).
    destruct (String.eqb keyword t) eqn:Hkt.
    + apply String.eqb_eq in Hkt. subst t.
      rewrite (String.eqb_sym tag keyword).
      destruct (String.eqb keyword tag); cbn [andb length]; lia.
    + destruct (String.eqb keyword tag) eqn:Hk; cbn [andb]; [|lia].
      apply String.eqb_eq in Hk. subst tag. rewrite Hkt. lia.
Qed.

Lemma score_keywords_perfect (E : collaborators)
    (keywords existingTags : list string) (t : string) :
  perfect_count (debug_log (score_keywords E keywords existingTags)) t
  = (occurrences keywords t * occurrences existingTags t)%nat.
Proof.
  unfold score_keywords.
  assert (H : forall st,
             perfect_count
               (debug_log (fold_left (score_keyword E existingTags) keywords st))
               t
             = (perfect_count (debug_log st) t
                + occurrences keywords t * occurrences existingTags t)%nat).
  { induction keywords as [|k r IH]; intros st; simpl.
    - unfold occurrences. simpl. lia.
    - rewrite IH, score_keyword_perfect. unfold occurrences. cbn [filter].
      rewrite (String.eqb_sym t k).
      destruct (String.eqb k t); cbn [length]; lia. }
  rewrite H. reflexivity.
Qed.

Lemma occurrences_NoDup (l : list string) (x : string) :
  NoDup l -> In x l -> occurrences l x = 1%nat.
Proof.
  unfold occurrences. induction 1 as [|y r Hy Hnd IH]; simpl; [tauto|].
  intros [->|Hin].
  - rewrite String.eqb_refl. simpl. f_equal.
    clear IH Hnd. induction r as [|z r IH]; [reflexivity|]. simpl.
    destruct (String.eqb x z) eqn:Hz.
    + apply String.eqb_eq in Hz. subst. exfalso. apply Hy. now left.
    + apply IH. intros H. apply Hy. now right.
  - destruct (String.eqb x y) eqn:Hxy; [|now apply IH].
    apply String.eqb_eq in Hxy. now subst.
Qed.

Lemma boost_nonneg (mt : matchType) : (0 <= boost_of mt)%Z.
Proof. destruct mt; unfold boost_of, tenths; lia. Qed.

Lemma perfect_score_bound (log : list event) (tag : string) :
  well_formed_log log ->
  (tenths 15 * Z.of_nat (perfect_count log tag)
   <= total (events_for tag log))%Z.
Proof.
  induction log as [|e older IH]; [simpl; unfold perfect_count; simpl; lia|].
  intros [He Hwf]. specialize (IH Hwf).
  rewrite perfect_count_cons. unfold events_for in *. cbn [filter].
  destruct (String.eqb (event_tag e) tag); cbn [andb]; [|exact IH].
  cbn [total fold_right]. fold (total (filter (fun e0 => String.eqb (event_tag e0) tag) older)).
  destruct e as [mt k t o n|k t sim sc]; cbn [is_perfect contribution].
  - pose proof (boost_nonneg mt).
    destruct mt; cbn [boost_of] in *; unfold tenths in *; lia.
  - destruct He as (_ & Hsim & ->). unfold tenths in *. lia.
Qed.

(* ================================================================== *)
(** ** Fuzzy-only tags and the ranking *)

Lemma fuzzy_only_score (E : collaborators) (log : list event) (tag : string) :
  (forall a b, (fuzz_ratio E a b <= 100)%Z) ->
  well_formed_log log -> fuzzy_from_ratio E log ->
  fuzzy_only log tag = true ->
  exists s, score_from_log log tag = Some s /\ (80 <= s <= tenths 10)%Z.
Proof.
  intros Hratio. unfold fuzzy_only, score_from_log, events_for.
  induction log as [|e older IH]; cbn [filter]; [discriminate|].
  intros [He Hwf] Hfz Hfo. inversion Hfz as [|? ? Hfe Hfz']; subst.
  destruct (String.eqb (event_tag e) tag) eqn:Ht; [|now apply IH].
  cbn [forallb] in Hfo. apply andb_prop in Hfo as [Hf _].
  destruct e as [mt k t o n|k t sim sc]; [discriminate|].
  cbn [event_tag] in Ht. apply String.eqb_eq in Ht. subst t.
  destruct He as (Hnone & Hsim & ->). unfold events_for in Hnone.
  rewrite Hnone. cbn. exists (sim + 0)%Z. split; [reflexivity|].
  specialize (Hratio k tag). unfold tenths. lia.
Qed.

Lemma sorted_before (l : list (string * Z)) :
  StronglySorted score_ge l ->
  forall i j a b, (i < j)%nat ->
    nth_error l i = Some a -> nth_error l j = Some b -> score_ge a b.
Proof.
  induction 1 as [|x r Hr IH Hx]; intros i j a b Hij Ha Hb.
  - destruct i; discriminate.
  - destruct j as [|j]; [lia|]. cbn [nth_error] in Hb.
    destruct i as [|i]; cbn [nth_error] in Ha.
    + inversion Ha; subst. rewrite Forall_forall in Hx. apply Hx.
      eapply nth_error_In. exact Hb.
    + apply (IH i j); [lia | assumption | assumption].
Qed.

Lemma higher_score_first (l : list (string * Z)) (i j : nat)
    (a b : string * Z) :
  StronglySorted score_ge l ->
  nth_error l i = Some a -> nth_error l j = Some b ->
  (snd b < snd a)%Z -> (i < j)%nat.
Proof.
  intros Hs Ha Hb Hlt.
  destruct (Nat.lt_trichotomy i j) as [H|[H|H]]; [assumption| |].
  - subst. rewrite Ha in Hb. inversion Hb; subst. lia.
  - pose proof (sorted_before l Hs j i b a H Hb Ha) as Hge.
    unfold score_ge in Hge. lia.
Qed.

Lemma map_get_Some_In (m : score_map) (k : string) (v : Z) :
  map_get m k = Some v -> In (k, v) m.
Proof.
  induction m as [|[k0 v0] r IH]; simpl; [discriminate|].
  destruct (String.eqb k k0) eqn:Hk.
  - apply String.eqb_eq in Hk. intros [= ->]. subst. now left.
  - intros H. right. now apply IH.
Qed.

Lemma perfect_count_events (log : list event) (tag : string) :
  (0 < perfect_count log tag)%nat -> events_for tag log <> [].
Proof.
  unfold perfect_count, perfect_events_for. intros H Hnil.
  rewrite Hnil in H. simpl in H. lia.
Qed.

(** A tag with a perfect match stands in the answer before every tag that
    only a fuzzy match has scored. *)
Lemma perfect_before_fuzzy (E : collaborators) (st : matcher)
    (p f : string) (j : nat) (sf : Z) :
  (forall a b, (fuzz_ratio E a b <= 100)%Z) ->
  scoring_invariant E st ->
  (0 < perfect_count (debug_log st) p)%nat ->
  fuzzy_only (debug_log st) f = true ->
  nth_error (slice0 (sort_desc (tagScores st)) 6) j = Some (f, sf) ->
  exists i sp, (i < j)%nat
    /\ nth_error (slice0 (sort_desc (tagScores st)) 6) i = Some (p, sp)
    /\ (sf <= tenths 10)%Z /\ (tenths 15 <= sp)%Z.
Proof.
  intros Hratio (Hnd & Hget & Hwf & Hfz) Hp Hf Hj.
  rewrite slice0_firstn in * by lia.
  change (Z.to_nat 6) with 6%nat in *.
  rewrite nth_error_firstn in Hj.
  destruct (j <? 6)%nat eqn:Hj6; [|discriminate].
  apply Nat.ltb_lt in Hj6.
  pose proof (sort_desc_perm (tagScores st)) as Hperm.
  (* the score of the fuzzy-only tag *)
  assert (Hsf : (sf <= tenths 10)%Z).
  { destruct (fuzzy_only_score E _ f Hratio Hwf Hfz Hf) as (s & Hs & Hb).
    apply nth_error_In in Hj. apply (Permutation_in _ Hperm) in Hj.
    apply (map_get_In _ _ _ Hnd) in Hj. rewrite Hget, Hs in Hj.
    inversion Hj; subst. lia. }
  (* the score of the perfectly matched tag *)
  pose proof (perfect_score_bound (debug_log st) p Hwf) as Hsp.
  pose proof (perfect_count_events _ _ Hp) as Hev.
  assert (Hgp : map_get (tagScores st) p
                = Some (total (events_for p (debug_log st)))).
  { rewrite Hget. unfold score_from_log.
    destruct (events_for p (debug_log st)); congruence. }
  apply map_get_Some_In in Hgp.
  apply (Permutation_in _ (Permutation_sym Hperm)) in Hgp.
  destruct (In_nth_error _ _ Hgp) as [i Hi].
  assert (Hlt : (i < j)%nat).
  { apply (higher_score_first _ i j _ _ (sort_desc_sorted _) Hi Hj).
    cbn [snd]. unfold tenths in *. lia. }
  exists i, (total (events_for p (debug_log st))).
  repeat split; try assumption.
  - rewrite nth_error_firstn.
    replace (i <? 6)%nat with true by (symmetry; apply Nat.ltb_lt; lia).
    exact Hi.
  - unfold tenths in *. lia.
Qed.

Lemma map_has_includes (m : score_map) (k : string) :
  map_has m k = includes (map fst m) k.
Proof.
  unfold map_has, includes.
  induction m as [|[k0 v0] r IH]; simpl; [reflexivity|].
  destruct (String.eqb k k0); [reflexivity | exact IH].
Qed.

(** The score map holds its tags in the order of their first record. *)
Lemma score_keywords_order (E : collaborators)
    (keywords existingTags : list string) :
  map fst (tagScores (score_keywords E keywords existingTags))
  = encounter_order (debug_log (score_keywords E keywords existingTags)).
Proof.
  unfold score_keywords.
  apply (fold_left_invariant
           (fun st => map fst (tagScores st) = encounter_order (debug_log st)));
    [|reflexivity].
  intros st keyword Hst. unfold score_keyword.
  apply fold_left_invariant.
  - clear st Hst. intros st tag Hst. unfold fuzzy_tag.
    destruct (map_has (tagScores st) tag) eqn:Hhas; [exact Hst|].
    destruct (80 <=? fuzz_ratio E keyword tag)%Z; [|exact Hst].
    cbn [tagScores debug_log encounter_order event_tag].
    now rewrite map_set_keys, Hhas, <- Hst, <- map_has_includes, Hhas.
  - apply fold_left_invariant; [|exact Hst].
    clear st Hst. intros st tag Hst. unfold score_tag.
    destruct (classify E keyword tag) as [scoreBoost mt].
    destruct (0 <? scoreBoost)%Z; [|exact Hst].
    cbn [tagScores debug_log encounter_order event_tag].
    rewrite map_set_keys, <- Hst, <- map_has_includes.
    now destruct (map_has (tagScores st) tag).
Qed.

Lemma score_keywords_perfect_equal (E : collaborators)
    (keywords existingTags : list string) :
  Forall perfect_is_equal
    (debug_log (score_keywords E keywords existingTags)).
Proof.
  unfold score_keywords.
  apply (fold_left_invariant
           (fun st => Forall perfect_is_equal (debug_log st)));
    [|constructor].
  intros st keyword Hst. unfold score_keyword.
  apply fold_left_invariant.
  - clear st Hst. intros st tag Hst. unfold fuzzy_tag.
    destruct (map_has (tagScores st) tag); [exact Hst|].
    destruct (80 <=? fuzz_ratio E keyword tag)%Z; [|exact Hst].
    constructor; [exact I | exact Hst].
  - apply fold_left_invariant; [|exact Hst].
    clear st Hst. intros st tag Hst. unfold score_tag.
    destruct (classify_perfect E keyword tag) as [_ Hno].
    destruct (String.eqb keyword tag) eqn:Hk.
    + apply String.eqb_eq in Hk.
      destruct (classify E keyword tag) as [scoreBoost mt].
      destruct (0 <? scoreBoost)%Z; [|exact Hst].
      constructor; [|exact Hst]. destruct mt; try exact I. exact Hk.
    + specialize (Hno eq_refl).
      destruct (classify E keyword tag) as [scoreBoost mt]. cbn [snd] in Hno.
      destruct (0 <? scoreBoost)%Z; [|exact Hst].
      constructor; [|exact Hst]. destruct mt; try exact I. congruence.
Qed.

Lemma well_formed_In (log : list event) (e : event) :
  well_formed_log log -> In e log ->
  match e with
  | TagMatch mt _ _ oldScore newScore =>
      mt <> unmatched /\ newScore = (oldScore + boost_of mt)%Z
  | FuzzyMatch _ _ similarity score =>
      (80 <= similarity)%Z /\ score = similarity
  end.
Proof.
  induction log as [|e0 older IH]; simpl; [tauto|].
  intros [He Hwf] [->|Hin]; [|now apply IH].
  destruct e as [mt k t o n|k t sim sc]; tauto.
Qed.

Lemma fixture_ratio_bound (a b : string) : (Fixture.ratio a b <= 100)%Z.
Proof.
  unfold Fixture.ratio.
  destruct (String.eqb a b); [lia|].
  destruct (String.eqb a "kubernetes" && String.eqb b "kubernates"); lia.
Qed.

(** Scenario A on the worked collaborators. *)
Example findTags_scenario_A :
  findTagsByKeywordsWithScores
    (Fixture.make Rejected Rejected (fun _ => Some ["react"; "hooks"]))
    "React Hooks Tutorial" "" (Some "T1")
  = [("react", tenths 15); ("hooks", tenths 15)].
Proof. reflexivity. Qed.

(** C8: the records of perfect matches of a tag number the keyword
    occurrences equal to it, once per occurrence of the tag in the corpus,
    hence once per keyword occurrence for a corpus without repetition; each
    adds 15 to the score of the tag, which is the sum of what its records
    add. The score map holds the tags in the order of their first record,
    and the answer is its first 6 entries once sorted by falling score,
    equal scores staying in the order of the map. With similarities of at
    most 100, a tag with a perfect match stands in the answer before every
    tag that only a fuzzy match has scored. *)
Theorem lexical_scorer_perfect_match
    (E : collaborators) (title description : string) (team : option string) :
  (forall a b, (fuzz_ratio E a b <= 100)%Z) ->
  let keywords := extractKeywords (title ++ " " ++ description) in
  let existingTags := fetch_existing_tags E team in
  let st := scoring_run E title description team in
  let answer := findTagsByKeywordsWithScores E title description team in
  (forall tag,
     perfect_count (debug_log st) tag
     = (occurrences keywords tag * occurrences existingTags tag)%nat
     /\ (NoDup existingTags -> In tag existingTags ->
         perfect_count (debug_log st) tag = occurrences keywords tag)
     /\ Forall (fun e => exists oldScore,
                   e = TagMatch perfect tag tag oldScore
                         (oldScore + tenths 15))
          (perfect_events_for tag (debug_log st))
     /\ map_get (tagScores st) tag = score_from_log (debug_log st) tag
     /\ (forall s, map_get (tagScores st) tag = Some s ->
         (tenths 15 * Z.of_nat (perfect_count (debug_log st) tag) <= s)%Z))
  /\ map fst (tagScores st) = encounter_order (debug_log st)
  /\ (exists sorted,
        Permutation sorted (tagScores st)
        /\ StronglySorted score_ge sorted
        /\ (forall s, with_score s sorted = with_score s (tagScores st))
        /\ answer = firstn 6 sorted)
  /\ (forall p f j sf,
        (0 < perfect_count (debug_log st) p)%nat ->
        fuzzy_only (debug_log st) f = true ->
        nth_error answer j = Some (f, sf) ->
        exists i sp, (i < j)%nat /\ nth_error answer i = Some (p, sp)
                     /\ (sf < sp)%Z).
Proof.
  intros Hratio keywords existingTags st answer. subst st.
  change (scoring_run E title description team)
    with (score_keywords E keywords existingTags).
  set (st := score_keywords E keywords existingTags).
  pose proof (score_keywords_invariant E keywords existingTags) as Hinv.
  fold st in Hinv.
  pose proof Hinv as (Hnd & Hget & Hwf & Hfz).
  repeat apply conj.
  - intros tag.
    pose proof (score_keywords_perfect E keywords existingTags tag) as Hc.
    fold st in Hc.
    repeat apply conj.
    + exact Hc.
    + intros Hn Hin. rewrite Hc, (occurrences_NoDup _ _ Hn Hin). lia.
    + unfold perfect_events_for, events_for. apply Forall_forall.
      intros e He.
      apply filter_In in He as [He Hperf]. apply filter_In in He as [Hin Htag].
      pose proof (well_formed_In _ _ Hwf Hin) as Hrec.
      pose proof (score_keywords_perfect_equal E keywords existingTags)
        as Heq.
      fold st in Heq. rewrite Forall_forall in Heq. specialize (Heq e Hin).
      destruct e as [[] k t o n|]; try discriminate.
      cbn [event_tag perfect_is_equal boost_of] in *.
      apply String.eqb_eq in Htag. subst. destruct Hrec as [_ ->].
      now exists o.
    + apply Hget.
    + intros s Hs. rewrite Hget in Hs.
      pose proof (perfect_score_bound (debug_log st) tag Hwf) as Hb.
      unfold score_from_log in Hs.
      destruct (events_for tag (debug_log st)) eqn:Hev; [discriminate|].
      inversion Hs; subst. exact Hb.
  - apply score_keywords_order.
  - exists (sort_desc (tagScores st)). repeat apply conj.
    + apply sort_desc_perm.
    + apply sort_desc_sorted.
    + intros s. apply sort_desc_stable.
    + unfold answer, findTagsByKeywordsWithScores. cbv zeta.
      change (scoring_run E title description team) with st.
      now rewrite slice0_firstn by lia.
  - intros p f j sf Hp Hf Hj.
    unfold answer, findTagsByKeywordsWithScores in *. cbv zeta in *.
    change (scoring_run E title description team) with st in *.
    destruct (perfect_before_fuzzy E st p f j sf Hratio Hinv Hp Hf Hj)
      as (i & sp & Hij & Hi & Hsf & Hsp).
    exists i, sp. repeat split; try assumption. unfold tenths in *. lia.
Qed.

Lemma lexical_scorer_perfect_match_witness :
  (forall a b, (Fixture.ratio a b <= 100)%Z)
  /\ perfect_count
       (debug_log
          (scoring_run
             (Fixture.make Rejected Rejected
                (fun _ => Some ["react"; "hooks"]))
             "React Hooks Tutorial" "" (Some "T1")))
       "react" = 1%nat.
Proof.
  split; [exact fixture_ratio_bound|].
  destruct (lexical_scorer_perfect_match
              (Fixture.make Rejected Rejected
                 (fun _ => Some ["react"; "hooks"]))
              "React Hooks Tutorial" "" (Some "T1") fixture_ratio_bound)
    as [Hcount _].
  destruct (Hcount "react") as [H _].
  rewrite H. reflexivity.
Defined.

(* ================================================================== *)
(** ** Fuzzy-only tags and the reconciler *)

Lemma additionalTags_high (currentTags : list string)
    (scored : list (string * Z)) (tag : string) :
  In tag (additionalTags currentTags scored) ->
  exists s, In (tag, s) scored /\ (HIGH_SCORE_THRESHOLD <= s)%Z
            /\ ~ In tag currentTags.
Proof.
  unfold additionalTags. intros H. apply slice0_incl in H.
  apply in_map_iff in H as ([t s] & Ht & Hin). cbn [fst] in Ht. subst t.
  unfold highScoringMissingWithScores in Hin.
  apply (Permutation_in _ (sort_desc_perm _)) in Hin.
  apply filter_In in Hin as [Hin Hnot].
  apply filter_In in Hin as [Hin Hhigh].
  cbn [fst snd] in *. exists s. repeat split.
  - exact Hin.
  - now apply Z.leb_le.
  - intros Hc. apply includes_In in Hc. rewrite Hc in Hnot. discriminate.
Qed.

(** C10: with similarities of at most 100, a tag that only a fuzzy match
    has scored has a score of at most 10, below the threshold of 15 of the
    reconciler, and the reconciler never appends it: it is in the
    reconciled list only if it was among the current tags. *)
Theorem fuzzy_only_never_forced
    (E : collaborators) (title description : string) (team : option string)
    (tag : string) :
  (forall a b, (fuzz_ratio E a b <= 100)%Z) ->
  let st := scoring_run E title description team in
  let scored := findTagsByKeywordsWithScores E title description team in
  fuzzy_only (debug_log st) tag = true ->
  (exists s, map_get (tagScores st) tag = Some s
             /\ (s <= tenths 10)%Z /\ (s < HIGH_SCORE_THRESHOLD)%Z)
  /\ (forall currentTags, ~ In tag (additionalTags currentTags scored))
  /\ (forall currentTags,
        In tag (addHighScoringExistingTags currentTags scored) ->
        In tag currentTags).
Proof.
  intros Hratio st scored Hf.
  destruct (score_keywords_invariant E
              (extractKeywords (title ++ " " ++ description))
              (fetch_existing_tags E team)) as (Hnd & Hget & Hwf & Hfz).
  change (score_keywords E (extractKeywords (title ++ " " ++ description))
            (fetch_existing_tags E team)) with st in Hnd, Hget, Hwf, Hfz.
  destruct (fuzzy_only_score E _ tag Hratio Hwf Hfz Hf) as (s & Hs & Hb).
  assert (Hnot : forall currentTags,
             ~ In tag (additionalTags currentTags scored)).
  { intros currentTags Hin.
    apply additionalTags_high in Hin as (s' & Hin & Hhigh & _).
    unfold scored, findTagsByKeywordsWithScores in Hin. cbv zeta in Hin.
    apply slice0_incl in Hin.
    apply (Permutation_in _ (sort_desc_perm _)) in Hin.
    apply (map_get_In _ _ _ Hnd) in Hin. rewrite Hget, Hs in Hin.
    inversion Hin; subst.
    unfold HIGH_SCORE_THRESHOLD, tenths in *. lia. }
  repeat apply conj.
  - exists s. rewrite Hget.
    unfold HIGH_SCORE_THRESHOLD, tenths in *. repeat split; [assumption|lia|lia].
  - exact Hnot.
  - intros currentTags Hin. unfold addHighScoringExistingTags in Hin.
    apply in_app_or in Hin as [Hin|Hin]; [assumption|].
    now apply Hnot in Hin.
Qed.

Lemma fuzzy_only_never_forced_witness :
  findTagsByKeywordsWithScores
    (Fixture.make Rejected Rejected (fun _ => Some ["react"; "kubernates"]))
    "React on Kubernetes" "" (Some "T1")
  = [("react", tenths 15); ("kubernates", 90%Z)]
  /\ forall currentTags,
       ~ In "kubernates"
           (additionalTags currentTags
              (findTagsByKeywordsWithScores
                 (Fixture.make Rejected Rejected
                    (fun _ => Some ["react"; "kubernates"]))
                 "React on Kubernetes" "" (Some "T1"))).
Proof.
  split; [reflexivity|].
  apply (fuzzy_only_never_forced
           (Fixture.make Rejected Rejected
              (fun _ => Some ["react"; "kubernates"]))
           "React on Kubernetes" "" (Some "T1") "kubernates"
           fixture_ratio_bound).
  reflexivity.
Defined.

(* ================================================================== *)
(** ** The corpus fetch *)

Lemma score_keywords_no_corpus (E : collaborators) (keywords : list string) :
  score_keywords E keywords [] = new_matcher.
Proof.
  unfold score_keywords. generalize new_matcher.
  induction keywords as [|k r IH]; intros st; simpl; [reflexivity | apply IH].
Qed.

(** C9: when [teamId] is absent (or empty), or the repository call throws,
    the scorer works on an empty corpus and returns the empty list; its
    result is a plain list, there is no exception to propagate. *)
Theorem scorer_swallows_store_failure
    (E : collaborators) (title description : string) (team : option string) :
  (team = None \/ team = Some ""
   \/ exists t, team = Some t /\ getExistingTags E t = None) ->
  fetch_existing_tags E team = []
  /\ findTagsByKeywordsWithScores E title description team = [].
Proof.
  intros H.
  assert (Hfetch : fetch_existing_tags E team = []).
  { destruct H as [->|[->|(t & -> & Ht)]]; try reflexivity.
    unfold fetch_existing_tags. rewrite Ht. now destruct (String.eqb t ""). }
  split; [exact Hfetch|].
  unfold findTagsByKeywordsWithScores, scoring_run. cbv zeta.
  rewrite Hfetch, score_keywords_no_corpus. reflexivity.
Qed.

Lemma scorer_swallows_store_failure_witness :
  findTagsByKeywordsWithScores
    (Fixture.make Rejected Rejected Fixture.no_store)
    "React Hooks Tutorial" "" (Some "T1") = [].
Proof.
  apply (scorer_swallows_store_failure
           (Fixture.make Rejected Rejected Fixture.no_store)
           "React Hooks Tutorial" "" (Some "T1")).
  right. right. exists "T1". split; reflexivity.
Defined.

(* ================================================================== *)
(** ** The specificity filter *)

Lemma no_candidates_all_protected (tags existingMatches : list string) :
  candidateTags tags existingMatches = [] ->
  protectedTags tags existingMatches = tags.
Proof.
  unfold candidateTags, protectedTags.
  induction tags as [|t r IH]; simpl; [reflexivity|].
  destruct (includes existingMatches t); simpl; [|discriminate].
  intros H. now rewrite IH.
Qed.

Lemma length_zero_nil {A : Type} (l : list A) :
  (length l =? 0)%nat = true <-> l = [].
Proof. destruct l; simpl; split; congruence. Qed.

Lemma filter_no_candidates (E : collaborators) (tags : list string)
    (opts : options) (existingMatches : list string) :
  candidateTags tags existingMatches = [] ->
  filterTagsBySpecificity E tags opts existingMatches = tags.
Proof.
  intros H. unfold filterTagsBySpecificity. rewrite H. simpl.
  now destruct (length tags =? 0)%nat.
Qed.

Lemma filter_unfold (E : collaborators) (tags : list string)
    (opts : options) (existingMatches : list string) :
  tags <> [] -> candidateTags tags existingMatches <> [] ->
  filterTagsBySpecificity E tags opts existingMatches
  = match
      client_send E (filter_request (candidateTags tags existingMatches) opts)
    with
    | Content (Some generatedText) =>
        if String.eqb generatedText "" then tags
        else
          match json_match generatedText with
          | Some jsonMatch =>
              match JSON_parse E jsonMatch with
              | Some (JArray filteredCandidateTags) =>
                  let finalTags :=
                    (protectedTags tags existingMatches
                     ++ strings_of filteredCandidateTags)%list in
                  if (length finalTags =? 0)%nat then tags else finalTags
              | _ => tags
              end
          | None => tags
          end
    | _ => tags
    end.
Proof.
  intros Ht Hc. unfold filterTagsBySpecificity.
  destruct (length tags =? 0)%nat eqn:Hlt;
    [apply length_zero_nil in Hlt; contradiction|].
  destruct (length (candidateTags tags existingMatches) =? 0)%nat eqn:Hlc;
    [apply length_zero_nil in Hlc; contradiction|].
  destruct (client_send E _) as [| | |[text|]]; reflexivity.
Qed.

Lemma keep_or_fall_back (tags final : list string) :
  tags <> [] -> (if (length final =? 0)%nat then tags else final) <> [].
Proof. intros H. destruct final; simpl; [assumption | discriminate]. Qed.

(** C3, as stated, fails: on a valid empty array the filter keeps the
    protected tags only, when there is one, and not the whole draft. *)
Lemma filterTagsBySpecificity_empty_array_counterexample :
  json_match "[]" = Some "[]"
  /\ Fixture.parse "[]" = Some (JArray [])
  /\ filterTagsBySpecificity
       (Fixture.make Rejected (Content (Some "[]")) Fixture.no_store)
       ["react"; "clean"] Fixture.no_options ["react"]
     = ["react"]
  /\ filterTagsBySpecificity
       (Fixture.make Rejected (Content (Some "[]")) Fixture.no_store)
       ["react"; "clean"] Fixture.no_options ["react"]
     <> ["react"; "clean"].
Proof. repeat split; try reflexivity. discriminate. Qed.

(** C3, amended: on a non-empty draft the filter never returns the empty
    list; it returns the draft unchanged when the second call throws, has
    no body or no text, or when its text holds no bracketed region or one
    that is not JSON; when the service returns a valid empty array it
    returns the draft unchanged if no draft tag is protected, and the
    protected tags alone otherwise. *)
Theorem filterTagsBySpecificity_fails_open
    (E : collaborators) (tags : list string) (opts : options)
    (existingMatches : list string) :
  tags <> [] ->
  let reply :=
    client_send E
      (filter_request (candidateTags tags existingMatches) opts) in
  let out := filterTagsBySpecificity E tags opts existingMatches in
  out <> []
  /\ (reply = Rejected \/ reply = NoBody \/ reply = Malformed
      \/ reply = Content None \/ reply = Content (Some "") -> out = tags)
  /\ (forall text,
        reply = Content (Some text) -> json_match text = None -> out = tags)
  /\ (forall text jsonMatch,
        reply = Content (Some text) -> json_match text = Some jsonMatch ->
        JSON_parse E jsonMatch = None -> out = tags)
  /\ (forall text jsonMatch,
        reply = Content (Some text) -> json_match text = Some jsonMatch ->
        JSON_parse E jsonMatch = Some (JArray []) ->
        (protectedTags tags existingMatches = [] -> out = tags)
        /\ (protectedTags tags existingMatches <> [] ->
            out = protectedTags tags existingMatches)).
Proof.
  intros Hne reply out. subst out.
  destruct (candidateTags tags existingMatches) as [|c cs] eqn:Hcand.
  - rewrite (filter_no_candidates E tags opts existingMatches Hcand).
    pose proof (no_candidates_all_protected _ _ Hcand) as Hprot.
    repeat apply conj; try (intros; reflexivity); [assumption|].
    intros text jsonMatch _ _ _. split; intros _; [reflexivity | now rewrite Hprot].
  - assert (Hcs : candidateTags tags existingMatches <> []) by congruence.
    rewrite (filter_unfold E tags opts existingMatches Hne Hcs).
    rewrite Hcand. fold reply. clearbody reply.
    repeat apply conj.
    + destruct reply as [| | |[text|]]; try assumption.
      destruct (String.eqb text ""); [assumption|].
      destruct (json_match text); [|assumption].
      destruct (JSON_parse E s) as [[| | | |items|]|]; try assumption.
      now apply keep_or_fall_back.
    + intros [->|[->|[->|[->| ->]]]]; reflexivity.
    + intros text -> Hmatch. rewrite Hmatch.
      now destruct (String.eqb text "").
    + intros text jsonMatch -> Hmatch Hparse. rewrite Hmatch, Hparse.
      now destruct (String.eqb text "").
    + intros text jsonMatch -> Hmatch Hparse. rewrite Hmatch, Hparse.
      destruct (String.eqb text "") eqn:Hempty.
      { apply String.eqb_eq in Hempty. subst text. discriminate. }
      cbn [strings_of]. rewrite app_nil_r.
      destruct (protectedTags tags existingMatches); split; intros H;
        try reflexivity; congruence.
Qed.

Lemma filterTagsBySpecificity_fails_open_witness :
  filterTagsBySpecificity
    (Fixture.make Rejected Rejected Fixture.no_store)
    ["react"; "clean"] Fixture.no_options ["react"]
  = ["react"; "clean"].
Proof.
  assert (Hne : ["react"; "clean"] <> @nil string) by discriminate.
  destruct (filterTagsBySpecificity_fails_open
              (Fixture.make Rejected Rejected Fixture.no_store)
              ["react"; "clean"] Fixture.no_options ["react"] Hne)
    as (_ & Hfail & _).
  apply Hfail. now left.
Defined.

(* ================================================================== *)
(** ** The draft stage *)

Example generateWithLLM_scenario_C :
  generateWithLLM
    (Fixture.make (Content (Some "Sorry, I cannot help")) Rejected
       Fixture.no_store)
    "content" Fixture.no_options []
  = Ok [].
Proof. reflexivity. Qed.

(** C4, as stated, fails: a bracketed region that is not JSON makes the
    draft stage throw, it does not return the empty list. *)
Lemma generateWithLLM_unparsable_counterexample :
  json_match "Here: [oops]" = Some "[oops]"
  /\ Fixture.parse "[oops]" = None
  /\ generateWithLLM
       (Fixture.make (Content (Some "Here: [oops]")) Rejected
          Fixture.no_store)
       "content" Fixture.no_options []
     = Throw FailedToGenerateTags
  /\ generateWithLLM
       (Fixture.make (Content (Some "Here: [oops]")) Rejected
          Fixture.no_store)
       "content" Fixture.no_options []
     <> Ok [].
Proof. repeat split; try reflexivity. discriminate. Qed.

(** C4, amended: the draft stage returns the empty list, without
    throwing, when the reply text is not empty and holds no bracketed
    region; it throws when the bracketed region is not JSON, as it does
    when the call itself fails, when the response has no body or a body
    that does not decode, and when the reply has no text. *)
Theorem generateWithLLM_outcomes
    (E : collaborators) (content : string) (opts : options)
    (existingMatches : list string) :
  let reply := client_send E (draft_request content opts existingMatches) in
  let out := generateWithLLM E content opts existingMatches in
  (forall text,
     reply = Content (Some text) -> text <> "" -> json_match text = None ->
     out = Ok [])
  /\ (forall text jsonMatch,
        reply = Content (Some text) -> json_match text = Some jsonMatch ->
        JSON_parse E jsonMatch = None -> out = Throw FailedToGenerateTags)
  /\ (reply = Rejected -> out = Throw FailedToGenerateTags)
  /\ (reply = Malformed -> out = Throw FailedToGenerateTags)
  /\ (reply = NoBody -> out = Throw EmptyResponseBody)
  /\ (reply = Content None \/ reply = Content (Some "") ->
      out = Throw NoTextContent).
Proof.
  intros reply out. subst out. unfold generateWithLLM. fold reply.
  clearbody reply. repeat apply conj.
  - intros text -> Hne Hmatch. rewrite Hmatch.
    destruct (String.eqb text "") eqn:Hempty; [|reflexivity].
    apply String.eqb_eq in Hempty. contradiction.
  - intros text jsonMatch -> Hmatch Hparse. rewrite Hmatch, Hparse.
    destruct (String.eqb text "") eqn:Hempty; [|reflexivity].
    apply String.eqb_eq in Hempty. subst text. discriminate.
  - now intros ->.
  - now intros ->.
  - now intros ->.
  - now intros [->| ->].
Qed.

Lemma generateWithLLM_outcomes_witness :
  generateWithLLM
    (Fixture.make (Content (Some "Sorry, I cannot help")) Rejected
       Fixture.no_store)
    "content" Fixture.no_options []
  = Ok [].
Proof.
  destruct (generateWithLLM_outcomes
              (Fixture.make (Content (Some "Sorry, I cannot help")) Rejected
                 Fixture.no_store)
              "content" Fixture.no_options [])
    as (Hnone & _).
  apply (Hnone "Sorry, I cannot help"); [reflexivity | discriminate | reflexivity].
Defined.

Lemma cleanTags_length (tags : list json) : (length (cleanTags tags) <= 10)%nat.
Proof.
  unfold cleanTags.
  match goal with |- (length (slice0 ?l 10) <= _)%nat =>
    pose proof (slice0_length l 10 ltac:(lia)) as H end.
  exact H.
Qed.

Lemma generateWithLLM_length (E : collaborators) (content : string)
    (opts : options) (existingMatches initialTags : list string) :
  generateWithLLM E content opts existingMatches = Ok initialTags ->
  (length initialTags <= 10)%nat.
Proof.
  unfold generateWithLLM.
  destruct (client_send E _) as [| | |[text|]]; try discriminate.
  destruct (String.eqb text ""); [discriminate|].
  destruct (json_match text) as [j|]; [|intros [= <-]; simpl; lia].
  destruct (JSON_parse E j) as [[| | | |items|]|]; try discriminate.
  intros [= <-]. apply cleanTags_length.
Qed.

(* ================================================================== *)
(** ** The public entry point *)

Lemma generateTagsInternal_unfold (E : collaborators) (content : string)
    (hint : option (list string)) (opts : options) (out : list string) :
  generateTagsInternal E content hint opts = Ok out ->
  let scored :=
    findTagsByKeywordsWithScores E
      (or_else (title opts) "") (or_else (description opts) "")
      (teamId opts) in
  exists initialTags,
    generateWithLLM E content opts (map fst scored) = Ok initialTags
    /\ out = addHighScoringExistingTags
               (filterTagsBySpecificity E initialTags opts (map fst scored))
               scored.
Proof.
  unfold generateTagsInternal. cbv zeta.
  destruct (generateWithLLM E content opts _) as [initialTags|e];
    [|discriminate].
  cbn [bind]. intros [= <-]. now exists initialTags.
Qed.

(** C5, as stated, fails: without manual tags the output of the pipeline
    is not capped at 6; seven drafted tags that the filter leaves alone
    come back as seven. *)
Lemma generateTags_cap_counterexample :
  generateTags
    (Fixture.make (Content (Some (Fixture.array_text Fixture.seven_tags)))
       Rejected Fixture.no_store)
    "content" None Fixture.no_options
  = Ok Fixture.seven_tags
  /\ ~ (length Fixture.seven_tags <= 6)%nat.
Proof. split; [reflexivity | vm_compute; lia]. Qed.

(** C5, amended: a call of [generateTags] that returns gives at most 8
    tags when [manualTags] is non-empty. When [manualTags] is absent or
    empty it gives the output of the pipeline as it is: the filtered draft
    followed by the reconciler's additions, at most 6 tags whenever the
    filtered draft has at most 6; the draft itself has at most 10. *)
Theorem generateTags_length
    (E : collaborators) (content : string) (hint : option (list string))
    (opts : options) (out : list string) :
  generateTags E content hint opts = Ok out ->
  (forall manual,
     manualTags opts = Some manual -> manual <> [] ->
     (length out <= 8)%nat)
  /\ (manualTags opts = None \/ manualTags opts = Some [] ->
      let scored :=
        findTagsByKeywordsWithScores E
          (or_else (title opts) "") (or_else (description opts) "")
          (teamId opts) in
      generateTagsInternal E content hint opts = Ok out
      /\ exists initialTags,
           let filteredTags :=
             filterTagsBySpecificity E initialTags opts (map fst scored) in
           generateWithLLM E content opts (map fst scored) = Ok initialTags
           /\ (length initialTags <= 10)%nat
           /\ out = addHighScoringExistingTags filteredTags scored
           /\ ((length filteredTags <= 6)%nat -> (length out <= 6)%nat)).
Proof.
  intros Hout. split.
  - intros manual Hm Hne. unfold generateTags in Hout. rewrite Hm in Hout.
    destruct manual as [|m ms]; [contradiction|]. cbn [length Nat.ltb Nat.leb] in Hout.
    destruct (generateTagsInternal E content hint opts) as [generated|e];
      [|discriminate].
    cbn [bind] in Hout. inversion Hout; subst.
    apply (slice0_length _ 8). lia.
  - intros Hm. cbv zeta.
    assert (Hint : generateTagsInternal E content hint opts = Ok out).
    { unfold generateTags in Hout. destruct Hm as [Hm|Hm]; rewrite Hm in Hout;
        exact Hout. }
    split; [exact Hint|].
    destruct (generateTagsInternal_unfold E content hint opts out Hint)
      as (initialTags & Hdraft & Heq).
    exists initialTags. repeat apply conj.
    + exact Hdraft.
    + eapply generateWithLLM_length. exact Hdraft.
    + exact Heq.
    + intros Hlen. rewrite Heq.
      apply (addHigh_length_le _ _ Hlen).
Qed.

Lemma generateTags_length_witness :
  generateTags
    (Fixture.make
       (Content (Some (Fixture.array_text ["React "; "hooks"; "clean"])))
       (Content (Some (Fixture.array_text ["hooks"])))
       (fun _ => Some ["react"; "tutorial"]))
    "React Hooks Tutorial" None
    {| url := None; title := Some "React Hooks Tutorial";
       description := None; teamId := Some "T1";
       manualTags := Some ["frontend"] |}
  = Ok ["frontend"; "react"; "hooks"; "tutorial"]
  /\ (length ["frontend"; "react"; "hooks"; "tutorial"] <= 8)%nat.
Proof.
  assert (Hrun :
    generateTags
      (Fixture.make
         (Content (Some (Fixture.array_text ["React "; "hooks"; "clean"])))
         (Content (Some (Fixture.array_text ["hooks"])))
         (fun _ => Some ["react"; "tutorial"]))
      "React Hooks Tutorial" None
      {| url := None; title := Some "React Hooks Tutorial";
         description := None; teamId := Some "T1";
         manualTags := Some ["frontend"] |}
    = Ok ["frontend"; "react"; "hooks"; "tutorial"]) by reflexivity.
  split; [exact Hrun|].
  destruct (generateTags_length _ _ _ _ _ Hrun) as [Hmanual _].
  apply (Hmanual ["frontend"]); [reflexivity | discriminate].
Defined.

Lemma firstn_app_front {A : Type} (n : nat) (l r : list A) :
  (length l <= n)%nat -> firstn (length l) (firstn n (l ++ r)) = l.
Proof.
  intros H. rewrite firstn_firstn, Nat.min_l by assumption.
  rewrite firstn_app, Nat.sub_diag, firstn_all. simpl. apply app_nil_r.
Qed.

(** C1, as stated, fails: the manual tag [React] and the generated tag
    [react] both come back; [generateTags] does not deduplicate. *)
Lemma generateTags_dedup_counterexample :
  generateTags
    (Fixture.make (Content (Some (Fixture.array_text ["react"]))) Rejected
       Fixture.no_store)
    "content" None (Fixture.with_manual ["React"])
  = Ok ["React"; "react"]
  /\ ~ deduplicated ["React"; "react"].
Proof.
  split; [reflexivity|].
  unfold deduplicated. intros H. inversion H as [|x l Hnot Hnd]; subst.
  apply Hnot. vm_compute. now left.
Qed.

(** Nine manual tags: the ninth is cut. *)
Example generateTags_nine_manual_tags :
  generateTags
    (Fixture.make (Content (Some "[]")) Rejected Fixture.no_store)
    "content" None
    (Fixture.with_manual ["a"; "b"; "c"; "d"; "e"; "f"; "g"; "h"; "i"])
  = Ok ["a"; "b"; "c"; "d"; "e"; "f"; "g"; "h"].
Proof. reflexivity. Qed.

(** C1, amended: a call of [generateTags] with non-empty [manualTags] that
    returns gives the first 8 entries of the manual tags followed by the
    generated tags, without deduplication; when there are at most 8 manual
    tags they open the result in their order, so that every manual tag
    appears in it. *)
Theorem generateTags_manual_first
    (E : collaborators) (content : string) (hint : option (list string))
    (opts : options) (manual out : list string) :
  manualTags opts = Some manual -> manual <> [] ->
  generateTags E content hint opts = Ok out ->
  exists generatedTags,
    generateTagsInternal E content hint opts = Ok generatedTags
    /\ out = firstn 8 (manual ++ generatedTags)
    /\ ((length manual <= 8)%nat ->
        firstn (length manual) out = manual
        /\ forall tag, In tag manual -> In tag out).
Proof.
  intros Hm Hne Hout. unfold generateTags in Hout. rewrite Hm in Hout.
  destruct manual as [|m ms] eqn:Hmanual; [contradiction|].
  rewrite <- Hmanual in *.
  replace (0 <? length manual)%nat with true in Hout by (now subst manual).
  destruct (generateTagsInternal E content hint opts) as [generatedTags|e];
    [|discriminate].
  cbn [bind] in Hout. inversion Hout as [Heq].
  exists generatedTags. rewrite slice0_firstn by lia.
  change (Z.to_nat 8) with 8%nat.
  repeat apply conj; [reflexivity | reflexivity | intros H; split].
  - now apply firstn_app_front.
  - intros tag Hin.
    rewrite <- (firstn_app_front 8 manual generatedTags H) in Hin.
    now apply firstn_subset in Hin.
Qed.

Lemma generateTags_manual_first_witness :
  generateTags
    (Fixture.make (Content (Some (Fixture.array_text ["react"]))) Rejected
       Fixture.no_store)
    "content" None (Fixture.with_manual ["React"])
  = Ok ["React"; "react"]
  /\ exists generatedTags,
       generateTagsInternal
         (Fixture.make (Content (Some (Fixture.array_text ["react"])))
            Rejected Fixture.no_store)
         "content" None (Fixture.with_manual ["React"])
       = Ok generatedTags
       /\ ["React"; "react"] = firstn 8 (["React"] ++ generatedTags)%list.
Proof.
  assert (Hrun :
    generateTags
      (Fixture.make (Content (Some (Fixture.array_text ["react"]))) Rejected
         Fixture.no_store)
      "content" None (Fixture.with_manual ["React"])
    = Ok ["React"; "react"]) by reflexivity.
  assert (Hne : ["React"] <> @nil string) by discriminate.
  split; [exact Hrun|].
  destruct (generateTags_manual_first
              (Fixture.make (Content (Some (Fixture.array_text ["react"])))
                 Rejected Fixture.no_store)
              "content" None (Fixture.with_manual ["React"]) ["React"]
              ["React"; "react"] eq_refl Hne Hrun)
    as (generatedTags & Hint & Hout & _).
  exists generatedTags. split; assumption.
Defined.

(* ================================================================== *)
(** * Further properties of the code *)

(** ** Strings: reversal, trimming, lower case *)

Lemma append_nil_r (s : string) : s ++ "" = s.
Proof. induction s as [|c r IH]; simpl; [reflexivity | now rewrite IH]. Qed.

Lemma append_assoc (a b c : string) : (a ++ b) ++ c = a ++ (b ++ c).
Proof. induction a as [|x r IH]; simpl; [reflexivity | now rewrite IH]. Qed.

Lemma string_rev_onto_spec (s acc : string) :
  string_rev_onto s acc = string_rev s ++ acc.
Proof.
  unfold string_rev. revert acc.
  induction s as [|c r IH]; intros acc; simpl; [reflexivity|].
  rewrite (IH (String c acc)), (IH (String c "")), append_assoc. reflexivity.
Qed.

Lemma string_rev_cons (c : ascii) (s : string) :
  string_rev (String c s) = string_rev s ++ String c "".
Proof. unfold string_rev at 1. simpl. apply string_rev_onto_spec. Qed.

Lemma string_rev_app (a b : string) :
  string_rev (a ++ b) = string_rev b ++ string_rev a.
Proof.
  induction a as [|c r IH]; simpl.
  - now rewrite append_nil_r.
  - now rewrite !string_rev_cons, IH, append_assoc.
Qed.

Lemma string_rev_involutive (s : string) : string_rev (string_rev s) = s.
Proof.
  induction s as [|c r IH]; [reflexivity|].
  now rewrite string_rev_cons, string_rev_app, IH.
Qed.

Lemma length_append (a b : string) :
  String.length (a ++ b) = (String.length a + String.length b)%nat.
Proof. induction a as [|c r IH]; simpl; [reflexivity | now rewrite IH]. Qed.

Lemma length_string_rev (s : string) :
  String.length (string_rev s) = String.length s.
Proof.
  induction s as [|c r IH]; [reflexivity|].
  rewrite string_rev_cons, length_append, IH. simpl. lia.
Qed.

Lemma length_string_map (f : ascii -> ascii) (s : string) :
  String.length (string_map f s) = String.length s.
Proof. induction s as [|c r IH]; simpl; [reflexivity | now rewrite IH]. Qed.

Lemma length_trimStart (s : string) :
  (String.length (trimStart s) <= String.length s)%nat.
Proof.
  induction s as [|c r IH]; simpl; [lia|].
  destruct (Chars.is_space c); simpl; lia.
Qed.

Lemma length_trim (s : string) : (String.length (trim s) <= String.length s)%nat.
Proof.
  unfold trim. rewrite length_string_rev.
  pose proof (length_trimStart (string_rev (trimStart s))) as H1.
  rewrite length_string_rev in H1.
  pose proof (length_trimStart s). lia.
Qed.

Lemma string_map_app (f : ascii -> ascii) (a b : string) :
  string_map f (a ++ b) = string_map f a ++ string_map f b.
Proof. induction a as [|c r IH]; simpl; [reflexivity | now rewrite IH]. Qed.

Lemma string_map_rev (f : ascii -> ascii) (s : string) :
  string_map f (string_rev s) = string_rev (string_map f s).
Proof.
  induction s as [|c r IH]; [reflexivity|]. simpl.
  now rewrite !string_rev_cons, string_map_app, IH.
Qed.

Lemma string_map_trimStart (f : ascii -> ascii) (s : string) :
  (forall c, Chars.is_space (f c) = Chars.is_space c) ->
  string_map f (trimStart s) = trimStart (string_map f s).
Proof.
  intros Hf. induction s as [|c r IH]; simpl; [reflexivity|].
  rewrite Hf. destruct (Chars.is_space c); [exact IH | reflexivity].
Qed.

Lemma string_map_trim (f : ascii -> ascii) (s : string) :
  (forall c, Chars.is_space (f c) = Chars.is_space c) ->
  string_map f (trim s) = trim (string_map f s).
Proof.
  intros Hf. unfold trim.
  now rewrite string_map_rev, string_map_trimStart, string_map_rev,
    string_map_trimStart.
Qed.

Lemma lower_is_space (c : ascii) :
  Chars.is_space (Chars.toLowerCase c) = Chars.is_space c.
Proof. all_chars c. Qed.

Lemma lower_lower (c : ascii) :
  Chars.toLowerCase (Chars.toLowerCase c) = Chars.toLowerCase c.
Proof. all_chars c. Qed.

Lemma toLowerCase_idempotent (s : string) :
  toLowerCase (toLowerCase s) = toLowerCase s.
Proof.
  unfold toLowerCase. induction s as [|c r IH]; simpl; [reflexivity|].
  now rewrite lower_lower, IH.
Qed.

Lemma toLowerCase_trim (s : string) :
  toLowerCase (trim s) = trim (toLowerCase s).
Proof. apply string_map_trim. exact lower_is_space. Qed.

Lemma trimStart_idempotent (s : string) :
  trimStart (trimStart s) = trimStart s.
Proof.
  induction s as [|c r IH]; simpl; [reflexivity|].
  destruct (Chars.is_space c) eqn:Hc; [exact IH|]. simpl. now rewrite Hc.
Qed.

Lemma trimStart_app_last (a : string) (c : ascii) :
  Chars.is_space c = false ->
  trimStart (a ++ String c "") = trimStart a ++ String c "".
Proof.
  intros Hc. induction a as [|x r IH]; simpl; [now rewrite Hc|].
  destruct (Chars.is_space x); [exact IH | reflexivity].
Qed.

(** Trimming the end of a string that starts without white space leaves a
    string that starts without white space. *)
Lemma trimStart_after_trimEnd (u : string) :
  trimStart u = u ->
  trimStart (string_rev (trimStart (string_rev u)))
  = string_rev (trimStart (string_rev u)).
Proof.
  destruct u as [|c u']; [reflexivity|]. simpl.
  destruct (Chars.is_space c) eqn:Hc.
  - intros H. pose proof (length_trimStart u') as Hlen.
    rewrite H in Hlen. simpl in Hlen. lia.
  - intros _. rewrite string_rev_cons, (trimStart_app_last _ _ Hc),
      string_rev_app. simpl. now rewrite Hc.
Qed.

Lemma trim_idempotent (s : string) : trim (trim s) = trim s.
Proof.
  unfold trim.
  rewrite (trimStart_after_trimEnd (trimStart s) (trimStart_idempotent s)).
  now rewrite string_rev_involutive, trimStart_idempotent.
Qed.

Lemma normalize_idempotent (tag : string) :
  normalize (normalize tag) = normalize tag.
Proof.
  unfold normalize.
  now rewrite toLowerCase_trim, toLowerCase_idempotent, trim_idempotent.
Qed.

Lemma normalisations_sanitize_twice (tag : string) :
  sanitize_tag (sanitize_tag tag) = sanitize_tag tag.
Proof.
  unfold sanitize_tag.
  now rewrite !toLowerCase_trim, toLowerCase_idempotent, trim_idempotent.
Qed.

(** X1: the normalisation of the draft stage, [toLowerCase().trim()], and
    the one of [sanitizeBookmark], [trim().toLowerCase()], give the same
    string on every tag, and normalising twice changes nothing; so
    sanitizing leaves a normalised tag as it is. *)
Theorem normalisations_agree (tag : string) :
  sanitize_tag tag = normalize tag
  /\ normalize (normalize tag) = normalize tag
  /\ sanitize_tag (sanitize_tag tag) = sanitize_tag tag
  /\ sanitize_tag (normalize tag) = normalize tag.
Proof.
  assert (H : sanitize_tag tag = normalize tag)
    by apply toLowerCase_trim.
  repeat apply conj.
  - exact H.
  - apply normalize_idempotent.
  - unfold sanitize_tag.
    now rewrite !toLowerCase_trim, toLowerCase_idempotent, trim_idempotent.
  - unfold sanitize_tag, normalize.
    now rewrite trim_idempotent, toLowerCase_trim, toLowerCase_idempotent.
Qed.

(* ================================================================== *)
(** ** Splitting and joining *)

Lemma string_forallb_app (p : ascii -> bool) (a b : string) :
  string_forallb p (a ++ b) = string_forallb p a && string_forallb p b.
Proof.
  induction a as [|c r IH]; simpl; [reflexivity|].
  now rewrite IH, andb_assoc.
Qed.

Lemma string_forallb_rev (p : ascii -> bool) (s : string) :
  string_forallb p (string_rev s) = string_forallb p s.
Proof.
  induction s as [|c r IH]; [reflexivity|].
  rewrite string_rev_cons, string_forallb_app, IH. simpl.
  rewrite andb_true_r. apply andb_comm.
Qed.

Lemma string_forallb_impl (p q : ascii -> bool) (s : string) :
  (forall c, p c = true -> q c = true) ->
  string_forallb p s = true -> string_forallb q s = true.
Proof.
  intros Hpq. induction s as [|c r IH]; simpl; [reflexivity|].
  intros H. apply andb_prop in H as [Hc Hr].
  now rewrite (Hpq c Hc), IH.
Qed.

(** Every piece of a split is made of characters of the text that are no
    separators. *)
Lemma split_runs_pieces (sep p : ascii -> bool) (s : string) :
  string_forallb p s = true ->
  forall cur inrun,
    string_forallb (fun c => p c && negb (sep c)) cur = true ->
    Forall (fun w => string_forallb (fun c => p c && negb (sep c)) w = true)
      (split_runs sep cur inrun s).
Proof.
  induction s as [|c r IH]; simpl; intros Hs cur inrun Hcur.
  - constructor; [|constructor]. now rewrite string_forallb_rev.
  - apply andb_prop in Hs as [Hc Hr].
    destruct (sep c) eqn:Hsep.
    + destruct inrun.
      * now apply IH.
      * constructor; [now rewrite string_forallb_rev | now apply IH].
    + apply IH; [assumption|]. simpl. now rewrite Hc, Hsep, Hcur.
Qed.

Lemma split_runs_word (sep : ascii -> bool) (w s : string) :
  string_forallb (fun c => negb (sep c)) w = true ->
  forall cur inrun,
    split_runs sep cur inrun (w ++ s)
    = split_runs sep (string_rev_onto w cur)
        (match w with EmptyString => inrun | String _ _ => false end) s.
Proof.
  induction w as [|c r IH]; simpl; intros Hw cur inrun; [reflexivity|].
  apply andb_prop in Hw as [Hc Hr]. apply negb_true_iff in Hc.
  rewrite Hc, (IH Hr). now destruct r.
Qed.

(** Splitting the words joined by one separator gives the words back. *)
Lemma split_join (sep : ascii -> bool) (d : ascii) (ws : list string) :
  sep d = true ->
  Forall (fun w => w <> ""
                   /\ string_forallb (fun c => negb (sep c)) w = true) ws ->
  ws <> [] ->
  forall inrun,
    split_runs sep "" inrun (String.concat (String d "") ws) = ws.
Proof.
  intros Hd. induction ws as [|w r IH]; intros Hws Hne inrun; [contradiction|].
  inversion Hws as [|? ? [Hw Hnosep] Hr]; subst.
  destruct r as [|w2 r].
  - cbn [String.concat]. rewrite <- (append_nil_r w) at 1.
    rewrite (split_runs_word sep w "" Hnosep). cbn [split_runs].
    now rewrite string_rev_onto_spec, append_nil_r, string_rev_involutive.
  - change (String.concat (String d "") (w :: w2 :: r))
      with (w ++ String d (String.concat (String d "") (w2 :: r))).
    rewrite (split_runs_word sep w _ Hnosep).
    destruct w as [|c w']; [contradiction|].
    cbn [split_runs]. rewrite Hd.
    rewrite string_rev_onto_spec, append_nil_r, string_rev_involutive.
    f_equal. apply IH; [assumption | discriminate].
Qed.

Lemma no_space_trim (s : string) :
  string_forallb (fun c => negb (Chars.is_space c)) s = true -> trim s = s.
Proof.
  intros H.
  assert (Hstart : forall u,
             string_forallb (fun c => negb (Chars.is_space c)) u = true ->
             trimStart u = u).
  { intros [|c r]; simpl; [reflexivity|]. intros Hu.
    apply andb_prop in Hu as [Hc _]. apply negb_true_iff in Hc.
    now rewrite Hc. }
  unfold trim. rewrite (Hstart s H), Hstart.
  - apply string_rev_involutive.
  - now rewrite string_forallb_rev.
Qed.

(* ================================================================== *)
(** ** More on keyword extraction *)

Lemma lower_not_upper (c : ascii) :
  negb (Chars.is_upper (Chars.toLowerCase c)) = true.
Proof. all_chars c. Qed.

Lemma not_upper_lower (c : ascii) :
  negb (Chars.is_upper c) = true -> Chars.toLowerCase c = c.
Proof. all_chars c. Qed.

Lemma separator_digit (c : ascii) :
  negb (keyword_separator c) = true -> Chars.is_digit c = false.
Proof. all_chars c. Qed.

Lemma separator_space (c : ascii) :
  negb (keyword_separator c) = true -> negb (Chars.is_space c) = true.
Proof. all_chars c. Qed.

Lemma toLowerCase_not_upper (s : string) :
  string_forallb (fun c => negb (Chars.is_upper c)) (toLowerCase s) = true.
Proof.
  unfold toLowerCase. induction s as [|c r IH]; simpl; [reflexivity|].
  now rewrite lower_not_upper, IH.
Qed.

Lemma not_upper_toLowerCase (s : string) :
  string_forallb (fun c => negb (Chars.is_upper c)) s = true ->
  toLowerCase s = s.
Proof.
  unfold toLowerCase. induction s as [|c r IH]; simpl; [reflexivity|].
  intros H. apply andb_prop in H as [Hc Hr].
  now rewrite (not_upper_lower c Hc), IH.
Qed.

Lemma no_separator_no_number (w : string) :
  string_forallb (fun c => negb (keyword_separator c)) w = true ->
  is_number w = false.
Proof.
  unfold is_number. destruct w as [|c r]; [reflexivity|]. simpl.
  intros H. apply andb_prop in H as [Hc _].
  now rewrite (separator_digit c Hc).
Qed.

Lemma split_lower_pieces (text : string) :
  Forall (fun w =>
            string_forallb
              (fun c => negb (Chars.is_upper c) && negb (keyword_separator c))
              w = true)
    (split keyword_separator (toLowerCase text)).
Proof.
  unfold split.
  apply (split_runs_pieces keyword_separator
           (fun c => negb (Chars.is_upper c)));
    [apply toLowerCase_not_upper | reflexivity].
Qed.

Lemma extractKeywords_is_keyword (text : string) :
  Forall (fun w => is_keyword w = true) (extractKeywords text).
Proof.
  apply Forall_forall. intros w Hw.
  unfold extractKeywords, keep_keywords in Hw.
  apply filter_In in Hw as [Hw _]. apply filter_In in Hw as [Hw Hstop].
  apply filter_In in Hw as [Hw Hlen].
  pose proof (split_lower_pieces text) as Hp. rewrite Forall_forall in Hp.
  specialize (Hp w Hw). unfold is_keyword.
  rewrite Hlen, Hstop, !andb_true_r.
  eapply string_forallb_impl; [|exact Hp].
  intros c Hc. apply andb_prop in Hc as [H1 H2]. now rewrite H1, H2.
Qed.

Lemma is_keyword_parts (w : string) :
  is_keyword w = true ->
  string_forallb (fun c => negb (keyword_separator c)) w = true
  /\ string_forallb (fun c => negb (Chars.is_upper c)) w = true
  /\ (2 < String.length w)%nat
  /\ includes stopWords w = false.
Proof.
  unfold is_keyword. intros H.
  apply andb_prop in H as [H Hstop]. apply andb_prop in H as [Hc Hlen].
  apply negb_true_iff in Hstop. apply Nat.ltb_lt in Hlen.
  repeat split; try assumption.
  - eapply string_forallb_impl; [|exact Hc].
    intros c Hx. now apply andb_prop in Hx as [? _].
  - eapply string_forallb_impl; [|exact Hc].
    intros c Hx. now apply andb_prop in Hx as [_ ?].
Qed.

(** X2: every keyword the extractor returns has at least 3 characters, is
    in lower case, is no stop word and holds no separator of the source's
    class, hence no white space and no digit. *)
Theorem extractKeywords_shape (text : string) :
  Forall (fun w =>
            (3 <= String.length w)%nat
            /\ toLowerCase w = w
            /\ ~ In w stopWords
            /\ string_forallb (fun c => negb (keyword_separator c)) w = true
            /\ string_forallb
                 (fun c => negb (Chars.is_space c) && negb (Chars.is_digit c))
                 w = true)
    (extractKeywords text).
Proof.
  pose proof (extractKeywords_is_keyword text) as H.
  rewrite Forall_forall in *. intros w Hw.
  destruct (is_keyword_parts w (H w Hw)) as (Hsep & Hup & Hlen & Hstop).
  repeat split.
  - lia.
  - now apply not_upper_toLowerCase.
  - intros Hin. apply includes_In in Hin. congruence.
  - exact Hsep.
  - eapply string_forallb_impl; [|exact Hsep].
    intros c Hc. rewrite (separator_space c Hc), (separator_digit c Hc).
    reflexivity.
Qed.

(** X3: the last filter of the extractor, the one that removes numbers,
    never removes a token: the digits are separators of the class, so no
    token holds one. *)
Theorem extractKeywords_number_filter_idle (text : string) :
  extractKeywords text
  = filter (fun word => negb (includes stopWords word))
      (filter (fun word => (2 <? String.length word)%nat)
         (split keyword_separator (toLowerCase text)))
  /\ Forall (fun word => is_number word = false)
       (split keyword_separator (toLowerCase text)).
Proof.
  assert (Hnum : Forall (fun word => is_number word = false)
                   (split keyword_separator (toLowerCase text))).
  { pose proof (split_lower_pieces text) as Hp.
    rewrite Forall_forall in *. intros w Hw.
    apply no_separator_no_number.
    eapply string_forallb_impl; [|exact (Hp w Hw)].
    intros c Hc. now apply andb_prop in Hc as [_ ?]. }
  split; [|exact Hnum].
  unfold extractKeywords, keep_keywords.
  rewrite Forall_forall in Hnum.
  apply forallb_filter_id. apply forallb_forall. intros x Hx.
  apply filter_In in Hx as [Hx _]. apply filter_In in Hx as [Hx _].
  now rewrite (Hnum x Hx).
Qed.

Lemma string_forallb_concat (p : ascii -> bool) (d : string)
    (ws : list string) :
  string_forallb p d = true ->
  Forall (fun w => string_forallb p w = true) ws ->
  string_forallb p (String.concat d ws) = true.
Proof.
  intros Hd. induction 1 as [|w r Hw Hr IH]; [reflexivity|].
  destruct r as [|w2 r]; [exact Hw|].
  change (String.concat d (w :: w2 :: r))
    with (w ++ d ++ String.concat d (w2 :: r)).
  now rewrite !string_forallb_app, Hw, Hd, IH.
Qed.

Lemma extractKeywords_join (ws : list string) :
  Forall (fun w => is_keyword w = true) ws ->
  extractKeywords (String.concat " " ws) = ws.
Proof.
  intros Hws. destruct ws as [|w0 r0] eqn:Hshape; [reflexivity|].
  rewrite <- Hshape in *. assert (Hne : ws <> []) by (subst; discriminate).
  clear Hshape. rewrite Forall_forall in Hws.
  unfold extractKeywords.
  rewrite not_upper_toLowerCase.
  2: { apply string_forallb_concat; [reflexivity|].
       apply Forall_forall. intros w Hw.
       now destruct (is_keyword_parts w (Hws w Hw)) as (_ & ? & _). }
  unfold split. rewrite (split_join keyword_separator " "%char ws);
    [|reflexivity| |exact Hne].
  2: { apply Forall_forall. intros w Hw.
       destruct (is_keyword_parts w (Hws w Hw)) as (Hsep & _ & Hlen & _).
       split; [|exact Hsep]. intros ->. simpl in Hlen. lia. }
  unfold keep_keywords.
  rewrite (forallb_filter_id (fun word => (2 <? String.length word)%nat)).
  2: { apply forallb_forall. intros w Hw.
       destruct (is_keyword_parts w (Hws w Hw)) as (_ & _ & Hlen & _).
       now apply Nat.ltb_lt. }
  rewrite (forallb_filter_id (fun word => negb (includes stopWords word))).
  2: { apply forallb_forall. intros w Hw.
       destruct (is_keyword_parts w (Hws w Hw)) as (_ & _ & _ & Hstop).
       now rewrite Hstop. }
  apply forallb_filter_id. apply forallb_forall. intros w Hw.
  destruct (is_keyword_parts w (Hws w Hw)) as (Hsep & _).
  now rewrite (no_separator_no_number w Hsep).
Qed.

(** X4: extraction is stable: the keywords of a text, joined by spaces and
    given to the extractor again, come back unchanged, in the same order
    and with the same repetitions. *)
Theorem extractKeywords_round_trip (text : string) :
  extractKeywords (String.concat " " (extractKeywords text))
  = extractKeywords text.
Proof. apply extractKeywords_join, extractKeywords_is_keyword. Qed.

(* ================================================================== *)
(** ** The text of a bookmark command *)

Lemma skipn_subset {A : Type} (n : nat) (l : list A) (x : A) :
  In x (skipn n l) -> In x l.
Proof.
  revert l. induction n as [|n IH]; intros [|y r]; simpl; try tauto.
  intros H. right. now apply IH.
Qed.

Lemma command_parts_no_space (text : string) :
  Forall (fun w => string_forallb (fun c => negb (Chars.is_space c)) w = true)
    (command_parts text).
Proof.
  unfold command_parts, split.
  pose proof (split_runs_pieces Chars.is_space (fun _ => true) text) as H.
  apply H; [|reflexivity].
  clear H. induction text as [|c r IH]; simpl; auto.
Qed.

Lemma not_blank (tag : string) :
  tag <> "" ->
  string_forallb (fun c => negb (Chars.is_space c)) tag = true ->
  blank tag = false.
Proof.
  intros Hne Hns. unfold blank. rewrite (no_space_trim tag Hns).
  destruct tag as [|c r]; [contradiction | reflexivity].
Qed.

Lemma validate_tags_not_blank (tags : list string) :
  Forall (fun tag => blank tag = false) tags ->
  validate_tags tags = None
  \/ validate_tags tags
     = Some (Invalid "Tag too long (max 50 characters)" "manualTags").
Proof.
  induction 1 as [|tag r Htag Hr IH]; [now left|].
  cbn [validate_tags]. rewrite Htag.
  destruct (50 <? String.length tag)%nat; [now right | exact IH].
Qed.

(** X5: the manual tags [processBookmarkAsync] reads off a command text
    are never empty and hold no white space, and so is the URL free of
    white space; validation can refuse them for their length only, never
    as empty tags. *)
Theorem command_manualTags_shape (text : string) :
  Forall (fun tag =>
            tag <> ""
            /\ string_forallb (fun c => negb (Chars.is_space c)) tag = true
            /\ trim tag = tag
            /\ blank tag = false)
    (command_manualTags text)
  /\ string_forallb (fun c => negb (Chars.is_space c)) (command_url text)
     = true
  /\ (validate_tags (command_manualTags text) = None
      \/ validate_tags (command_manualTags text)
         = Some (Invalid "Tag too long (max 50 characters)" "manualTags")).
Proof.
  pose proof (command_parts_no_space text) as Hp.
  rewrite Forall_forall in Hp.
  assert (Htags : Forall (fun tag =>
            tag <> ""
            /\ string_forallb (fun c => negb (Chars.is_space c)) tag = true
            /\ trim tag = tag
            /\ blank tag = false)
    (command_manualTags text)).
  { apply Forall_forall. intros tag Hin. unfold command_manualTags in Hin.
    apply filter_In in Hin as [Hin Hlen]. apply skipn_subset in Hin.
    specialize (Hp tag Hin).
    assert (Hne : tag <> "") by (intros ->; discriminate).
    repeat split; try assumption.
    - now apply no_space_trim.
    - now apply not_blank. }
  repeat apply conj.
  - exact Htags.
  - unfold command_url. destruct (command_parts text) as [|u r] eqn:Hparts;
      [reflexivity|]. apply Hp. now left.
  - apply validate_tags_not_blank.
    eapply Forall_impl; [|exact Htags]. cbv beta. tauto.
Qed.

(** X6: a command text made of a URL and tags separated by single spaces
    is read back as that URL and those tags, when none of them is empty or
    holds white space. *)
Theorem command_round_trip (url : string) (tags : list string) :
  url <> "" ->
  string_forallb (fun c => negb (Chars.is_space c)) url = true ->
  Forall (fun tag =>
            tag <> ""
            /\ string_forallb (fun c => negb (Chars.is_space c)) tag = true)
    tags ->
  command_url (String.concat " " (url :: tags)) = url
  /\ command_manualTags (String.concat " " (url :: tags)) = tags.
Proof.
  intros Hne Hns Htags.
  assert (Hparts : command_parts (String.concat " " (url :: tags))
                   = url :: tags).
  { unfold command_parts, split.
    apply (split_join Chars.is_space " "%char);
      [reflexivity | now constructor | discriminate]. }
  unfold command_url, command_manualTags. rewrite Hparts. split; [reflexivity|].
  cbn [skipn]. apply forallb_filter_id. apply forallb_forall.
  rewrite Forall_forall in Htags. intros tag Hin.
  destruct (Htags tag Hin) as [Hn _].
  destruct tag; [contradiction | reflexivity].
Qed.

Lemma command_round_trip_witness :
  command_url "https://example.com react hooks" = "https://example.com"
  /\ command_manualTags "https://example.com react hooks"
     = ["react"; "hooks"].
Proof.
  apply (command_round_trip "https://example.com" ["react"; "hooks"]).
  - discriminate.
  - reflexivity.
  - repeat constructor; discriminate.
Defined.

(* ================================================================== *)
(** ** More on the lexical scorer *)

Lemma map_set_In (m : score_map) (k : string) (v : Z) (e : string * Z) :
  In e (map_set m k v) -> e = (k, v) \/ In e m.
Proof.
  induction m as [|[k0 v0] r IH]; simpl.
  - intros [<-|[]]. now left.
  - destruct (String.eqb k k0) eqn:Hk; simpl.
    + apply String.eqb_eq in Hk. subst k0. intros [<-|H]; auto.
    + intros [<-|H]; auto. destruct (IH H); auto.
Qed.

Lemma positive_boost (E : collaborators) (keyword tag : string) :
  (0 < fst (classify E keyword tag))%Z ->
  (tenths 5 <= fst (classify E keyword tag))%Z.
Proof.
  rewrite classify_boost.
  destruct (snd (classify E keyword tag)); unfold boost_of, tenths; lia.
Qed.

(** The entries of the score map are corpus tags with a score of 5 at
    least. *)
Lemma score_keywords_entries (E : collaborators)
    (keywords existingTags : list string) (tag : string) (s : Z) :
  In (tag, s) (tagScores (score_keywords E keywords existingTags)) ->
  In tag existingTags /\ (tenths 5 <= s)%Z.
Proof.
  set (P := fun st : matcher =>
              forall t v, In (t, v) (tagScores st) ->
                          In t existingTags /\ (tenths 5 <= v)%Z).
  assert (Hfold : forall (f : matcher -> string -> matcher) tags st,
             (forall st' t, In t existingTags -> P st' -> P (f st' t)) ->
             incl tags existingTags -> P st -> P (fold_left f tags st)).
  { intros f tags. induction tags as [|t r IH]; intros st Hf Hincl Hst;
      [exact Hst|]. simpl. apply IH; [exact Hf | |].
    - intros x Hx. apply Hincl. now right.
    - apply Hf; [apply Hincl; now left | exact Hst]. }
  assert (Hall : P (score_keywords E keywords existingTags)).
  { unfold score_keywords. apply fold_left_invariant; [|intros t v []].
    intros st keyword Hst. unfold score_keyword.
    apply Hfold; [| apply incl_refl |].
    - clear st Hst. intros st t Ht Hst. unfold fuzzy_tag.
      destruct (map_has (tagScores st) t); [exact Hst|].
      destruct (80 <=? fuzz_ratio E keyword t)%Z eqn:Hsim; [|exact Hst].
      apply Z.leb_le in Hsim. intros t' v Hin. cbn [tagScores] in Hin.
      apply map_set_In in Hin as [Heq|Hin]; [|now apply Hst].
      inversion Heq; subst. split; [exact Ht | unfold tenths; lia].
    - apply Hfold; [| apply incl_refl | exact Hst].
      clear st Hst. intros st t Ht Hst. unfold score_tag.
      pose proof (positive_boost E keyword t) as Hb.
      destruct (classify E keyword t) as [scoreBoost mt]. cbn [fst] in Hb.
      destruct (0 <? scoreBoost)%Z eqn:Hpos; [|exact Hst].
      apply Z.ltb_lt in Hpos. specialize (Hb Hpos).
      intros t' v Hin. cbn [tagScores] in Hin.
      apply map_set_In in Hin as [Heq|Hin]; [|now apply Hst].
      inversion Heq; subst. split; [exact Ht|].
      destruct (map_get (tagScores st) t) as [old|] eqn:Hold.
      + apply map_get_Some_In in Hold. destruct (Hst _ _ Hold) as [_ Hge].
        unfold tenths in *. lia.
      + lia. }
  apply Hall.
Qed.

Lemma StronglySorted_firstn {A : Type} (R : A -> A -> Prop) (n : nat)
    (l : list A) :
  StronglySorted R l -> StronglySorted R (firstn n l).
Proof.
  intros H. revert n. induction H as [|x r Hr IH Hx]; intros [|n]; simpl;
    try constructor.
  - apply IH.
  - rewrite Forall_forall in *. intros y Hy. apply Hx.
    now apply firstn_subset in Hy.
Qed.

(** X7: the answer of the scorer holds at most 6 entries, each a tag of
    the fetched corpus with a score of 5 at least, in falling order of
    score; without any keyword it is empty, whatever the corpus. *)
Theorem findTags_answer_shape
    (E : collaborators) (title description : string) (team : option string) :
  let answer := findTagsByKeywordsWithScores E title description team in
  (length answer <= 6)%nat
  /\ (forall tag s, In (tag, s) answer ->
        In tag (fetch_existing_tags E team) /\ (tenths 5 <= s)%Z)
  /\ StronglySorted score_ge answer
  /\ (extractKeywords (title ++ " " ++ description) = [] -> answer = []).
Proof.
  intros answer. subst answer.
  unfold findTagsByKeywordsWithScores, scoring_run. cbv zeta.
  rewrite slice0_firstn by lia. change (Z.to_nat 6) with 6%nat.
  repeat apply conj.
  - apply firstn_le_length.
  - intros tag s Hin. apply firstn_subset in Hin.
    apply (Permutation_in _ (sort_desc_perm _)) in Hin.
    now apply score_keywords_entries in Hin.
  - apply StronglySorted_firstn, sort_desc_sorted.
  - intros ->. reflexivity.
Qed.

Lemma prefix_length (a b : string) :
  String.prefix a b = true -> (String.length a <= String.length b)%nat.
Proof.
  revert a. induction b as [|d b' IH]; intros [|c r]; simpl;
    try lia; try discriminate.
  destruct (ascii_dec c d); [|discriminate].
  intros H. apply IH in H. lia.
Qed.

Lemma str_includes_length (s sub : string) :
  str_includes s sub = true -> (String.length sub <= String.length s)%nat.
Proof.
  induction s as [|c r IH]; cbn [str_includes]; intros H.
  - rewrite orb_false_r in H. now apply prefix_length in H.
  - apply orb_prop in H as [H|H].
    + now apply prefix_length in H.
    + apply IH in H. simpl. lia.
Qed.

(** X8: a corpus tag of at most 2 characters (such as the seed tags [go],
    [ai], [ml], [ui], [ux]) never gets a perfect, keyword-in-tag or
    tag-in-keyword match from a keyword of 3 characters or more, which all
    extracted keywords are: the first loop scores it by grammatical
    variation or not at all. *)
Theorem short_tag_matches
    (E : collaborators) (keyword tag : string) :
  (2 < String.length keyword)%nat -> (String.length tag <= 2)%nat ->
  classify E keyword tag = (tenths 12, grammatical_variation)
  \/ classify E keyword tag = (0%Z, unmatched).
Proof.
  intros Hk Ht. unfold classify.
  destruct (String.eqb keyword tag) eqn:Heq.
  { apply String.eqb_eq in Heq. subst. lia. }
  destruct (isGrammaticalVariation E keyword tag); [now left|].
  destruct (str_includes tag keyword) eqn:Hinc.
  { apply str_includes_length in Hinc. lia. }
  rewrite andb_false_r.
  replace (2 <? String.length tag)%nat with false
    by (symmetry; apply Nat.ltb_ge; lia).
  now right.
Qed.

Lemma short_tag_matches_witness :
  classify (Fixture.make Rejected Rejected Fixture.no_store) "golang" "go"
  = (0%Z, unmatched).
Proof.
  destruct (short_tag_matches
              (Fixture.make Rejected Rejected Fixture.no_store)
              "golang" "go") as [H|H].
  - simpl. lia.
  - simpl. lia.
  - discriminate H.
  - exact H.
Defined.

Lemma existsb_includes_sym (a b : list string) :
  existsb (fun x => includes b x) a = existsb (fun y => includes a y) b.
Proof.
  apply Bool.eq_iff_eq_true. rewrite !existsb_exists. split.
  - intros (x & Hx & Hb). apply includes_In in Hb.
    exists x. split; [assumption | now apply includes_In].
  - intros (y & Hy & Ha). apply includes_In in Ha.
    exists y. split; [assumption | now apply includes_In].
Qed.

(** X9: [isGrammaticalVariation] does not depend on the order of its two
    words, and it holds of two words that differ by case only. *)
Theorem isGrammaticalVariation_symmetric
    (E : collaborators) (word1 word2 : string) :
  isGrammaticalVariation E word1 word2 = isGrammaticalVariation E word2 word1
  /\ (toLowerCase word1 = toLowerCase word2 ->
      isGrammaticalVariation E word1 word2 = true).
Proof.
  unfold isGrammaticalVariation. split.
  - rewrite (String.eqb_sym word2 word1).
    destruct (String.eqb word1 word2); [reflexivity|].
    cbv zeta. apply existsb_includes_sym.
  - intros Hcase. destruct (String.eqb word1 word2); [reflexivity|].
    cbv zeta. rewrite Hcase. cbn [existsb includes].
    now rewrite String.eqb_refl.
Qed.

Lemma isGrammaticalVariation_symmetric_witness :
  isGrammaticalVariation (Fixture.make Rejected Rejected Fixture.no_store)
    "React" "react" = true.
Proof.
  apply (isGrammaticalVariation_symmetric
           (Fixture.make Rejected Rejected Fixture.no_store)
           "React" "react").
  reflexivity.
Defined.

(* ================================================================== *)
(** ** More on the two service stages *)

Lemma cleanTags_shape (tags : list json) :
  Forall (fun tag =>
            (1 <= String.length tag <= 50)%nat
            /\ toLowerCase tag = tag
            /\ trim tag = tag)
    (cleanTags tags)
  /\ sanitize_tags (cleanTags tags) = cleanTags tags.
Proof.
  assert (Hshape : Forall (fun tag =>
            (1 <= String.length tag <= 50)%nat
            /\ toLowerCase tag = tag
            /\ trim tag = tag)
    (cleanTags tags)).
  { apply Forall_forall. intros tag Hin. unfold cleanTags in Hin.
    apply slice0_incl in Hin. apply filter_In in Hin as [Hin Hlen].
    apply andb_prop in Hlen as [Hlo Hhi].
    apply Nat.ltb_lt in Hlo. apply Nat.leb_le in Hhi.
    apply in_map_iff in Hin as (x & <- & _).
    repeat split; try lia.
    - now rewrite toLowerCase_trim, toLowerCase_idempotent.
    - apply trim_idempotent. }
  split; [exact Hshape|].
  unfold sanitize_tags. rewrite Forall_forall in Hshape.
  rewrite (map_ext_in sanitize_tag (fun tag => tag)), map_id.
  - apply forallb_filter_id. apply forallb_forall. intros tag Hin.
    destruct (Hshape tag Hin) as (Hlen & _).
    destruct tag; [simpl in Hlen; lia | reflexivity].
  - intros tag Hin. destruct (Hshape tag Hin) as (_ & Hlow & Htrim).
    unfold sanitize_tag. now rewrite Htrim, Hlow.
Qed.

(** X10: when the draft stage returns, it returns at most 10 tags, each of
    1 to 50 characters, in lower case and trimmed at both ends; sanitizing
    them as [sanitizeBookmark] does changes nothing. *)
Theorem generateWithLLM_clean
    (E : collaborators) (content : string) (opts : options)
    (existingMatches initialTags : list string) :
  generateWithLLM E content opts existingMatches = Ok initialTags ->
  (length initialTags <= 10)%nat
  /\ Forall (fun tag =>
               (1 <= String.length tag <= 50)%nat
               /\ toLowerCase tag = tag
               /\ trim tag = tag)
       initialTags
  /\ sanitize_tags initialTags = initialTags.
Proof.
  intros H. split; [eapply generateWithLLM_length; exact H|].
  unfold generateWithLLM in H.
  destruct (client_send E _) as [| | |[text|]]; try discriminate.
  destruct (String.eqb text ""); [discriminate|].
  destruct (json_match text) as [j|];
    [|inversion H; subst; split; [constructor | reflexivity]].
  destruct (JSON_parse E j) as [[| | | |items|]|]; try discriminate.
  inversion H; subst. apply cleanTags_shape.
Qed.

Lemma generateWithLLM_clean_witness :
  generateWithLLM
    (Fixture.make
       (Content (Some (Fixture.array_text ["  React Hooks "; ""; "API"])))
       Rejected Fixture.no_store)
    "content" Fixture.no_options []
  = Ok ["react hooks"; "api"]
  /\ sanitize_tags ["react hooks"; "api"] = ["react hooks"; "api"].
Proof.
  assert (Hrun :
    generateWithLLM
      (Fixture.make
         (Content (Some (Fixture.array_text ["  React Hooks "; ""; "API"])))
         Rejected Fixture.no_store)
      "content" Fixture.no_options []
    = Ok ["react hooks"; "api"]) by reflexivity.
  split; [exact Hrun|].
  apply (generateWithLLM_clean _ _ _ _ _ Hrun).
Defined.

(** X11: the plain generator, [BedrockTagGenerator], when it returns,
    returns at most 10 tags, each of 1 to 50 characters, in lower case and
    trimmed, whatever tags were passed as [existingTags]. *)
Theorem plain_generateTags_clean
    (send : string -> string -> response) (parse : string -> option json)
    (content : string) (existingTags : option (list string))
    (out : list string) :
  plain_generateTags send parse content existingTags = Ok out ->
  (length out <= 10)%nat
  /\ Forall (fun tag =>
               (1 <= String.length tag <= 50)%nat
               /\ toLowerCase tag = tag
               /\ trim tag = tag)
       out.
Proof.
  unfold plain_generateTags. cbv zeta.
  destruct (send _ content) as [| | |[text|]]; try discriminate.
  destruct (String.eqb text ""); [discriminate|].
  destruct (json_match text) as [j|];
    [|intros [= <-]; split; [simpl; lia | constructor]].
  destruct (parse j) as [[| | | |items|]|]; try discriminate.
  intros [= <-]. split; [apply cleanTags_length | apply cleanTags_shape].
Qed.

Lemma plain_generateTags_clean_witness :
  plain_generateTags
    (fun _ _ => Content (Some (Fixture.array_text ["AWS Lambda"; "  "])))
    Fixture.parse "content" (Some ["aws"; "lambda"])
  = Ok ["aws lambda"]
  /\ (length ["aws lambda"] <= 10)%nat.
Proof.
  assert (Hrun :
    plain_generateTags
      (fun _ _ => Content (Some (Fixture.array_text ["AWS Lambda"; "  "])))
      Fixture.parse "content" (Some ["aws"; "lambda"])
    = Ok ["aws lambda"]) by reflexivity.
  split; [exact Hrun|].
  apply (plain_generateTags_clean _ _ _ _ _ Hrun).
Defined.

Lemma filter_outcomes (E : collaborators) (tags : list string)
    (opts : options) (existingMatches : list string) :
  filterTagsBySpecificity E tags opts existingMatches = tags
  \/ exists kept,
       filterTagsBySpecificity E tags opts existingMatches
       = (protectedTags tags existingMatches ++ kept)%list.
Proof.
  destruct tags as [|t0 r0] eqn:Ht; [now left|]. rewrite <- Ht.
  assert (Hne : tags <> []) by (subst; discriminate).
  destruct (candidateTags tags existingMatches) as [|c cs] eqn:Hc.
  - left. now apply filter_no_candidates.
  - assert (Hcs : candidateTags tags existingMatches <> []) by congruence.
    rewrite (filter_unfold E tags opts existingMatches Hne Hcs).
    destruct (client_send E _) as [| | |[text|]]; try now left.
    destruct (String.eqb text ""); [now left|].
    destruct (json_match text) as [j|]; [|now left].
    destruct (JSON_parse E j) as [[| | | |items|]|]; try now left.
    cbv zeta. destruct (length _ =? 0)%nat; [now left|].
    right. now exists (strings_of items).
Qed.

(** X12: the specificity filter never drops a protected tag: a draft tag
    that is among the existing matches is in the output, whatever the
    service replies; and when every draft tag is protected the output is
    the draft. *)
Theorem filterTagsBySpecificity_keeps_protected
    (E : collaborators) (tags : list string) (opts : options)
    (existingMatches : list string) :
  (forall tag, In tag tags -> In tag existingMatches ->
     In tag (filterTagsBySpecificity E tags opts existingMatches))
  /\ ((forall tag, In tag tags -> In tag existingMatches) ->
      filterTagsBySpecificity E tags opts existingMatches = tags).
Proof.
  split.
  - intros tag Hin Hex.
    destruct (filter_outcomes E tags opts existingMatches) as [->|[kept ->]];
      [exact Hin|].
    apply in_or_app. left. unfold protectedTags. apply filter_In.
    split; [exact Hin | now apply includes_In].
  - intros Hall. apply filter_no_candidates. unfold candidateTags.
    induction tags as [|t r IH]; [reflexivity|]. cbn [filter].
    replace (includes existingMatches t) with true
      by (symmetry; apply includes_In, Hall; now left).
    cbn [negb]. apply IH. intros tag Hin. apply Hall. now right.
Qed.

Lemma filterTagsBySpecificity_keeps_protected_witness :
  In "react"
    (filterTagsBySpecificity
       (Fixture.make Rejected
          (Content (Some (Fixture.array_text ["hooks"]))) Fixture.no_store)
       ["clean"; "react"; "hooks"] Fixture.no_options ["react"]).
Proof.
  apply (filterTagsBySpecificity_keeps_protected
           (Fixture.make Rejected
              (Content (Some (Fixture.array_text ["hooks"])))
              Fixture.no_store)
           ["clean"; "react"; "hooks"] Fixture.no_options ["react"]).
  - simpl. tauto.
  - simpl. tauto.
Defined.

(* ================================================================== *)
(** ** More on the reconciler *)

Lemma additionalTags_firstn (currentTags : list string)
    (scored : list (string * Z)) :
  (length currentTags <= 6)%nat ->
  additionalTags currentTags scored
  = map fst (firstn (6 - length currentTags)
               (highScoringMissingWithScores currentTags scored)).
Proof.
  intros Hlen. unfold additionalTags, MAX_TOTAL_TAGS.
  rewrite slice0_firstn by lia.
  replace (Z.to_nat (6 - Z.of_nat (length currentTags)))
    with (6 - length currentTags)%nat by lia.
  apply firstn_map.
Qed.

Lemma missing_In (currentTags : list string) (scored : list (string * Z))
    (e : string * Z) :
  In e (highScoringMissingWithScores currentTags scored)
  <-> In e scored /\ (HIGH_SCORE_THRESHOLD <= snd e)%Z
      /\ ~ In (fst e) currentTags.
Proof.
  unfold highScoringMissingWithScores. split.
  - intros H. apply (Permutation_in _ (sort_desc_perm _)) in H.
    apply filter_In in H as [H Hnot]. apply filter_In in H as [H Hhigh].
    repeat split; [assumption | now apply Z.leb_le |].
    intros Hc. apply includes_In in Hc. rewrite Hc in Hnot. discriminate.
  - intros (Hin & Hhigh & Hnot).
    apply (Permutation_in _ (Permutation_sym (sort_desc_perm _))).
    apply filter_In. split.
    + apply filter_In. split; [assumption | now apply Z.leb_le].
    + destruct (includes currentTags (fst e)) eqn:Hc; [|reflexivity].
      apply includes_In in Hc. contradiction.
Qed.

Lemma addHigh_high_or_full (currentTags : list string)
    (scored : list (string * Z)) (tag : string) (s : Z) :
  (length currentTags <= 6)%nat ->
  In (tag, s) scored -> (tenths 15 <= s)%Z ->
  In tag (addHighScoringExistingTags currentTags scored)
  \/ length (addHighScoringExistingTags currentTags scored) = 6%nat.
Proof.
  intros Hlen Hin Hs. unfold addHighScoringExistingTags.
  destruct (includes currentTags tag) eqn:Hcur.
  { left. apply in_or_app. left. now apply includes_In. }
  assert (Hmiss : In (tag, s)
                    (highScoringMissingWithScores currentTags scored)).
  { apply missing_In. cbn [fst snd]. repeat split; [assumption | exact Hs |].
    intros Hc. apply includes_In in Hc. congruence. }
  rewrite additionalTags_firstn by assumption.
  set (hs := highScoringMissingWithScores currentTags scored) in *.
  destruct (Nat.le_gt_cases (length hs) (6 - length currentTags))
    as [Hfit|Hover].
  - left. apply in_or_app. right. rewrite firstn_all2 by assumption.
    now apply (in_map fst) in Hmiss.
  - right. rewrite length_app, length_map, firstn_length_le by lia. lia.
Qed.

(** X13: with at most 6 current tags, the reconciler leaves a tag of score
    15 or more out of its result only when the result is full: such a tag
    is in the result, or the result has 6 tags. In every case the current
    tags open the result, unchanged and in order. *)
Theorem addHighScoringExistingTags_complete
    (currentTags : list string) (scored : list (string * Z)) :
  (length currentTags <= 6)%nat ->
  firstn (length currentTags)
    (addHighScoringExistingTags currentTags scored) = currentTags
  /\ forall tag s,
       In (tag, s) scored -> (tenths 15 <= s)%Z ->
       In tag (addHighScoringExistingTags currentTags scored)
       \/ length (addHighScoringExistingTags currentTags scored) = 6%nat.
Proof.
  intros Hlen. split.
  - unfold addHighScoringExistingTags.
    rewrite firstn_app, Nat.sub_diag, firstn_all. simpl. apply app_nil_r.
  - intros tag s Hin Hs. now apply (addHigh_high_or_full _ _ tag s).
Qed.

Lemma addHighScoringExistingTags_complete_witness :
  In "docker"
    (addHighScoringExistingTags ["api"; "react"]
       [("react", tenths 27); ("docker", tenths 20)])
  \/ length
       (addHighScoringExistingTags ["api"; "react"]
          [("react", tenths 27); ("docker", tenths 20)]) = 6%nat.
Proof.
  assert (Hlen : (length ["api"; "react"] <= 6)%nat) by (simpl; lia).
  destruct (addHighScoringExistingTags_complete ["api"; "react"]
              [("react", tenths 27); ("docker", tenths 20)] Hlen)
    as [_ H].
  apply (H "docker" (tenths 20)); [simpl; tauto | unfold tenths; lia].
Defined.

Lemma filter_none {A : Type} (f : A -> bool) (l : list A) :
  (forall x, In x l -> f x = false) -> filter f l = [].
Proof.
  induction l as [|x r IH]; intros H; [reflexivity|]. simpl.
  rewrite (H x (or_introl eq_refl)). apply IH. intros y Hy. apply H. now right.
Qed.

(** X14: with at most 6 current tags reconciling is idempotent: running
    the reconciler on its own result with the same scored list adds
    nothing. *)
Theorem addHighScoringExistingTags_idempotent
    (currentTags : list string) (scored : list (string * Z)) :
  (length currentTags <= 6)%nat ->
  addHighScoringExistingTags
    (addHighScoringExistingTags currentTags scored) scored
  = addHighScoringExistingTags currentTags scored.
Proof.
  intros Hlen.
  pose proof (addHigh_length_le currentTags scored Hlen) as Hlen'.
  set (once := addHighScoringExistingTags currentTags scored) in *.
  unfold addHighScoringExistingTags at 1.
  rewrite (additionalTags_firstn once scored Hlen').
  assert (Hnil : firstn (6 - length once)
                   (highScoringMissingWithScores once scored) = []).
  { set (hs := highScoringMissingWithScores currentTags scored).
    assert (Honce : once = (currentTags
                            ++ map fst (firstn (6 - length currentTags) hs))%list).
    { unfold once, addHighScoringExistingTags.
      now rewrite additionalTags_firstn. }
    destruct (Nat.le_gt_cases (length hs) (6 - length currentTags))
      as [Hfit|Hover].
    - rewrite firstn_all2 in Honce by assumption.
      replace (highScoringMissingWithScores once scored) with (@nil (string * Z));
        [now destruct (6 - length once)%nat|].
      symmetry. unfold highScoringMissingWithScores at 1.
      rewrite filter_none; [reflexivity|].
      intros e He. apply negb_false_iff, includes_In.
      apply filter_In in He as [He Hhigh]. apply Z.leb_le in Hhigh.
      rewrite Honce. apply in_or_app.
      destruct (includes currentTags (fst e)) eqn:Hc.
      + left. now apply includes_In.
      + right. apply in_map. apply missing_In. repeat split; try assumption.
        intros Hin. apply includes_In in Hin. congruence.
    - replace (6 - length once)%nat with 0%nat; [reflexivity|].
      rewrite Honce, length_app, length_map, firstn_length_le by lia. lia. }
  rewrite Hnil. simpl. apply app_nil_r.
Qed.

Lemma addHighScoringExistingTags_idempotent_witness :
  addHighScoringExistingTags
    (addHighScoringExistingTags ["api"; "react"]
       [("react", tenths 27); ("hooks", tenths 15); ("docker", tenths 20)])
    [("react", tenths 27); ("hooks", tenths 15); ("docker", tenths 20)]
  = ["api"; "react"; "docker"; "hooks"].
Proof.
  rewrite (addHighScoringExistingTags_idempotent ["api"; "react"]
             [("react", tenths 27); ("hooks", tenths 15);
              ("docker", tenths 20)]).
  - reflexivity.
  - simpl. lia.
Defined.

Lemma NoDup_append {A : Type} (a b : list A) :
  NoDup a -> NoDup b -> (forall x, In x a -> ~ In x b) -> NoDup (a ++ b).
Proof.
  induction 1 as [|x r Hx Hr IH]; intros Hb Hdis; [exact Hb|].
  simpl. constructor.
  - intros Hin. apply in_app_or in Hin as [Hin|Hin]; [contradiction|].
    apply (Hdis x); [now left | assumption].
  - apply IH; [assumption|]. intros y Hy. apply Hdis. now right.
Qed.

Lemma NoDup_map_filter {A B : Type} (g : A -> B) (f : A -> bool)
    (l : list A) :
  NoDup (map g l) -> NoDup (map g (filter f l)).
Proof.
  induction l as [|x r IH]; simpl; intros H; [constructor|].
  inversion H as [|? ? Hx Hr]; subst.
  destruct (f x); [|now apply IH]. simpl. constructor; [|now apply IH].
  intros Hin. apply Hx. apply in_map_iff in Hin as (y & Hy & Hin).
  apply filter_In in Hin as [Hin _]. rewrite <- Hy. now apply in_map.
Qed.

(** X15: the reconciler introduces no duplicate: when the current tags are
    pairwise distinct and the scored list holds each tag once, as the
    scorer's answer does, the reconciled tags are pairwise distinct, for
    every number of current tags. *)
Theorem addHighScoringExistingTags_NoDup
    (currentTags : list string) (scored : list (string * Z)) :
  NoDup currentTags -> NoDup (map fst scored) ->
  NoDup (addHighScoringExistingTags currentTags scored).
Proof.
  intros Hcur Hsc. unfold addHighScoringExistingTags.
  apply NoDup_append; [exact Hcur | |].
  - unfold additionalTags, slice0. apply NoDup_firstn.
    unfold highScoringMissingWithScores.
    eapply Permutation_NoDup;
      [apply Permutation_map, Permutation_sym, sort_desc_perm|].
    now apply NoDup_map_filter, NoDup_map_filter.
  - intros x Hx Hadd.
    apply additionalTags_high in Hadd as (s & _ & _ & Hnot). contradiction.
Qed.

Lemma addHighScoringExistingTags_NoDup_witness :
  NoDup
    (addHighScoringExistingTags Fixture.seven_tags
       [("x", tenths 15); ("y", tenths 20)]).
Proof.
  apply addHighScoringExistingTags_NoDup.
  - repeat constructor; simpl; intuition discriminate.
  - repeat constructor; simpl; intuition discriminate.
Defined.

(* ================================================================== *)
(** ** Failures of the entry point *)

(** X16: [generateTags] throws exactly when the draft call throws, and
    then the same error; a failing repository or a failing filter call
    never makes it throw. It returns exactly when the draft stage
    returns. *)
Theorem generateTags_throws_with_draft
    (E : collaborators) (content : string) (hint : option (list string))
    (opts : options) :
  let existingMatches :=
    map fst
      (findTagsByKeywordsWithScores E
         (or_else (title opts) "") (or_else (description opts) "")
         (teamId opts)) in
  (forall e,
     generateTags E content hint opts = Throw e
     <-> generateWithLLM E content opts existingMatches = Throw e)
  /\ ((exists out, generateTags E content hint opts = Ok out)
      <-> exists initialTags,
            generateWithLLM E content opts existingMatches = Ok initialTags).
Proof.
  intros existingMatches. subst existingMatches.
  unfold generateTags, generateTagsInternal. cbv zeta.
  destruct (generateWithLLM E content opts _) as [initialTags|e0];
    cbn [bind]; split.
  - intros e. destruct (manualTags opts) as [manual|];
      [destruct (0 <? length manual)%nat|]; cbn [bind];
      split; discriminate.
  - split; [intros _; now exists initialTags|]. intros _.
    destruct (manualTags opts) as [manual|];
      [destruct (0 <? length manual)%nat|]; cbn [bind]; eexists; reflexivity.
  - intros e. destruct (manualTags opts) as [manual|];
      [destruct (0 <? length manual)%nat|]; cbn [bind]; tauto.
  - split; intros [x Hx];
      [|discriminate].
    destruct (manualTags opts) as [manual|];
      [destruct (0 <? length manual)%nat|]; cbn [bind] in Hx; discriminate.
Qed.

(* ================================================================== *)
(** ** Sets of tags *)

Lemma set_add_all_NoDup (seen l : list string) :
  NoDup seen -> NoDup (set_add_all seen l).
Proof.
  revert seen. induction l as [|x r IH]; intros seen H; [exact H|].
  simpl. apply IH. destruct (includes seen x) eqn:Hx; [exact H|].
  apply NoDup_append; [exact H | repeat constructor; simpl; tauto |].
  intros y Hy [<-|[]]. apply includes_In in Hy. congruence.
Qed.

Lemma set_add_all_In (seen l : list string) (x : string) :
  In x (set_add_all seen l) <-> In x seen \/ In x l.
Proof.
  revert seen. induction l as [|y r IH]; intros seen; simpl; [tauto|].
  rewrite IH. destruct (includes seen y) eqn:Hy.
  - apply includes_In in Hy. split; [tauto|].
    intros [H|[<-|H]]; tauto.
  - rewrite in_app_iff. simpl. tauto.
Qed.

Lemma set_add_all_distinct (seen l : list string) :
  NoDup (seen ++ l) -> set_add_all seen l = (seen ++ l)%list.
Proof.
  revert seen. induction l as [|x r IH]; intros seen H; simpl.
  - now rewrite app_nil_r.
  - assert (Hx : includes seen x = false).
    { destruct (includes seen x) eqn:Hc; [|reflexivity].
      apply includes_In in Hc. apply NoDup_remove_2 in H.
      exfalso. apply H. apply in_or_app. now left. }
    rewrite Hx, IH; rewrite <- app_assoc; [reflexivity | exact H].
Qed.

Lemma unique_NoDup (l : list string) : NoDup (unique l).
Proof. apply set_add_all_NoDup. constructor. Qed.

Lemma unique_In (l : list string) (x : string) : In x (unique l) <-> In x l.
Proof. unfold unique. rewrite set_add_all_In. simpl. tauto. Qed.

Lemma set_add_all_prefix (seen l : list string) :
  exists rest, set_add_all seen l = (seen ++ rest)%list.
Proof.
  revert seen. induction l as [|x r IH]; intros seen; simpl.
  - exists []. now rewrite app_nil_r.
  - destruct (includes seen x); [apply IH|].
    destruct (IH (seen ++ [x])%list) as [rest ->].
    exists (x :: rest). now rewrite <- app_assoc.
Qed.

Lemma set_add_all_app (seen a b : list string) :
  set_add_all seen (a ++ b) = set_add_all (set_add_all seen a) b.
Proof.
  revert seen. induction a as [|x r IH]; intros seen; simpl; [reflexivity|].
  apply IH.
Qed.

(* ================================================================== *)
(** ** The repository of the private lambda *)

(** X17: when the query succeeds, [getExistingTags] of the Postgres
    repository returns a corpus without repetition that holds every tag of
    the team and every seed tag, so it is never empty; the tags of the team
    come first, in the order of the query, when the query returns each
    once. When the query fails the call fails. *)
Theorem postgres_getExistingTags_corpus
    (team_tags : string -> option (list string)) (teamId : string) :
  match team_tags teamId with
  | None => postgres_getExistingTags team_tags teamId = None
  | Some databaseTags =>
      exists corpus,
        postgres_getExistingTags team_tags teamId = Some corpus
        /\ NoDup corpus
        /\ (forall tag, In tag corpus
                        <-> In tag databaseTags \/ In tag seedTags)
        /\ corpus <> []
        /\ (NoDup databaseTags ->
            firstn (length databaseTags) corpus = databaseTags)
  end.
Proof.
  unfold postgres_getExistingTags.
  destruct (team_tags teamId) as [databaseTags|]; [|reflexivity].
  exists (unique (databaseTags ++ seedTags)). repeat apply conj.
  - reflexivity.
  - apply unique_NoDup.
  - intros tag. rewrite unique_In, in_app_iff. tauto.
  - intros Hnil.
    assert (Hin : In "react" (unique (databaseTags ++ seedTags))).
    { apply unique_In, in_or_app. right. unfold seedTags. simpl. tauto. }
    rewrite Hnil in Hin. contradiction.
  - intros Hnd. unfold unique. rewrite set_add_all_app.
    rewrite (set_add_all_distinct [] databaseTags Hnd). cbn [app].
    destruct (set_add_all_prefix databaseTags seedTags) as [rest ->].
    rewrite firstn_app, Nat.sub_diag, firstn_all. simpl. apply app_nil_r.
Qed.

(** X18: with a team, [getSeedTags] of the Postgres repository returns the
    first [limit] tags of that corpus: at most [limit] tags, without
    repetition, all of them tags of the team or seed tags. *)
Theorem postgres_getSeedTags_team
    (team_tags : string -> option (list string))
    (user_tags : string -> Z -> option (list string))
    (userId team : string) (limit : Z) (tags : list string) :
  team <> "" -> (0 <= limit)%Z ->
  postgres_getSeedTags team_tags user_tags userId (Some team) limit
  = Some tags ->
  (Z.of_nat (length tags) <= limit)%Z
  /\ NoDup tags
  /\ exists corpus,
       postgres_getExistingTags team_tags team = Some corpus
       /\ tags = firstn (Z.to_nat limit) corpus.
Proof.
  intros Hteam Hlimit. unfold postgres_getSeedTags.
  replace (String.eqb team "") with false
    by (symmetry; now apply String.eqb_neq).
  unfold postgres_getExistingTags.
  destruct (team_tags team) as [db|]; [|discriminate].
  cbn [option_map]. intros [= <-].
  rewrite slice0_firstn by assumption. repeat apply conj.
  - pose proof (firstn_le_length (Z.to_nat limit) (unique (db ++ seedTags))).
    lia.
  - apply NoDup_firstn, unique_NoDup.
  - now exists (unique (db ++ seedTags)).
Qed.

Lemma postgres_getSeedTags_team_witness :
  postgres_getSeedTags (fun _ => Some ["rocq"; "react"]) (fun _ _ => None)
    "U1" (Some "T1") 3
  = Some ["rocq"; "react"; "javascript"]
  /\ (Z.of_nat (length ["rocq"; "react"; "javascript"]) <= 3)%Z.
Proof.
  assert (Hrun :
    postgres_getSeedTags (fun _ => Some ["rocq"; "react"]) (fun _ _ => None)
      "U1" (Some "T1") 3
    = Some ["rocq"; "react"; "javascript"]) by reflexivity.
  split; [exact Hrun|].
  apply (postgres_getSeedTags_team (fun _ => Some ["rocq"; "react"])
           (fun _ _ => None) "U1" "T1" 3 _); [discriminate | lia | exact Hrun].
Defined.

(** X19: with the Postgres repository as the corpus store, every corpus
    tag gets its records of perfect matches once per occurrence of an equal
    keyword: the count is the number of keyword occurrences. *)
Theorem postgres_corpus_perfect_once
    (E : collaborators) (team_tags : string -> option (list string))
    (title description team tag : string) :
  (forall t, getExistingTags E t = postgres_getExistingTags team_tags t) ->
  In tag (fetch_existing_tags E (Some team)) ->
  perfect_count (debug_log (scoring_run E title description (Some team))) tag
  = occurrences (extractKeywords (title ++ " " ++ description)) tag.
Proof.
  intros Hstore Hin. unfold scoring_run. cbv zeta.
  rewrite score_keywords_perfect.
  assert (Hnd : NoDup (fetch_existing_tags E (Some team))).
  { unfold fetch_existing_tags.
    destruct (String.eqb team ""); [constructor|].
    rewrite Hstore. unfold postgres_getExistingTags.
    destruct (team_tags team); [apply unique_NoDup | constructor]. }
  rewrite (occurrences_NoDup _ _ Hnd Hin). lia.
Qed.

Lemma postgres_corpus_perfect_once_witness :
  perfect_count
    (debug_log
       (scoring_run
          (Fixture.make Rejected Rejected
             (postgres_getExistingTags (fun _ => Some ["react"; "react"])))
          "React and more React" "" (Some "T1")))
    "react"
  = 2%nat.
Proof.
  rewrite (postgres_corpus_perfect_once
             (Fixture.make Rejected Rejected
                (postgres_getExistingTags (fun _ => Some ["react"; "react"])))
             (fun _ => Some ["react"; "react"])
             "React and more React" "" "T1" "react").
  - reflexivity.
  - reflexivity.
  - vm_compute. tauto.
Defined.

(* ================================================================== *)
(** ** Sanitizing and validation *)

Lemma sanitize_tags_shape (tags : list string) :
  Forall (fun tag => tag <> "" /\ sanitize_tag tag = tag
                     /\ exists source, In source tags
                                       /\ tag = sanitize_tag source)
    (sanitize_tags tags).
Proof.
  apply Forall_forall. intros tag Hin. unfold sanitize_tags in Hin.
  apply filter_In in Hin as [Hin Hne].
  apply in_map_iff in Hin as (x & <- & Hx). repeat split.
  - intros Heq. rewrite Heq in Hne. discriminate.
  - apply normalisations_sanitize_twice.
  - now exists x.
Qed.

Lemma sanitize_tags_fixed (tags : list string) :
  Forall (fun tag => tag <> "" /\ sanitize_tag tag = tag) tags ->
  sanitize_tags tags = tags.
Proof.
  intros H. rewrite Forall_forall in H. unfold sanitize_tags.
  rewrite (map_ext_in sanitize_tag (fun tag => tag)), map_id.
  - apply forallb_filter_id. apply forallb_forall. intros tag Hin.
    destruct (H tag Hin) as [Hne _]. destruct tag; [contradiction|reflexivity].
  - intros tag Hin. now destruct (H tag Hin).
Qed.

Lemma sanitize_tags_idempotent (tags : list string) :
  sanitize_tags (sanitize_tags tags) = sanitize_tags tags.
Proof.
  apply sanitize_tags_fixed.
  eapply Forall_impl; [|apply sanitize_tags_shape]. cbv beta. tauto.
Qed.

Lemma sanitize_tags_length (tags : list string) :
  (length (sanitize_tags tags) <= length tags)%nat.
Proof.
  unfold sanitize_tags.
  pose proof (filter_length_le (fun tag => negb (String.eqb tag ""))
                (map sanitize_tag tags)) as H.
  now rewrite length_map in H.
Qed.

(** X20: [sanitizeBookmark] is idempotent, and the record it returns
    always has a [tags] field, whose tags are non-empty, trimmed and in
    lower case. *)
Theorem sanitizeBookmark_idempotent (bookmark : Bookmark.t) :
  sanitizeBookmark (sanitizeBookmark bookmark) = sanitizeBookmark bookmark
  /\ exists tags,
       Bookmark.tags (sanitizeBookmark bookmark) = Some tags
       /\ Forall (fun tag => tag <> "" /\ trim tag = tag
                             /\ toLowerCase tag = tag) tags.
Proof.
  split.
  - destruct bookmark as [i u t d tg mt us te ch p c up].
    unfold sanitizeBookmark.
    cbn [Bookmark.id Bookmark.url Bookmark.title Bookmark.description
         Bookmark.tags Bookmark.manualTags Bookmark.userId Bookmark.teamId
         Bookmark.channelId Bookmark.isPrivate Bookmark.createdAt
         Bookmark.updatedAt].
    f_equal.
    + destruct t; cbn [option_map]; [now rewrite trim_idempotent | reflexivity].
    + destruct d; cbn [option_map]; [now rewrite trim_idempotent | reflexivity].
    + destruct tg; [now rewrite sanitize_tags_idempotent | reflexivity].
    + destruct mt; cbn [option_map];
        [now rewrite sanitize_tags_idempotent | reflexivity].
    + destruct us; cbn [option_map]; [now rewrite trim_idempotent | reflexivity].
    + destruct te; cbn [option_map]; [now rewrite trim_idempotent | reflexivity].
    + destruct ch; cbn [option_map]; [now rewrite trim_idempotent | reflexivity].
  - eexists. split; [reflexivity|].
    destruct (Bookmark.tags bookmark) as [tags|]; [|constructor].
    eapply Forall_impl; [|apply sanitize_tags_shape].
    intros tag (Hne & _ & source & _ & ->). repeat split.
    + exact Hne.
    + unfold sanitize_tag. now rewrite toLowerCase_trim, trim_idempotent.
    + unfold sanitize_tag. apply toLowerCase_idempotent.
Qed.

Lemma validate_tags_None (tags : list string) :
  validate_tags tags = None ->
  Forall (fun tag => blank tag = false
                     /\ (String.length tag <= 50)%nat) tags.
Proof.
  induction tags as [|tag r IH]; [constructor|]. cbn [validate_tags].
  destruct (blank tag) eqn:Hb; [discriminate|].
  destruct (50 <? String.length tag)%nat eqn:Hl; [discriminate|].
  apply Nat.ltb_ge in Hl. intros H. constructor; [split; [exact Hb|exact Hl]|].
  now apply IH.
Qed.

Lemma not_blank_sanitized (tag : string) :
  blank tag = false -> sanitize_tag tag <> "".
Proof.
  unfold blank. intros H. apply orb_false_elim in H as [_ H].
  apply Nat.eqb_neq in H. intros Heq.
  apply (f_equal String.length) in Heq. unfold sanitize_tag, toLowerCase in Heq.
  rewrite length_string_map in Heq. simpl in Heq. lia.
Qed.

(** X21: a request that passes [validateBookmarkCreateRequest] has a
    non-empty URL starting with [http://] or [https://], non-blank user
    and channel ids and at most 10 manual tags, each non-blank and of at
    most 50 characters; sanitizing these tags drops none of them. *)
Theorem validated_request
    (URL_parses : string -> bool) (request : Request.t) :
  validateBookmarkCreateRequest URL_parses request = None ->
  Request.url request <> ""
  /\ (String.prefix "http://" (Request.url request) = true
      \/ String.prefix "https://" (Request.url request) = true)
  /\ blank (Request.userId request) = false
  /\ blank (Request.channelId request) = false
  /\ forall manual,
       Request.manualTags request = Some manual ->
       (length manual <= 10)%nat
       /\ Forall (fun tag => blank tag = false
                             /\ (String.length tag <= 50)%nat) manual
       /\ sanitize_tags manual = map sanitize_tag manual.
Proof.
  unfold validateBookmarkCreateRequest, validateUrl.
  destruct (String.eqb (Request.url request) "") eqn:Hurl; [discriminate|].
  destruct (URL_parses (Request.url request)); [|discriminate].
  destruct (String.prefix "http://" (Request.url request)
            || String.prefix "https://" (Request.url request)) eqn:Hp;
    [|discriminate]. cbn [negb].
  destruct (blank (Request.userId request)); [discriminate|].
  destruct (blank (Request.channelId request)); [discriminate|].
  intros Htags. repeat apply conj; try reflexivity.
  - now apply String.eqb_neq.
  - now apply orb_prop.
  - intros manual Hm. rewrite Hm in Htags.
    destruct (10 <? length manual)%nat eqn:Hlen; [discriminate|].
    apply Nat.ltb_ge in Hlen. apply validate_tags_None in Htags.
    assert (Hkeep : sanitize_tags manual = map sanitize_tag manual).
    { unfold sanitize_tags. apply forallb_filter_id. apply forallb_forall.
      intros tag Hin. apply in_map_iff in Hin as (x & <- & Hx).
      rewrite Forall_forall in Htags. destruct (Htags x Hx) as [Hb _].
      apply negb_true_iff, String.eqb_neq. now apply not_blank_sanitized. }
    repeat apply conj; assumption.
Qed.

Lemma validated_request_witness :
  validateBookmarkCreateRequest (fun _ => true)
    (command_request "https://example.com React  hooks" "U1" "T1" "C1")
  = None
  /\ sanitize_tags ["React"; "hooks"] = map sanitize_tag ["React"; "hooks"].
Proof.
  assert (Hok :
    validateBookmarkCreateRequest (fun _ => true)
      (command_request "https://example.com React  hooks" "U1" "T1" "C1")
    = None) by reflexivity.
  split; [exact Hok|].
  destruct (validated_request _ _ Hok) as (_ & _ & _ & _ & Htags).
  apply (Htags ["React"; "hooks"]). reflexivity.
Defined.

(* ================================================================== *)
(** ** The bookmark service *)

Lemma bookmarkData_tags (url title description : string)
    (manual : option (list string)) (userId teamId channelId : string)
    (generatedTags : list string) :
  Bookmark.tags
    (bookmarkData url title description manual userId teamId channelId
       generatedTags)
  = Some (sanitize_tags (uniqueTags manual generatedTags)).
Proof. reflexivity. Qed.

(** Deduplication comes before the tags are put in lower case: tags that
    differ by case only are both saved, as the same string. *)
Example bookmarkData_keeps_case_duplicates :
  Bookmark.tags
    (bookmarkData "https://example.com" "Title" "" (Some ["React"])
       "U1" "T1" "C1" ["react"; "hooks"])
  = Some ["react"; "react"; "hooks"].
Proof. reflexivity. Qed.

(** X22: the tags [createBookmark] hands to [save] are the sanitized forms
    of the manual and generated tags and nothing else: each is non-empty,
    trimmed and in lower case, and every manual or generated tag that is
    not blank is there in its sanitized form. When the manual and the
    generated tags are already sanitized the saved tags are pairwise
    distinct. *)
Theorem createBookmark_saved_tags
    (manual : option (list string)) (generatedTags : list string) :
  let allTags :=
    ((match manual with Some m => m | None => [] end) ++ generatedTags)%list in
  let saved := sanitize_tags (uniqueTags manual generatedTags) in
  Forall (fun tag => tag <> "" /\ sanitize_tag tag = tag
                     /\ exists source, In source allTags
                                       /\ tag = sanitize_tag source) saved
  /\ (forall source, In source allTags -> sanitize_tag source <> "" ->
        In (sanitize_tag source) saved)
  /\ (length saved <= length allTags)%nat
  /\ (Forall (fun tag => tag <> "" /\ sanitize_tag tag = tag) allTags ->
      saved = unique allTags /\ NoDup saved).
Proof.
  intros allTags saved. subst saved. unfold uniqueTags. fold allTags.
  repeat apply conj.
  - eapply Forall_impl; [|apply sanitize_tags_shape].
    intros tag (Hne & Hfix & source & Hin & ->). repeat split; try assumption.
    exists source. split; [now apply unique_In | reflexivity].
  - intros source Hin Hne. unfold sanitize_tags. apply filter_In. split.
    + apply in_map. now apply unique_In.
    + now apply negb_true_iff, String.eqb_neq.
  - pose proof (sanitize_tags_length (unique allTags)) as H1.
    pose proof (NoDup_incl_length (unique_NoDup allTags)
                  (fun x => proj1 (unique_In allTags x))) as H2.
    lia.
  - intros Hall.
    assert (Hfix : sanitize_tags (unique allTags) = unique allTags).
    { apply sanitize_tags_fixed. rewrite Forall_forall in *.
      intros tag Hin. apply Hall. now apply unique_In. }
    rewrite Hfix. split; [reflexivity | apply unique_NoDup].
Qed.

Lemma unique_length_incl (l bound : list string) :
  incl l bound -> (length (unique l) <= length bound)%nat.
Proof.
  intros H. apply NoDup_incl_length; [apply unique_NoDup|].
  intros x Hx. apply H. now apply unique_In.
Qed.

(** X23: composed with [generateTags] of the engine, [createBookmark]
    saves at most max(8, number of manual tags) tags when manual tags are
    given, and every manual tag is among the tags it deduplicates, also
    the ninth and tenth ones that [generateTags] itself cuts off. *)
Theorem createBookmark_tags_bound
    (E : collaborators) (content : string) (hint : option (list string))
    (opts : options) (manual generatedTags : list string) :
  manualTags opts = Some manual -> manual <> [] ->
  generateTags E content hint opts = Ok generatedTags ->
  (length (sanitize_tags (uniqueTags (Some manual) generatedTags))
   <= Nat.max 8 (length manual))%nat
  /\ forall tag, In tag manual ->
       In tag (uniqueTags (Some manual) generatedTags).
Proof.
  intros Hm Hne Hgen. split.
  2: { intros tag Hin. unfold uniqueTags. apply unique_In, in_or_app.
       now left. }
  unfold generateTags in Hgen. rewrite Hm in Hgen.
  replace (0 <? length manual)%nat with true in Hgen
    by (destruct manual; [contradiction | reflexivity]).
  destruct (generateTagsInternal E content hint opts) as [g|e];
    [|discriminate].
  cbn [bind] in Hgen. inversion Hgen as [Heq]. clear Hgen.
  rewrite slice0_firstn by lia. change (Z.to_nat 8) with 8%nat.
  pose proof (sanitize_tags_length
                (uniqueTags (Some manual) (firstn 8 (manual ++ g)))) as Hs.
  unfold uniqueTags in *.
  rewrite firstn_app in *.
  destruct (Nat.le_gt_cases (length manual) 8) as [Hfit|Hover].
  - rewrite (firstn_all2 manual Hfit) in *.
    pose proof (unique_length_incl
                  (manual ++ manual ++ firstn (8 - length manual) g)
                  (manual ++ firstn (8 - length manual) g)) as Hu.
    assert (Hlen : (length (manual ++ firstn (8 - length manual) g) <= 8)%nat).
    { rewrite length_app.
      pose proof (firstn_le_length (8 - length manual) g). lia. }
    assert (Hincl : incl (manual ++ manual ++ firstn (8 - length manual) g)
                      (manual ++ firstn (8 - length manual) g)).
    { intros x Hx. apply in_app_or in Hx as [Hx|Hx]; [|exact Hx].
      apply in_or_app. now left. }
    specialize (Hu Hincl).
    eapply Nat.le_trans; [exact Hs|]. eapply Nat.le_trans; [exact Hu|].
    eapply Nat.le_trans; [exact Hlen|]. apply Nat.le_max_l.
  - replace (8 - length manual)%nat with 0%nat in * by lia.
    cbn [firstn] in *. rewrite app_nil_r in *.
    pose proof (unique_length_incl (manual ++ firstn 8 manual) manual) as Hu.
    assert (Hincl : incl (manual ++ firstn 8 manual) manual).
    { intros x Hx. apply in_app_or in Hx as [Hx|Hx]; [exact Hx|].
      now apply firstn_subset in Hx. }
    specialize (Hu Hincl).
    eapply Nat.le_trans; [exact Hs|]. eapply Nat.le_trans; [exact Hu|].
    apply Nat.le_max_r.
Qed.

Lemma createBookmark_tags_bound_witness :
  (length
     (sanitize_tags
        (uniqueTags (Some ["a"; "b"; "c"; "d"; "e"; "f"; "g"; "h"; "i"])
           ["a"; "b"; "c"; "d"; "e"; "f"; "g"; "h"]))
   <= Nat.max 8 9)%nat
  /\ In "i"
       (uniqueTags (Some ["a"; "b"; "c"; "d"; "e"; "f"; "g"; "h"; "i"])
          ["a"; "b"; "c"; "d"; "e"; "f"; "g"; "h"]).
Proof.
  assert (Hrun :
    generateTags
      (Fixture.make (Content (Some "[]")) Rejected Fixture.no_store)
      "content" None
      (Fixture.with_manual ["a"; "b"; "c"; "d"; "e"; "f"; "g"; "h"; "i"])
    = Ok ["a"; "b"; "c"; "d"; "e"; "f"; "g"; "h"]) by reflexivity.
  assert (Hne : ["a"; "b"; "c"; "d"; "e"; "f"; "g"; "h"; "i"] <> @nil string)
    by discriminate.
  destruct (createBookmark_tags_bound
              (Fixture.make (Content (Some "[]")) Rejected Fixture.no_store)
              "content" None
              (Fixture.with_manual
                 ["a"; "b"; "c"; "d"; "e"; "f"; "g"; "h"; "i"])
              ["a"; "b"; "c"; "d"; "e"; "f"; "g"; "h"; "i"]
              ["a"; "b"; "c"; "d"; "e"; "f"; "g"; "h"]
              eq_refl Hne Hrun) as [Hlen Hin].
  split; [exact Hlen|]. apply Hin. simpl. tauto.
Defined.

(** X24: [createBookmark] fails with the validation error of a request
    that does not pass, whatever its collaborators would do. When it
    returns a bookmark, the request has passed validation and the bookmark
    is the one the repository found for the URL or the one [save] returned
    for a record with the request's URL and sanitized tags. When it fails
    with a generation error, that error is the one the tag generator
    threw. *)
Theorem createBookmark_outcomes (S : services) (request : Request.t) :
  (forall e,
     validateBookmarkCreateRequest (URL_parses S) request = Some e ->
     createBookmark S request = Raised (ValidationFailed e))
  /\ (forall bookmark,
        createBookmark S request = Returned bookmark ->
        validateBookmarkCreateRequest (URL_parses S) request = None
        /\ (findByUrl S (Request.url request) (Request.userId request)
            = Some (Some bookmark)
            \/ exists data tags,
                 save S data = Some bookmark
                 /\ Bookmark.url data = Some (Request.url request)
                 /\ Bookmark.tags data = Some tags
                 /\ Forall (fun tag => tag <> "" /\ sanitize_tag tag = tag)
                      tags))
  /\ (forall e,
        createBookmark S request = Raised (GenerationFailed e) ->
        exists content seeds opts,
          tagGenerator S content seeds opts = Throw e
          /\ manualTags opts = Request.manualTags request).
Proof.
  unfold createBookmark. repeat apply conj.
  - intros e ->. reflexivity.
  - intros bookmark.
    destruct (validateBookmarkCreateRequest _ request); [discriminate|].
    destruct (findByUrl S _ _) as [[existing|]|]; try discriminate.
    { intros [= ->]. split; [reflexivity | now left]. }
    destruct (extractMetadata S _) as [[mt md]|]; [|discriminate].
    destruct (getSeedTags S _ _ _) as [seeds|]; [|discriminate].
    destruct (tagGenerator S _ _ _) as [gen|e]; [|discriminate].
    destruct (save S _) as [saved|] eqn:Hsave; [|discriminate].
    intros [= ->]. split; [reflexivity|]. right.
    eexists. eexists. split; [exact Hsave|]. split; [reflexivity|].
    split; [apply bookmarkData_tags|].
    eapply Forall_impl; [|apply sanitize_tags_shape]. cbv beta. tauto.
  - intros e.
    destruct (validateBookmarkCreateRequest _ request); [discriminate|].
    destruct (findByUrl S _ _) as [[existing|]|]; try discriminate.
    destruct (extractMetadata S _) as [[mt md]|]; [|discriminate].
    destruct (getSeedTags S _ _ _) as [seeds|]; [|discriminate].
    destruct (tagGenerator S _ _ _) as [gen|e0] eqn:Hgen.
    + destruct (save S _); discriminate.
    + intros [= ->]. eexists. eexists. eexists. split; [exact Hgen|].
      reflexivity.
Qed.

(* ================================================================== *)
(** ** The whole pipeline *)

(** X25: when the pipeline returns, a corpus tag that the scorer answers
    with a score of 15 or more is among the final tags, unless these
    already number 6 or more; and the final tags open with the filtered
    draft. *)
Theorem generateTagsInternal_forces_high_scores
    (E : collaborators) (content : string) (hint : option (list string))
    (opts : options) (out : list string) :
  generateTagsInternal E content hint opts = Ok out ->
  let scored :=
    findTagsByKeywordsWithScores E
      (or_else (title opts) "") (or_else (description opts) "")
      (teamId opts) in
  (forall tag s, In (tag, s) scored -> (tenths 15 <= s)%Z ->
     In tag out \/ (6 <= length out)%nat)
  /\ exists initialTags,
       generateWithLLM E content opts (map fst scored) = Ok initialTags
       /\ firstn
            (length (filterTagsBySpecificity E initialTags opts
                       (map fst scored))) out
          = filterTagsBySpecificity E initialTags opts (map fst scored).
Proof.
  intros Hout scored.
  destruct (generateTagsInternal_unfold E content hint opts out Hout)
    as (initialTags & Hdraft & Heq).
  fold scored in Hdraft, Heq.
  set (filtered := filterTagsBySpecificity E initialTags opts (map fst scored))
    in *.
  split.
  - intros tag s Hin Hs.
    destruct (Nat.le_gt_cases (length filtered) 6) as [Hfit|Hover].
    + destruct (addHigh_high_or_full filtered scored tag s Hfit Hin Hs)
        as [H|H]; rewrite Heq; [now left | right; lia].
    + right. rewrite Heq. unfold addHighScoringExistingTags.
      rewrite length_app. lia.
  - exists initialTags. split; [exact Hdraft|].
    rewrite Heq. unfold addHighScoringExistingTags.
    rewrite firstn_app, Nat.sub_diag, firstn_all. simpl. apply app_nil_r.
Qed.

Lemma generateTagsInternal_forces_high_scores_witness :
  generateTagsInternal
    (Fixture.make (Content (Some "Sorry, I cannot help")) Rejected
       (fun _ => Some ["react"; "hooks"]))
    "React Hooks Tutorial" None
    {| url := None; title := Some "React Hooks Tutorial";
       description := None; teamId := Some "T1"; manualTags := None |}
  = Ok ["react"; "hooks"]
  /\ (In "react" ["react"; "hooks"]
      \/ (6 <= length ["react"; "hooks"])%nat).
Proof.
  assert (Hrun :
    generateTagsInternal
      (Fixture.make (Content (Some "Sorry, I cannot help")) Rejected
         (fun _ => Some ["react"; "hooks"]))
      "React Hooks Tutorial" None
      {| url := None; title := Some "React Hooks Tutorial";
         description := None; teamId := Some "T1"; manualTags := None |}
    = Ok ["react"; "hooks"]) by reflexivity.
  split; [exact Hrun|].
  destruct (generateTagsInternal_forces_high_scores _ _ _ _ _ Hrun)
    as [Hhigh _].
  apply (Hhigh "react" (tenths 15)); [simpl; tauto | unfold tenths; lia].
Defined.

(* ================================================================== *)
(** ** The bracketed region of a reply *)

Lemma from_first_open_spec (text rest : string) :
  from_first_open text = Some rest ->
  exists before,
    text = before ++ String "[" rest
    /\ string_forallb (fun c => negb (Chars.is_code 91 c)) before = true.
Proof.
  revert rest. induction text as [|c r IH]; intros rest; simpl; [discriminate|].
  destruct (Chars.is_code 91 c) eqn:Hc.
  - intros [= <-]. exists "". split; [|reflexivity]. simpl. f_equal.
    revert Hc. clear. all_chars c.
  - intros H. destruct (IH rest H) as (before & -> & Hb).
    exists (String c before). split; [reflexivity|]. simpl. now rewrite Hc.
Qed.

Lemma from_first_open_None (text : string) :
  from_first_open text = None
  <-> string_forallb (fun c => negb (Chars.is_code 91 c)) text = true.
Proof.
  induction text as [|c r IH]; simpl; [tauto|].
  destruct (Chars.is_code 91 c); simpl; [split; discriminate | exact IH].
Qed.

Lemma upto_last_close_None (s : string) :
  upto_last_close s = None
  <-> string_forallb (fun c => negb (Chars.is_code 93 c)) s = true.
Proof.
  induction s as [|c r IH]; simpl; [tauto|].
  destruct (upto_last_close r) as [p|].
  - split; [discriminate|]. intros H. apply andb_prop in H as [_ H].
    apply IH in H. discriminate.
  - destruct (Chars.is_code 93 c); simpl; [split; discriminate|].
    split; [intros _; now apply IH | reflexivity].
Qed.

Lemma upto_last_close_spec (s inner : string) :
  upto_last_close s = Some inner ->
  exists body after,
    inner = body ++ "]"
    /\ s = inner ++ after
    /\ string_forallb (fun c => negb (Chars.is_code 93 c)) after = true.
Proof.
  revert inner. induction s as [|c r IH]; intros inner; simpl; [discriminate|].
  destruct (upto_last_close r) as [p|] eqn:Hr.
  - intros [= <-]. destruct (IH p eq_refl) as (body & after & -> & -> & Ha).
    exists (String c body), after. repeat split; assumption.
  - destruct (Chars.is_code 93 c) eqn:Hc; [|discriminate].
    intros [= <-]. exists "", r. repeat split.
    + simpl. f_equal. revert Hc. clear. all_chars c.
    + now apply upto_last_close_None.
Qed.

(** X26: the region the stages cut out of a reply runs from the first
    opening bracket of the text to its last closing bracket: the text is
    [before ++ region ++ after], the region starts with an opening and ends
    with a closing bracket, no opening bracket stands before it and no
    closing bracket after it. There is no region exactly when the text has
    no opening bracket or no closing bracket after the first opening one. *)
Theorem json_match_region (text : string) :
  match json_match text with
  | Some region =>
      exists before body after,
        text = before ++ region ++ after
        /\ region = String "[" (body ++ "]")
        /\ string_forallb (fun c => negb (Chars.is_code 91 c)) before = true
        /\ string_forallb (fun c => negb (Chars.is_code 93 c)) after = true
  | None =>
      string_forallb (fun c => negb (Chars.is_code 91 c)) text = true
      \/ exists before rest,
           text = before ++ String "[" rest
           /\ string_forallb (fun c => negb (Chars.is_code 91 c)) before
              = true
           /\ string_forallb (fun c => negb (Chars.is_code 93 c)) rest = true
  end.
Proof.
  unfold json_match.
  destruct (from_first_open text) as [rest|] eqn:Hopen.
  - destruct (from_first_open_spec text rest Hopen) as (before & Htext & Hb).
    destruct (upto_last_close rest) as [inner|] eqn:Hclose.
    + destruct (upto_last_close_spec rest inner Hclose)
        as (body & after & Hinner & Hrest & Ha).
      exists before, body, after. repeat split; try assumption.
      * rewrite Htext, Hrest. reflexivity.
      * now rewrite Hinner.
    + right. exists before, rest. repeat split; try assumption.
      now apply upto_last_close_None.
  - left. now apply from_first_open_None.
Qed.

(* ================================================================== *)
(** ** Scores only grow *)

Lemma score_tag_grows (E : collaborators) (keyword tag t : string)
    (st : matcher) (s : Z) :
  map_get (tagScores st) t = Some s ->
  exists s', map_get (tagScores (score_tag E keyword st tag)) t = Some s'
             /\ (s <= s')%Z.
Proof.
  intros Hs. unfold score_tag.
  destruct (classify E keyword tag) as [scoreBoost mt].
  destruct (0 <? scoreBoost)%Z eqn:Hpos;
    [|exists s; split; [exact Hs | lia]].
  apply Z.ltb_lt in Hpos. cbn [tagScores]. rewrite map_get_set.
  destruct (String.eqb t tag) eqn:Ht.
  - apply String.eqb_eq in Ht. subst t. rewrite Hs.
    eexists. split; [reflexivity | lia].
  - exists s. split; [exact Hs | lia].
Qed.

Lemma fuzzy_tag_grows (E : collaborators) (keyword tag t : string)
    (st : matcher) (s : Z) :
  map_get (tagScores st) t = Some s ->
  exists s', map_get (tagScores (fuzzy_tag E keyword st tag)) t = Some s'
             /\ (s <= s')%Z.
Proof.
  intros Hs. unfold fuzzy_tag, map_has.
  destruct (map_get (tagScores st) tag) eqn:Hg;
    [exists s; split; [exact Hs | lia]|].
  destruct (80 <=? fuzz_ratio E keyword tag)%Z;
    [|exists s; split; [exact Hs | lia]].
  cbn [tagScores]. rewrite map_get_set.
  destruct (String.eqb t tag) eqn:Ht.
  - apply String.eqb_eq in Ht. subst t. congruence.
  - exists s. split; [exact Hs | lia].
Qed.

Lemma fold_grows (f : matcher -> string -> matcher) (tags : list string)
    (t : string) :
  (forall st tag s, map_get (tagScores st) t = Some s ->
     exists s', map_get (tagScores (f st tag)) t = Some s' /\ (s <= s')%Z) ->
  forall st s, map_get (tagScores st) t = Some s ->
    exists s', map_get (tagScores (fold_left f tags st)) t = Some s'
               /\ (s <= s')%Z.
Proof.
  intros Hf. induction tags as [|tag r IH]; intros st s Hs; simpl.
  - exists s. split; [exact Hs | lia].
  - destruct (Hf st tag s Hs) as (s1 & H1 & Hle1).
    destruct (IH _ _ H1) as (s2 & H2 & Hle2).
    exists s2. split; [exact H2 | lia].
Qed.

Lemma fold_left_snoc {A B : Type} (f : A -> B -> A) (l : list B) (x : B)
    (a : A) :
  fold_left f (l ++ [x]) a = f (fold_left f l a) x.
Proof. now rewrite fold_left_app. Qed.

(** X27: one more keyword never removes a tag from the score map and never
    lowers its score. *)
Theorem score_keywords_grows
    (E : collaborators) (keywords existingTags : list string)
    (keyword tag : string) (s : Z) :
  map_get (tagScores (score_keywords E keywords existingTags)) tag = Some s ->
  exists s',
    map_get
      (tagScores (score_keywords E (keywords ++ [keyword]) existingTags)) tag
    = Some s'
    /\ (s <= s')%Z.
Proof.
  intros Hs. unfold score_keywords in *. rewrite fold_left_snoc.
  unfold score_keyword at 1.
  set (st := fold_left (score_keyword E existingTags) keywords new_matcher) in *.
  destruct (fold_grows (score_tag E keyword) existingTags tag
              (fun st0 tg s0 => score_tag_grows E keyword tg tag st0 s0)
              st s Hs) as (s1 & H1 & Hle1).
  destruct (fold_grows (fuzzy_tag E keyword) existingTags tag
              (fun st0 tg s0 => fuzzy_tag_grows E keyword tg tag st0 s0)
              _ s1 H1) as (s2 & H2 & Hle2).
  exists s2. split; [exact H2 | lia].
Qed.

Lemma score_keywords_grows_witness :
  exists s',
    map_get
      (tagScores
         (score_keywords (Fixture.make Rejected Rejected Fixture.no_store)
            (["react"] ++ ["reactive"]) ["react"; "hooks"]))
      "react"
    = Some s'
    /\ (tenths 15 <= s')%Z.
Proof.
  apply (score_keywords_grows
           (Fixture.make Rejected Rejected Fixture.no_store)
           ["react"] ["react"; "hooks"] "reactive" "react" (tenths 15)).
  reflexivity.
Defined.

(* ================================================================== *)
(** ** A command text that starts with white space *)

(** X28: [processBookmarkAsync] splits the text of the command as it is:
    when the text starts with white space the first part is empty, the
    request gets the empty URL and validation refuses it with [URL is
    required], whatever follows. *)
Theorem command_leading_space
    (URL_parses : string -> bool) (c : ascii)
    (rest user_id team_id channel_id : string) :
  Chars.is_space c = true ->
  command_url (String c rest) = ""
  /\ validateBookmarkCreateRequest URL_parses
       (command_request (String c rest) user_id team_id channel_id)
     = Some (Invalid "URL is required" "url").
Proof.
  intros Hc.
  assert (Hurl : command_url (String c rest) = "").
  { unfold command_url, command_parts, split. cbn [split_runs].
    rewrite Hc. reflexivity. }
  split; [exact Hurl|].
  unfold validateBookmarkCreateRequest, command_request.
  cbn [Request.url]. now rewrite Hurl.
Qed.

Lemma command_leading_space_witness :
  command_url " https://example.com react" = ""
  /\ validateBookmarkCreateRequest (fun _ => true)
       (command_request " https://example.com react" "U1" "T1" "C1")
     = Some (Invalid "URL is required" "url").
Proof.
  apply (command_leading_space (fun _ => true) " "%char
           "https://example.com react" "U1" "T1" "C1").
  reflexivity.
Defined.
